(** * A shallow embedding of [systemmonitor.cpp]

    The monitor is a single C++ file: readers of [/proc], a per-iteration
    delta engine kept in a [std::map], three orderings handed to [std::sort],
    a bar renderer, and the key handler with the kill sub-flow.

    Conventions of the embedding.
    - [unsigned long long] is a [Z] kept in [0, 2^64) by [wrap64]; [long] and
      [int] are [Z] with the range written where the source can leave it.
    - [double] is modelled by exact rationals [Q]: every arithmetic step of the
      source is the same step on [Q], so rounding error, infinities and NaN of
      binary64 are outside the model.  A conversion [(double)n] is [inject_Z n];
      the cast [(int)x] truncates towards zero; a division whose divisor is
      zero is reported as a fault instead of producing a value.  This is used
      for the percentages, their signs and their order.  The number of cells
      [draw_bar] fills depends on the last bit of a [double], so [draw_bar]
      has a second embedding, [Binary64.draw_bar], which computes line 157 in
      IEEE 754 binary64; how many cells a fraction fills is stated of it.
    - [std::map<int, unsigned long long>] is a [gmap Z Z].
    - The operating system is a record of oracles ([/proc] contents, clock,
      keyboard, result of [kill]); ncurses is a record of mode flags and a log
      of the output events. *)

From Stdlib Require Import ZArith QArith Qround Lqa Lia.
From Stdlib Require Import Ascii String List DecimalString DecimalN.
From Stdlib Require Import Sorting.Permutation Sorting.Sorted.
From Stdlib Require PrimFloat FloatOps SpecFloat Uint63.
From stdpp Require Import gmap strings list fin_maps.

Open Scope Z_scope.

(** ** Machine integers *)

Module CInt.

Definition ULLONG_MOD : Z := 2 ^ 64.
Definition ULLONG_MAX : Z := 2 ^ 64 - 1.
Definition LONG_MAX : Z := 2 ^ 63 - 1.
Definition LONG_MIN : Z := - 2 ^ 63.
Definition INT_MAX : Z := 2 ^ 31 - 1.
Definition INT_MIN : Z := - 2 ^ 31.

(** Arithmetic on [unsigned long long] is arithmetic modulo 2^64. *)
Definition wrap64 (z : Z) : Z := z mod ULLONG_MOD.

Definition is_ull (z : Z) : Prop := 0 <= z < ULLONG_MOD.
Definition is_int (z : Z) : Prop := INT_MIN <= z <= INT_MAX.

(** A conversion of a [long] to [int], as [atoi] does after [strtol]. *)
Definition wrap_int (z : Z) : Z := (z + 2 ^ 31) mod 2 ^ 32 - 2 ^ 31.

End CInt.

Import CInt.

(** ** Outcomes

    A call either returns, or leaves the normal control flow.  [std::stoull]
    throws; nothing in the program catches, so an exception ends the run.
    The two remaining faults are not C++ exceptions: they mark a step whose
    result lies outside the model (a [double] division by zero, whose binary64
    result is an infinity or a NaN) or outside the language (a conversion or
    a signed operation whose result is not representable). *)

Inductive fault : Type :=
  | invalid_argument
  | out_of_range
  | division_by_zero
  | undefined_behaviour.

Inductive outcome (A : Type) : Type :=
  | Ok (a : A)
  | Raise (e : fault).

Arguments Ok {A} a.
Arguments Raise {A} e.

#[global] Instance outcome_ret : MRet outcome := fun A a => Ok a.

#[global] Instance outcome_bind : MBind outcome := fun A B k m =>
  match m with
  | Ok a => k a
  | Raise e => Raise e
  end.

Definition returns {A : Type} (m : outcome A) : Prop := exists a, m = Ok a.

(** ** [double] as exact rationals *)

Module Double.

Definition ltb (x y : Q) : bool := (Qnum x * QDen y <? Qnum y * QDen x)%Z.
Definition leb (x y : Q) : bool := Qle_bool x y.
Definition eqb (x y : Q) : bool := Qeq_bool x y.

(** [x / y] on doubles; a zero divisor is reported, not computed with. *)
Definition div (x y : Q) : outcome Q :=
  if eqb y 0 then Raise division_by_zero else Ok (x / y)%Q.

(** [(double)n] for an integer [n]. *)
Definition of_int (n : Z) : Q := inject_Z n.

(** Truncation towards zero, the value of [(int)x] when it is representable. *)
Definition trunc (x : Q) : Z := Z.quot (Qnum x) (QDen x).

(** [(int)x]: undefined when the truncated value does not fit an [int]. *)
Definition to_int (x : Q) : outcome Z :=
  let z := trunc x in
  if (INT_MIN <=? z) && (z <=? INT_MAX) then Ok z else Raise undefined_behaviour.

Definition min (x y : Q) : Q := if ltb y x then y else x.

End Double.

(** ** C strings, [strtol]/[strtoull] and stream extraction *)

Module CString.

Definition code (c : ascii) : Z := Z.of_N (N_of_ascii c).

(** [isspace] and [isdigit] in the C locale. *)
Definition isspace (c : ascii) : bool :=
  (code c =? 32) || ((9 <=? code c) && (code c <=? 13)).
Definition isdigit (c : ascii) : bool :=
  (48 <=? code c) && (code c <=? 57).
Definition digit_val (c : ascii) : Z := code c - 48.

Fixpoint skip_ws (s : string) : string :=
  match s with
  | String c s' => if isspace c then skip_ws s' else s
  | EmptyString => EmptyString
  end.

Fixpoint take_digits (s : string) : string * string :=
  match s with
  | String c s' =>
      if isdigit c then let '(d, r) := take_digits s' in (String c d, r)
      else (EmptyString, s)
  | EmptyString => (EmptyString, EmptyString)
  end.

Fixpoint decimal_value (acc : Z) (digits : string) : Z :=
  match digits with
  | String c s' => decimal_value (acc * 10 + digit_val c) s'
  | EmptyString => acc
  end.

Definition take_sign (s : string) : bool * string :=
  match s with
  | String c s' =>
      if Ascii.eqb c "-" then (true, s')
      else if Ascii.eqb c "+" then (false, s')
      else (false, s)
  | EmptyString => (false, s)
  end.

(** The subject sequence of the [strto*] family in base 10: blanks, an
    optional sign, decimal digits.  [None] when there is no digit. *)
Definition scan_number (s : string) : option (bool * Z * string) :=
  let '(neg, s1) := take_sign (skip_ws s) in
  let '(d, r) := take_digits s1 in
  match d with
  | EmptyString => None
  | _ => Some (neg, decimal_value 0 d, r)
  end.

Inductive strto : Type :=
  | NoConversion
  | Converted (v : Z) (rest : string)
  | Range (v : Z) (rest : string).

Definition strtoull (s : string) : strto :=
  match scan_number s with
  | None => NoConversion
  | Some (neg, m, r) =>
      if m >? ULLONG_MAX then Range ULLONG_MAX r
      else Converted (if neg then wrap64 (- m) else m) r
  end.

Definition strtol (s : string) : strto :=
  match scan_number s with
  | None => NoConversion
  | Some (neg, m, r) =>
      if neg then (if m >? - LONG_MIN then Range LONG_MIN r else Converted (- m) r)
      else (if m >? LONG_MAX then Range LONG_MAX r else Converted m r)
  end.

(** [std::stoull(str)]: throws when nothing converts or the value overflows. *)
Definition stoull (s : string) : outcome Z :=
  match strtoull s with
  | NoConversion => Raise invalid_argument
  | Range _ _ => Raise out_of_range
  | Converted v _ => Ok v
  end.

(** [atoi(s)] is [(int) strtol(s, NULL, 10)]; the narrowing keeps the low
    32 bits, as the C library of the target does. *)
Definition atoi (s : string) : Z :=
  match strtol s with
  | NoConversion => 0
  | Converted v _ => wrap_int v
  | Range v _ => wrap_int v
  end.

(** [is_digits]: non-empty and every character a decimal digit. *)
Fixpoint all_digits (s : string) : bool :=
  match s with
  | String c s' => isdigit c && all_digits s'
  | EmptyString => true
  end.

Definition is_digits (s : string) : bool :=
  match s with
  | EmptyString => false
  | _ => all_digits s
  end.

(** One formatted extraction [is >> x].  [NotAttempted]: only blanks were
    left, the stream fails and [x] keeps its value.  [Failed v]: the stream
    fails and [v] is stored (0 when no digit was found, the nearest bound on
    overflow). *)
Inductive extraction (A : Type) : Type :=
  | Extracted (v : A) (rest : string)
  | Failed (v : A)
  | NotAttempted.

Arguments Extracted {A} v rest.
Arguments Failed {A} v.
Arguments NotAttempted {A}.

Definition at_eof (s : string) : bool :=
  match skip_ws s with
  | EmptyString => true
  | _ => false
  end.

Definition extract_long (s : string) : extraction Z :=
  if at_eof s then NotAttempted
  else match strtol s with
       | NoConversion => Failed 0
       | Range v _ => Failed v
       | Converted v r => Extracted v r
       end.

Definition extract_ull (s : string) : extraction Z :=
  if at_eof s then NotAttempted
  else match strtoull s with
       | NoConversion => Failed 0
       | Range v _ => Failed v
       | Converted v r => Extracted v r
       end.

Fixpoint take_word (s : string) : string * string :=
  match s with
  | String c s' =>
      if isspace c then (EmptyString, s)
      else let '(w, r) := take_word s' in (String c w, r)
  | EmptyString => (EmptyString, EmptyString)
  end.

(** [is >> str] for a [std::string]. *)
Definition extract_token (s : string) : extraction string :=
  if at_eof s then NotAttempted
  else let '(w, r) := take_word (skip_ws s) in Extracted w r.

(** [while (iss >> token) toks.push_back(token)]: the blank-separated words.
    [cur] is the word being read. *)
Fixpoint tokens_from (cur : option string) (s : string) : list string :=
  match s with
  | String c s' =>
      if isspace c then
        match cur with
        | Some w => w :: tokens_from None s'
        | None => tokens_from None s'
        end
      else
        tokens_from (Some (match cur with
                           | Some w => (w ++ String c EmptyString)%string
                           | None => String c EmptyString
                           end)) s'
  | EmptyString =>
      match cur with
      | Some w => [w]
      | None => []
      end
  end.

Definition tokens (s : string) : list string := tokens_from None s.

Definition newline : ascii := ascii_of_nat 10.

(** [std::getline]: fails on an exhausted stream, else yields the characters
    before the first newline and the stream after it. *)
Fixpoint split_line (s : string) : string * string :=
  match s with
  | String c s' =>
      if Ascii.eqb c newline then (EmptyString, s')
      else let '(l, r) := split_line s' in (String c l, r)
  | EmptyString => (EmptyString, EmptyString)
  end.

Definition getline (s : string) : option (string * string) :=
  match s with
  | EmptyString => None
  | _ => Some (split_line s)
  end.

(** All lines a [while (std::getline(f, line))] loop sees. *)
Fixpoint lines_from (cur : string) (s : string) : list string :=
  match s with
  | String c s' =>
      if Ascii.eqb c newline then cur :: lines_from EmptyString s'
      else lines_from (cur ++ String c EmptyString)%string s'
  | EmptyString =>
      match cur with
      | EmptyString => []
      | _ => [cur]
      end
  end.

Definition lines (s : string) : list string := lines_from EmptyString s.

(** [std::to_string(int)] *)
Definition to_string (z : Z) : string := NilZero.string_of_int (Z.to_int z).

End CString.

Import CString.

(** ** The process record *)

Record Proc : Type := mkProc {
  pid : Z;
  name : string;
  prev_time : Z;
  time : Z;
  rss_pages : Z;
  cpu_pct : Q;
  mem_pct : Q
}.

(** [Proc p;] with the member initialisers of the struct. *)
Definition Proc_default : Proc :=
  {| pid := 0; name := ""; prev_time := 0; time := 0; rss_pages := 0;
     cpu_pct := 0%Q; mem_pct := 0%Q |}.

Definition set_pid (v : Z) (p : Proc) : Proc :=
  {| pid := v; name := name p; prev_time := prev_time p; time := time p;
     rss_pages := rss_pages p; cpu_pct := cpu_pct p; mem_pct := mem_pct p |}.
Definition set_name (v : string) (p : Proc) : Proc :=
  {| pid := pid p; name := v; prev_time := prev_time p; time := time p;
     rss_pages := rss_pages p; cpu_pct := cpu_pct p; mem_pct := mem_pct p |}.
Definition set_time (v : Z) (p : Proc) : Proc :=
  {| pid := pid p; name := name p; prev_time := prev_time p; time := v;
     rss_pages := rss_pages p; cpu_pct := cpu_pct p; mem_pct := mem_pct p |}.
Definition set_rss_pages (v : Z) (p : Proc) : Proc :=
  {| pid := pid p; name := name p; prev_time := prev_time p; time := time p;
     rss_pages := v; cpu_pct := cpu_pct p; mem_pct := mem_pct p |}.
Definition set_cpu_pct (v : Q) (p : Proc) : Proc :=
  {| pid := pid p; name := name p; prev_time := prev_time p; time := time p;
     rss_pages := rss_pages p; cpu_pct := v; mem_pct := mem_pct p |}.
Definition set_mem_pct (v : Q) (p : Proc) : Proc :=
  {| pid := pid p; name := name p; prev_time := prev_time p; time := time p;
     rss_pages := rss_pages p; cpu_pct := cpu_pct p; mem_pct := v |}.

(** ** The host, as one iteration of the loop observes it *)

Record Host : Type := mkHost {
  (** contents of a file that can be opened, by path *)
  file : string -> option string;
  (** the names [readdir] returns for [/proc]; [None] when [opendir] fails *)
  proc_entries : option (list string);
  (** what [f >> up] reads from [/proc/uptime] *)
  uptime_seconds : Q;
  (** [steady_clock::now() - last_time], in seconds *)
  elapsed : Q;
  (** [getmaxyx] *)
  screen_rows : Z;
  screen_cols : Z;
  (** the key [getch] returns in the loop, [-1] when none is waiting *)
  key : Z;
  (** the line [getnstr] reads in the kill sub-flow *)
  typed_line : string;
  (** the key [getch] returns after the outcome of a kill is shown *)
  ack_key : Z;
  (** the value [kill(pid, SIGTERM)] returns (a signal that ends the
      monitor itself ends the run, and is not an observation of the loop) *)
  kill_result : Z -> Z
}.

(** ** The snapshot reader *)

Module SnapshotReader.

Section Reader.

Variable PAGE_SIZE : Z.
Variable h : Host.

Definition read_first_line (path : string) : string :=
  match file h path with
  | Some content =>
      match getline content with
      | Some (s, _) => s
      | None => EmptyString
      end
  | None => EmptyString
  end.

Definition string_empty (s : string) : bool :=
  match s with
  | EmptyString => true
  | _ => false
  end.

Definition proc_path (pid : Z) (leaf : string) : string :=
  ("/proc/" ++ to_string pid ++ leaf)%string.

(** The values [n] successive [iss >> x] leave in variables initialised to 0.
    [s = None] is a stream that has already failed. *)
Fixpoint extract_ull_fields (n : nat) (s : option string) : list Z :=
  match n with
  | O => []
  | S n' =>
      match s with
      | None => 0 :: extract_ull_fields n' None
      | Some str =>
          match extract_ull str with
          | Extracted v r => v :: extract_ull_fields n' (Some r)
          | Failed v => v :: extract_ull_fields n' None
          | NotAttempted => 0 :: extract_ull_fields n' None
          end
      end
  end.

Definition sum_ull (l : list Z) : Z :=
  fold_left (fun acc v => wrap64 (acc + v)) l 0.

Definition read_total_time_from_proc_stat : Z :=
  match file h "/proc/stat" with
  | None => 0
  | Some content =>
      match getline content with
      | None => 0
      | Some (line, _) =>
          let after_cpu :=
            match extract_token line with
            | Extracted _ r => Some r
            | _ => None
            end in
          sum_ull (extract_ull_fields 8 after_cpu)
      end
  end.

Definition get_uptime_seconds : Q := uptime_seconds h.

Record MemInfo : Type := mkMemInfo {
  total_mb : Q;
  free_mb : Q;
  avail_mb : Q
}.

(** [while (f >> key >> value >> unit)]: every round consumes characters, so
    the length of the contents bounds the number of rounds. *)
Fixpoint read_mem_info_loop (fuel : nat) (s : string) (m : MemInfo) : MemInfo :=
  match fuel with
  | O => m
  | S fuel' =>
      match extract_token s with
      | Extracted k r1 =>
          match extract_ull r1 with
          | Extracted value r2 =>
              match extract_token r2 with
              | Extracted _ r3 =>
                  let mb := (Double.of_int value / 1024)%Q in
                  let m' :=
                    if String.eqb k "MemTotal:" then
                      {| total_mb := mb; free_mb := free_mb m; avail_mb := avail_mb m |}
                    else if String.eqb k "MemFree:" then
                      {| total_mb := total_mb m; free_mb := mb; avail_mb := avail_mb m |}
                    else if String.eqb k "MemAvailable:" then
                      {| total_mb := total_mb m; free_mb := free_mb m; avail_mb := mb |}
                    else m in
                  read_mem_info_loop fuel' r3 m'
              | _ => m
              end
          | _ => m
          end
      | _ => m
      end
  end.

Definition read_mem_info : MemInfo :=
  let zero := {| total_mb := 0; free_mb := 0; avail_mb := 0 |}%Q in
  match file h "/proc/meminfo" with
  | None => zero
  | Some content => read_mem_info_loop (String.length content) content zero
  end.

(** [kb * 1024 / PAGE_SIZE] on [long]: defined when the product and the
    quotient fit and the divisor is not zero. *)
Definition long_mul_div (kb page : Z) : outcome Z :=
  let prod := kb * 1024 in
  if (LONG_MIN <=? prod) && (prod <=? LONG_MAX) && negb (page =? 0)
     && negb ((prod =? LONG_MIN) && (page =? -1))
  then Ok (Z.quot prod page)
  else Raise undefined_behaviour.

(** The [stat] block: [utime] and [stime] are words 14 and 15 of the line,
    read only when the line has at least 22 words. *)
Definition read_stat_time (pid : Z) (p : Proc) : outcome Proc :=
  let stat := read_first_line (proc_path pid "/stat") in
  if string_empty stat then Ok p
  else
    let toks := tokens stat in
    if (22 <=? Z.of_nat (List.length toks)) then
      utime ← stoull (nth 13 toks EmptyString);
      stime ← stoull (nth 14 toks EmptyString);
      let total_time := wrap64 (utime + stime) in
      Ok (set_time total_time p)
    else Ok p.

(** The [statm] block, with its fallback to the [VmRSS:] line of [status].
    In the fallback [long kb;] has no initialiser: when nothing follows the
    first word of the line, [kb] is read without ever being written. *)
Definition read_rss (pid : Z) (p : Proc) : outcome Proc :=
  let statm := read_first_line (proc_path pid "/statm") in
  if string_empty statm then
    let status_lines :=
      match file h (proc_path pid "/status") with
      | Some content => lines content
      | None => []
      end in
    match List.find (String.prefix "VmRSS:") status_lines with
    | Some line =>
        match extract_token line with
        | Extracted _ r =>
            match extract_long r with
            | Extracted kb _ => v ← long_mul_div kb PAGE_SIZE; Ok (set_rss_pages v p)
            | Failed kb => v ← long_mul_div kb PAGE_SIZE; Ok (set_rss_pages v p)
            | NotAttempted => Raise undefined_behaviour
            end
        | _ => Raise undefined_behaviour
        end
    | None => Ok p
    end
  else
    let rss :=
      match extract_long statm with
      | Extracted _ r =>
          match extract_long r with
          | Extracted v _ => v
          | Failed v => v
          | NotAttempted => 0
          end
      | _ => 0
      end in
    Ok (set_rss_pages rss p).

Definition read_process_basic (pid : Z) : outcome Proc :=
  let p := set_pid pid Proc_default in
  let p := set_name (read_first_line (proc_path pid "/comm")) p in
  p ← read_stat_time pid p;
  read_rss pid p.

(** The [readdir] loop. *)
Fixpoint read_entries (entries : list string) : outcome (list Proc) :=
  match entries with
  | [] => Ok []
  | d_name :: rest =>
      if is_digits d_name then
        p ← read_process_basic (atoi d_name);
        procs ← read_entries rest;
        Ok (p :: procs)
      else read_entries rest
  end.

Definition get_all_processes : outcome (list Proc) :=
  match proc_entries h with
  | None => Ok []
  | Some entries => read_entries entries
  end.

End Reader.

End SnapshotReader.

(** ** The delta engine (the [for (auto &p : procs)] loop of [main]) *)

Module DeltaEngine.

(** [prev_proc_time.count(p.pid) ? prev_proc_time[p.pid] : p.time] *)
Definition prior (prev_proc_time : gmap Z Z) (p : Proc) : Z :=
  match prev_proc_time !! pid p with
  | Some t0 => t0
  | None => time p
  end.

(** [(p.time > prev) ? (p.time - prev) : 0ULL] *)
Definition delta_ticks (t1 prev : Z) : Z :=
  if prev <? t1 then wrap64 (t1 - prev) else 0.

Definition proc_delta (prev_proc_time : gmap Z Z) (p : Proc) : Z :=
  delta_ticks (time p) (prior prev_proc_time p).

(** [if (interval <= 0.0) interval = 1.0; // fallback] *)
Definition fallback_interval (interval : Q) : Q :=
  if Double.leb interval 0 then 1%Q else interval.

Section Engine.

Variable CLK_TCK : Z.
Variable PAGE_SIZE : Z.

(** [proc_seconds = (double)delta / (double)CLK_TCK;]
    [(interval > 0.0) ? (proc_seconds / interval) * 100.0 : 0.0] *)
Definition compute_cpu_pct (interval : Q) (delta : Z) : outcome Q :=
  proc_seconds ← Double.div (Double.of_int delta) (Double.of_int CLK_TCK);
  if Double.ltb 0 interval then
    q ← Double.div proc_seconds interval;
    Ok (q * 100)%Q
  else Ok 0%Q.

(** [rss_bytes = (double)p.rss_pages * (double)PAGE_SIZE;]
    [rss_mb = rss_bytes / (1024.0 * 1024.0);]
    [(mem_total_mb > 0.0) ? (rss_mb / mem_total_mb) * 100.0 : 0.0] *)
Definition compute_mem_pct (mem_total_mb : Q) (rss_pages : Z) : outcome Q :=
  let rss_bytes := (Double.of_int rss_pages * Double.of_int PAGE_SIZE)%Q in
  rss_mb ← Double.div rss_bytes (1024 * 1024)%Q;
  if Double.ltb 0 mem_total_mb then
    q ← Double.div rss_mb mem_total_mb;
    Ok (q * 100)%Q
  else Ok 0%Q.

(** The body of the loop for one process: the updated record and map. *)
Definition update_proc (interval mem_total_mb : Q) (prev_proc_time : gmap Z Z)
    (p : Proc) : outcome (Proc * gmap Z Z) :=
  let delta := proc_delta prev_proc_time p in
  cpu ← compute_cpu_pct interval delta;
  let prev_proc_time' := <[pid p := time p]> prev_proc_time in
  mem ← compute_mem_pct mem_total_mb (rss_pages p);
  Ok (set_mem_pct mem (set_cpu_pct cpu p), prev_proc_time').

Fixpoint update_all (interval mem_total_mb : Q) (prev_proc_time : gmap Z Z)
    (procs : list Proc) : outcome (list Proc * gmap Z Z) :=
  match procs with
  | [] => Ok ([], prev_proc_time)
  | p :: rest =>
      '(p', m1) ← update_proc interval mem_total_mb prev_proc_time p;
      '(rest', m2) ← update_all interval mem_total_mb m1 rest;
      Ok (p' :: rest', m2)
  end.

End Engine.

End DeltaEngine.

(** ** The aggregator: orderings, [std::sort], the CPU indicator *)

Module Aggregator.

(** The three lambdas handed to [std::sort]. *)
Definition by_cpu_desc (a b : Proc) : bool :=
  if Double.eqb (cpu_pct a) (cpu_pct b) then pid a <? pid b
  else Double.ltb (cpu_pct b) (cpu_pct a).

Definition by_mem_desc (a b : Proc) : bool :=
  if Double.eqb (mem_pct a) (mem_pct b) then pid a <? pid b
  else Double.ltb (mem_pct b) (mem_pct a).

Definition by_pid_asc (a b : Proc) : bool := pid a <? pid b.

Definition comparator (sort_mode : Z) : Proc -> Proc -> bool :=
  if sort_mode =? 0 then by_cpu_desc
  else if sort_mode =? 1 then by_mem_desc
  else by_pid_asc.

Section Sort.

Context {A : Type}.
Variable comp : A -> A -> bool.

(** What the C++ standard promises of [std::sort(first, last, comp)]: the
    range holds the same elements, and no later element precedes an earlier
    one under [comp]. *)
Definition sorted_by (l : list A) : Prop :=
  forall (i j : nat) (a b : A),
    (i < j)%nat -> l !! i = Some a -> l !! j = Some b -> comp b a = false.

Definition std_sort_post (input output : list A) : Prop :=
  Permutation input output /\ sorted_by output.

(** [std::sort] itself is library code; where the embedding has to run it, an
    insertion sort stands for it: one of the results the contract admits. *)
Fixpoint insert_by (x : A) (l : list A) : list A :=
  match l with
  | [] => [x]
  | y :: l' => if comp x y then x :: y :: l' else y :: insert_by x l'
  end.

Definition std_sort (l : list A) : list A := foldr insert_by [] l.

End Sort.

(** [for (auto &p : procs) sum_proc_cpu += p.cpu_pct;] *)
Definition sum_proc_cpu (procs : list Proc) : Q :=
  fold_left (fun acc p => (acc + cpu_pct p)%Q) procs 0%Q.

(** The value shown as "CPU (sum processes)". *)
Definition cpu_indicator (total_time_delta : Z) (procs : list Proc) : Q :=
  if 0 <? total_time_delta then sum_proc_cpu procs else 0%Q.

End Aggregator.

(** ** The renderer *)

Module Renderer.

Inductive glyph : Type := ACS_CKBOARD | blank.

(** What the [mvprintw] calls of the program print, by call site. *)
Inductive text : Type :=
  | Title
  | SortLabel (sort_mode : Z)
  | Summary (uptime cpu_pct mem_total_mb mem_avail_mb : Q)
  | CpuBarLabel
  | MemBarLabel
  | MemUsage (used_mem_mb mem_total_mb percent : Q)
  | TableHeader
  | Row (pid : Z) (name : string) (cpu_pct mem_pct : Q)
  | Commands
  | EnterCommand
  | EnterPid
  | SentSigterm (pid : Z)
  | FailedToKill (pid : Z).

(** The observable actions of the program, in the order it performs them. *)
Inductive Event : Type :=
  | clear
  | mvprintw (y x : Z) (t : text)
  | mvaddch (y x : Z) (g : glyph)
  | refresh
  | getnstr (s : string)
  | getch (k : Z)
  | kill (pid sig : Z)
  | sleep_for (ms : Z).

(** [draw_bar] for a fraction followed in exact arithmetic: the cells it
    writes, left to right.  This is the bar inside a frame; how many of its
    cells are filled is stated of [Binary64.draw_bar] below. *)
Definition draw_bar (y x width : Z) (fraction : Q) : outcome (list Event) :=
  filled ← Double.to_int (fraction * Double.of_int width + (1 # 2))%Q;
  Ok (map (fun i => mvaddch y (x + i) (if i <? filled then ACS_CKBOARD else blank))
          (seqZ 0 width)).

Definition is_filled (e : Event) : bool :=
  match e with
  | mvaddch _ _ ACS_CKBOARD => true
  | _ => false
  end.

(** The number of filled cells among the drawn ones. *)
Definition filled_cells (cells : list Event) : Z :=
  Z.of_nat (List.length (List.filter is_filled cells)).

(** The name column: a blank name shows as [[pid]], a long one is cut. *)
Definition display_name (p : Proc) : string :=
  let name0 :=
    match name p with
    | EmptyString => ("[" ++ to_string (pid p) ++ "]")%string
    | n => n
    end in
  if 20 <? Z.of_nat (String.length name0)
  then (String.substring 0 17 name0 ++ "...")%string
  else name0.

(** The table loop: rows [row], [row + 1], ... for the first [max_rows]. *)
Fixpoint draw_rows (row : Z) (max_rows : nat) (procs : list Proc) : list Event :=
  match max_rows, procs with
  | S n, p :: rest =>
      mvprintw row 0 (Row (pid p) (display_name p) (cpu_pct p) (mem_pct p))
      :: draw_rows (row + 1) n rest
  | _, _ => []
  end.

End Renderer.

Import Renderer.

(** ** [draw_bar] in binary64

    The percentages above are followed in exact arithmetic.  The number of
    cells [draw_bar] fills is the one place where the program turns a
    [double] into an integer, so there the arithmetic of line 157 is
    followed as the machine does it: IEEE 754 binary64, round to nearest. *)

Module Binary64.

Definition double : Set := PrimFloat.float.

(** [(double)n] for an [int] [n]: exact, an [int] has fewer than 53 bits. *)
Definition of_int (n : Z) : double :=
  if n <? 0 then PrimFloat.opp (PrimFloat.of_uint63 (Uint63.of_Z (- n)))
  else PrimFloat.of_uint63 (Uint63.of_Z n).

(** The literal [0.5]. *)
Definition half : double :=
  FloatOps.SF2Prim (SpecFloat.S754_finite false 1 (-1)).

(** The rational a finite double stands for. *)
Definition value (x : double) : option Q :=
  match FloatOps.Prim2SF x with
  | SpecFloat.S754_zero _ => Some 0%Q
  | SpecFloat.S754_finite s m e =>
      let mag := (inject_Z (Z.pos m) * 2 ^ e)%Q in
      Some (if s then (- mag)%Q else mag)
  | _ => None
  end.

(** Truncation towards zero of a finite double. *)
Definition trunc (x : double) : option Z :=
  match FloatOps.Prim2SF x with
  | SpecFloat.S754_zero _ => Some 0
  | SpecFloat.S754_finite s m e =>
      let mag := if 0 <=? e then Z.pos m * 2 ^ e else Z.pos m / 2 ^ (- e) in
      Some (if s then - mag else mag)
  | _ => None
  end.

(** [(int)x]: undefined for a NaN, an infinity, and a value whose truncation
    does not fit an [int]. *)
Definition to_int (x : double) : outcome Z :=
  match trunc x with
  | Some z =>
      if (INT_MIN <=? z) && (z <=? INT_MAX) then Ok z else Raise undefined_behaviour
  | None => Raise undefined_behaviour
  end.

(** [int filled = (int)(fraction * width + 0.5);] *)
Definition filled (width : Z) (fraction : double) : outcome Z :=
  to_int (PrimFloat.add (PrimFloat.mul fraction (of_int width)) half).

(** [draw_bar]: the cells it writes, left to right. *)
Definition draw_bar (y x width : Z) (fraction : double) : outcome (list Event) :=
  n ← filled width fraction;
  Ok (map (fun i => mvaddch y (x + i) (if i <? n then ACS_CKBOARD else blank))
          (seqZ 0 width)).

End Binary64.

(** ** The input controller *)

Module InputController.

(** The ncurses modes the program switches. *)
Record Terminal : Type := mkTerminal {
  nodelay_on : bool;
  echo_on : bool;
  cursor : Z
}.

Definition nodelay (b : bool) (t : Terminal) : Terminal :=
  {| nodelay_on := b; echo_on := echo_on t; cursor := cursor t |}.
Definition echo (t : Terminal) : Terminal :=
  {| nodelay_on := nodelay_on t; echo_on := true; cursor := cursor t |}.
Definition noecho (t : Terminal) : Terminal :=
  {| nodelay_on := nodelay_on t; echo_on := false; cursor := cursor t |}.
Definition curs_set (v : Z) (t : Terminal) : Terminal :=
  {| nodelay_on := nodelay_on t; echo_on := echo_on t; cursor := v |}.

(** The modes [main] sets up before the loop:
    [noecho(); nodelay(stdscr, TRUE); curs_set(0);] *)
Definition monitor_mode : Terminal :=
  {| nodelay_on := true; echo_on := false; cursor := 0 |}.

Definition SIGTERM : Z := 15.

(** [getnstr(buf, sizeof(buf)-1)] keeps at most 31 characters. *)
Definition read_buf (h : Host) : string := String.substring 0 31 (typed_line h).

(** The branch [ch == 'k' || ch == 'K']. *)
Definition kill_subflow (h : Host) (rows : Z) (t : Terminal)
    : Terminal * list Event :=
  let t := nodelay false t in
  let t := echo t in
  let t := curs_set 1 t in
  let buf := read_buf h in
  let okpid := atoi buf in
  let prompt := [mvprintw (rows - 1) 0 EnterPid; getnstr buf] in
  let action :=
    if 0 <? okpid then
      let res := kill_result h okpid in
      [kill okpid SIGTERM;
       mvprintw (rows - 1) 0 (if res =? 0 then SentSigterm okpid else FailedToKill okpid);
       refresh;
       getch (ack_key h)]
    else [] in
  let t := noecho t in
  let t := curs_set 0 t in
  let t := nodelay true t in
  (t, prompt ++ action).

End InputController.

Import InputController.

(** ** The loop of [main] *)

Module Main.

Record LoopState : Type := mkLoopState {
  prev_proc_time : gmap Z Z;
  prev_total_time : Z;
  sort_mode : Z;
  term : Terminal
}.

Inductive control : Type := next_iteration | break.

Definition key_is (ch : Z) (lower upper : ascii) : bool :=
  (ch =? code lower) || (ch =? code upper).

(** The [if]/[else if] chain on the key, and the sleep that ends the body. *)
Definition handle_key (h : Host) (rows : Z) (st : LoopState)
    : LoopState * list Event * control :=
  let ch := key h in
  if key_is ch "q" "Q" then (st, [getch ch], break)
  else if key_is ch "s" "S" then
    ({| prev_proc_time := prev_proc_time st;
        prev_total_time := prev_total_time st;
        sort_mode := Z.rem (sort_mode st + 1) 3;
        term := term st |},
     [getch ch; sleep_for 800], next_iteration)
  else if key_is ch "k" "K" then
    let '(t, evs) := kill_subflow h rows (term st) in
    ({| prev_proc_time := prev_proc_time st;
        prev_total_time := prev_total_time st;
        sort_mode := sort_mode st;
        term := t |},
     getch ch :: evs ++ [sleep_for 800], next_iteration)
  else (st, [getch ch; sleep_for 200; sleep_for 800], next_iteration).

Section Program.

Variable CLK_TCK : Z.
Variable PAGE_SIZE : Z.

Record Sample : Type := mkSample {
  interval : Q;
  total_time_delta : Z;
  meminfo : SnapshotReader.MemInfo;
  procs : list Proc;
  prev_proc_time' : gmap Z Z
}.

(** From the top of the body to the end of the per-process loop. *)
Definition sample (h : Host) (st : LoopState) : outcome Sample :=
  let interval := DeltaEngine.fallback_interval (elapsed h) in
  let total_time := SnapshotReader.read_total_time_from_proc_stat h in
  let total_time_delta :=
    if prev_total_time st <? total_time
    then wrap64 (total_time - prev_total_time st) else 0 in
  let mem := SnapshotReader.read_mem_info h in
  procs ← SnapshotReader.get_all_processes PAGE_SIZE h;
  '(procs, m) ← DeltaEngine.update_all CLK_TCK PAGE_SIZE interval
                  (SnapshotReader.total_mb mem) (prev_proc_time st) procs;
  Ok {| interval := interval; total_time_delta := total_time_delta;
        meminfo := mem; procs := procs; prev_proc_time' := m |}.

(** From [clear()] to [refresh()]: the frame, for the sorted processes. *)
Definition draw_frame (h : Host) (sort_mode : Z) (s : Sample)
    (sorted : list Proc) : outcome (list Event) :=
  let rows := screen_rows h in
  let cols := screen_cols h in
  let mem_total_mb := SnapshotReader.total_mb (meminfo s) in
  let mem_avail_mb := SnapshotReader.avail_mb (meminfo s) in
  let cpu_pct := Aggregator.cpu_indicator (total_time_delta s) sorted in
  let bar_y := 3 in
  let bar_w := Z.max 20 (Z.quot cols 3) in
  let cpu_fraction := Double.min 1 (cpu_pct / 100)%Q in
  cpu_bar ← draw_bar bar_y 24 bar_w cpu_fraction;
  let used_mem_mb := (mem_total_mb - mem_avail_mb)%Q in
  mem_fraction ←
    (if Double.ltb 0 mem_total_mb then Double.div used_mem_mb mem_total_mb
     else Ok 0%Q);
  mem_bar ← draw_bar (bar_y + 1) 24 bar_w mem_fraction;
  let row := bar_y + 3 in
  let max_rows := rows - (row + 1) - 2 in
  let max_rows := if max_rows <? 1 then 1 else max_rows in
  Ok ([clear;
       mvprintw 0 0 Title;
       mvprintw 1 0 (SortLabel sort_mode);
       mvprintw 2 0 (Summary (SnapshotReader.get_uptime_seconds h) cpu_pct
                       mem_total_mb mem_avail_mb);
       mvprintw bar_y 0 CpuBarLabel]
      ++ cpu_bar
      ++ [mvprintw (bar_y + 1) 0 MemBarLabel]
      ++ mem_bar
      ++ [mvprintw (bar_y + 1) (24 + bar_w + 2)
            (MemUsage used_mem_mb mem_total_mb (mem_fraction * 100)%Q);
          mvprintw row 0 TableHeader]
      ++ draw_rows (row + 1) (Z.to_nat max_rows) sorted
      ++ [mvprintw (rows - 2) 0 Commands;
          mvprintw (rows - 1) 0 EnterCommand;
          refresh]).

Record Step : Type := mkStep {
  (** the processes of this iteration, in display order *)
  snapshot : list Proc;
  (** everything the iteration did to the terminal and to other processes *)
  events : list Event;
  state_after : LoopState;
  ctl : control
}.

(** One pass through the body of [while (true)]. *)
Definition iteration (h : Host) (st : LoopState) : outcome Step :=
  s ← sample h st;
  let total_time := SnapshotReader.read_total_time_from_proc_stat h in
  let sorted := Aggregator.std_sort (Aggregator.comparator (sort_mode st)) (procs s) in
  frame ← draw_frame h (sort_mode st) s sorted;
  let st1 := {| prev_proc_time := prev_proc_time' s;
                prev_total_time := total_time;
                sort_mode := sort_mode st;
                term := term st |} in
  let '(st2, evs, c) := handle_key h (screen_rows h) st1 in
  Ok {| snapshot := sorted; events := frame ++ evs; state_after := st2; ctl := c |}.

(** The state [main] enters the loop with. *)
Definition initial_state (h : Host) : LoopState :=
  {| prev_proc_time := ∅;
     prev_total_time := SnapshotReader.read_total_time_from_proc_stat h;
     sort_mode := 0;
     term := monitor_mode |}.

(** The iterations the loop completes, one host observation per iteration;
    the run ends on [break], on an exception, or with the observations. *)
Fixpoint run (hosts : list Host) (st : LoopState) : list Step :=
  match hosts with
  | [] => []
  | h :: rest =>
      match iteration h st with
      | Ok step =>
          match ctl step with
          | next_iteration => step :: run rest (state_after step)
          | break => [step]
          end
      | Raise _ => []
      end
  end.

End Program.

End Main.

(** ** The words of the specification

    Definitions that follow the specification's text, for comparison with
    the code above. *)

Module Spec.

(** clamp(f, lo, hi) *)
Definition clamp (f lo hi : Q) : Q :=
  if Double.ltb f lo then lo else if Double.ltb hi f then hi else f.

(** round(x): the nearest integer, halves away from zero (C++ [std::round]). *)
Definition round (x : Q) : Z :=
  if Double.ltb x 0 then - Qfloor (- x + (1 # 2)) else Qfloor (x + (1 # 2)).

(** resident_bytes and mem_total_bytes of the memory percentage. *)
Definition resident_bytes (PAGE_SIZE rss_pages : Z) : Q :=
  inject_Z (rss_pages * PAGE_SIZE).

Definition mem_total_bytes (mem_total_mb : Q) : Q :=
  (mem_total_mb * 1024 * 1024)%Q.

(** "If the measured interval is non-positive or unreasonably small, the
    fallback constant 1.0 second is substituted", read at an interval that is
    small by any standard a loop sleeping 800 ms can have. *)
Definition one_nanosecond : Q := 1 # 1000000000.

Definition small_interval_replaced (interval : Q) : Prop :=
  (DeltaEngine.fallback_interval interval == 1)%Q.

(** An input line is non-numeric when, after blanks and an optional sign, it
    does not start with a decimal digit. *)
Definition non_numeric (s : string) : Prop :=
  match snd (take_sign (skip_ws s)) with
  | String c _ => isdigit c = false
  | EmptyString => True
  end.

(** The value printed as "CPU (sum processes)" in a frame. *)
Fixpoint displayed_indicator (evs : list Event) : option Q :=
  match evs with
  | mvprintw _ _ (Summary _ c _ _) :: _ => Some c
  | _ :: rest => displayed_indicator rest
  | [] => None
  end.

(** "The displayed aggregate CPU indicator equals the sum of cpu_pct over
    all processes in the current snapshot", for one iteration. *)
Definition indicator_is_sum (CLK_TCK PAGE_SIZE : Z) (h : Host)
    (st : Main.LoopState) : Prop :=
  forall step, Main.iteration CLK_TCK PAGE_SIZE h st = Ok step ->
    exists c, displayed_indicator (Main.events step) = Some c /\
              (c == Aggregator.sum_proc_cpu (Main.snapshot step))%Q.


End Spec.

(** ** Well-formed text

    The shape of the text the readers are written for: decimal numbers,
    blank-separated words. *)

Module Format.

(** Only blanks. *)
Fixpoint all_space (s : string) : bool :=
  match s with
  | String c s' => isspace c && all_space s'
  | EmptyString => true
  end.

(** No blank. *)
Fixpoint no_space (s : string) : bool :=
  match s with
  | String c s' => negb (isspace c) && no_space s'
  | EmptyString => true
  end.

(** A word: at least one character, no blank. *)
Definition is_word (w : string) : bool :=
  match w with
  | EmptyString => false
  | _ => no_space w
  end.

(** Nothing, or something that does not go on with a digit. *)
Definition ends_number (s : string) : Prop :=
  match s with
  | String c _ => isdigit c = false
  | EmptyString => True
  end.

(** Nothing, or something that goes on with a blank. *)
Definition ends_word (s : string) : Prop :=
  match s with
  | String c _ => isspace c = true
  | EmptyString => True
  end.

(** The value of a string of decimal digits. *)
Definition value (digits : string) : Z := decimal_value 0 digits.

(** A numeral as it is printed: no leading zero, except zero itself. *)
Definition canonical (ds : string) : bool :=
  match ds with
  | String c rest =>
      negb (Ascii.eqb c "0")
      || match rest with EmptyString => true | _ => false end
  | EmptyString => false
  end.

(** Text within one line. *)
Fixpoint no_newline (s : string) : bool :=
  match s with
  | String c s' => negb (Ascii.eqb c newline) && no_newline s'
  | EmptyString => true
  end.

(** Words joined by single spaces. *)
Fixpoint unwords (ws : list string) : string :=
  match ws with
  | [] => EmptyString
  | [w] => w
  | w :: rest => (w ++ " " ++ unwords rest)%string
  end.

(** Numbers, each after its blanks: what follows the first word of the
    first line of [/proc/stat]. *)
Fixpoint fields (bds : list (string * string)) : string :=
  match bds with
  | [] => EmptyString
  | (b, d) :: rest => (b ++ d ++ fields rest)%string
  end.

Definition is_field (bd : string * string) : Prop :=
  all_space (fst bd) = true /\ fst bd <> EmptyString /\
  is_digits (snd bd) = true /\ value (snd bd) <= ULLONG_MAX.

Definition total (l : list Z) : Z := fold_right Z.add 0 l.

(** One line of [/proc/meminfo]: the key, blanks, the amount, a space, the
    unit.  The amount is below 2^53, where [(double)value] is the value
    itself and the division by 1024.0 is exact. *)
Record meminfo_entry : Type := mkEntry {
  entry_key : string;
  entry_pad : string;
  entry_amount : string;
  entry_unit : string
}.

Definition is_entry (e : meminfo_entry) : Prop :=
  is_word (entry_key e) = true /\
  all_space (entry_pad e) = true /\ entry_pad e <> EmptyString /\
  is_digits (entry_amount e) = true /\ value (entry_amount e) < 2 ^ 53 /\
  is_word (entry_unit e) = true.

Fixpoint meminfo_text (es : list meminfo_entry) : string :=
  match es with
  | [] => EmptyString
  | e :: rest =>
      (entry_key e ++ entry_pad e ++ entry_amount e ++ " " ++ entry_unit e
       ++ String newline (meminfo_text rest))%string
  end.

(** The amount of the last entry with the given key. *)
Definition last_amount (key : string) (es : list meminfo_entry) : option Z :=
  fold_left (fun acc e =>
               if String.eqb (entry_key e) key then Some (value (entry_amount e))
               else acc) es None.

(** Kilobytes as the megabytes the program shows. *)
Definition megabytes (kb : option Z) : Q :=
  match kb with
  | Some v => (inject_Z v / 1024)%Q
  | None => 0%Q
  end.

End Format.

(** ** Concrete hosts

    Small [/proc] trees on which the definitions above are run. *)

Module Scenario.

Definition nl : string := String newline EmptyString.

(** A [/proc/<pid>/stat] line: 22 words, [utime] and [stime] in 14 and 15. *)
Definition stat_line (pid : Z) (comm utime stime : string) : string :=
  (to_string pid ++ " (" ++ comm ++ ") R 1 1 1 0 -1 4194304 100 0 0 0 "
   ++ utime ++ " " ++ stime ++ " 0 0 20 0 1 0 12345" ++ nl)%string.

Definition lookup_file (fs : list (string * string)) (path : string)
    : option string :=
  match List.find (fun e => String.eqb (fst e) path) fs with
  | Some e => Some (snd e)
  | None => None
  end.

Definition meminfo_1000mb : string :=
  ("MemTotal:       1024000 kB" ++ nl ++ "MemFree:          204800 kB" ++ nl
   ++ "MemAvailable:    512000 kB" ++ nl)%string.

(** Two processes: 42 ([cat], 25600 resident pages) and 7 (no readable
    [comm], [stat] or [statm]; a [status] with a [VmRSS:] line). *)
Definition files (cpu_line utime stime : string) : list (string * string) :=
  [ ("/proc/stat", cpu_line);
    ("/proc/meminfo", meminfo_1000mb);
    ("/proc/42/comm", "cat" ++ nl);
    ("/proc/42/stat", stat_line 42 "cat" utime stime);
    ("/proc/42/statm", "1000 25600 30 1 0 50 0" ++ nl);
    ("/proc/7/status", "Name:   init" ++ nl ++ "VmRSS:     2048 kB" ++ nl) ]%string.

Definition host (fs : list (string * string)) (entries : list string)
    (dt : Q) (k : Z) (line : string) : Host :=
  {| file := lookup_file fs;
     proc_entries := Some entries;
     uptime_seconds := 5000;
     elapsed := dt;
     screen_rows := 24;
     screen_cols := 80;
     key := k;
     typed_line := line;
     ack_key := 32;
     kill_result := fun p => if p =? 42 then 0 else -1 |}.

Definition entries : list string := ["."; ".."; "42"; "self"; "7"; "uptime"]%string.

Definition no_key : Z := -1.

(** First and second observation of a normal session: pid 42 goes from 100
    to 150 ticks in one second. *)
Definition host_A : Host :=
  host (files ("cpu  10 20 30 40 50 60 70 80 0 0" ++ nl) "60" "40")
       entries 1 no_key "".
Definition host_B : Host :=
  host (files ("cpu  20 30 40 50 60 70 80 90 0 0" ++ nl) "100" "50")
       entries 1 no_key "".

(** A later observation where pid 7 is gone and pid 9 is new; the operator
    presses [k] and types [42]. *)
Definition host_C : Host :=
  host (files ("cpu  30 40 50 60 70 80 90 100 0 0" ++ nl) "120" "50")
       ["42"; "9"]%string (1 # 1024) (code "k") "42".

(** The first observation again, with the key [s] waiting. *)
Definition host_S : Host :=
  host (files ("cpu  10 20 30 40 50 60 70 80 0 0" ++ nl) "60" "40")
       entries 1 (code "s") "".

(** The second observation again, with the key [q] waiting. *)
Definition host_Q : Host :=
  host (files ("cpu  20 30 40 50 60 70 80 90 0 0" ++ nl) "100" "50")
       entries 1 (code "q") "".

(** The same second observation when [/proc/stat] cannot be read. *)
Definition host_B_no_proc_stat : Host :=
  host (List.tail (files "" "100" "50")) entries 1 no_key "".

(** The state left by an iteration that saw pid 42 at 100 ticks while
    [/proc/stat] could not be read. *)
Definition state_after_A_no_proc_stat : Main.LoopState :=
  {| Main.prev_proc_time := {[ 42 := 100 ]};
     Main.prev_total_time := 0;
     Main.sort_mode := 0;
     Main.term := monitor_mode |}.

(** A state whose map still has an entry for pid 9, a process now gone. *)
Definition state_with_9 : Main.LoopState :=
  {| Main.prev_proc_time := {[ 42 := 100; 9 := 5 ]};
     Main.prev_total_time := 360;
     Main.sort_mode := 0;
     Main.term := monitor_mode |}.

(** A [stat] record of 22 words whose word 14 is a lone sign. *)
Definition host_malformed_stat : Host :=
  host (files ("cpu  10 20 30 40 50 60 70 80 0 0" ++ nl) "-" "40")
       entries 1 no_key "".

Definition CLK_TCK : Z := 100.
Definition PAGE_SIZE : Z := 4096.



End Scenario.

(** ** Definitions used by the proofs *)

(** What the per-process loop does to the records and to the map. *)
Inductive updated (CLK_TCK PAGE_SIZE : Z) (interval mem_total_mb : Q)
    : gmap Z Z -> list Proc -> list Proc -> gmap Z Z -> Prop :=
  | updated_nil m : updated CLK_TCK PAGE_SIZE interval mem_total_mb m [] [] m
  | updated_cons m p cpu mem rest rest' m' :
      DeltaEngine.compute_cpu_pct CLK_TCK interval (DeltaEngine.proc_delta m p) = Ok cpu ->
      DeltaEngine.compute_mem_pct PAGE_SIZE mem_total_mb (rss_pages p) = Ok mem ->
      updated CLK_TCK PAGE_SIZE interval mem_total_mb (<[pid p := time p]> m) rest rest' m' ->
      updated CLK_TCK PAGE_SIZE interval mem_total_mb m (p :: rest)
        (set_mem_pct mem (set_cpu_pct cpu p) :: rest') m'.

(** The two descending orderings share their shape: a [double] key compared
    with [==] and [>], ties broken by pid. *)
Definition by_key_desc (key_of : Proc -> Q) (a b : Proc) : bool :=
  if Double.eqb (key_of a) (key_of b) then pid a <? pid b
  else Double.ltb (key_of b) (key_of a).

(** The state of the loop between two iterations, as the types and the
    set-up of [main] have it. *)
Definition state_ok (st : Main.LoopState) : Prop :=
  Main.term st = monitor_mode /\
  0 <= Main.sort_mode st <= 2 /\
  is_ull (Main.prev_total_time st) /\
  (forall q t, Main.prev_proc_time st !! q = Some t -> is_ull t).

(** The events that only draw. *)
Definition is_drawing (e : Event) : bool :=
  match e with
  | clear | mvprintw _ _ _ | mvaddch _ _ _ | refresh => true
  | _ => false
  end.

(** The milliseconds slept in a sequence of events. *)
Fixpoint total_sleep (evs : list Event) : Z :=
  match evs with
  | [] => 0
  | sleep_for ms :: rest => ms + total_sleep rest
  | _ :: rest => total_sleep rest
  end.

(** Under the ordering [comp], [a] may stand before [b]. *)
Definition may_precede {A : Type} (comp : A -> A -> bool) (a b : A) : Prop :=
  comp b a = false.

(** What one round of the loop of [read_mem_info] does to the three amounts
    when it has read the entry [e]. *)
Definition store_entry (e : Format.meminfo_entry) (m : SnapshotReader.MemInfo)
    : SnapshotReader.MemInfo :=
  let mb := (inject_Z (Format.value (Format.entry_amount e)) / 1024)%Q in
  {| SnapshotReader.total_mb :=
       if String.eqb (Format.entry_key e) "MemTotal:" then mb
       else SnapshotReader.total_mb m;
     SnapshotReader.free_mb :=
       if String.eqb (Format.entry_key e) "MemFree:" then mb
       else SnapshotReader.free_mb m;
     SnapshotReader.avail_mb :=
       if String.eqb (Format.entry_key e) "MemAvailable:" then mb
       else SnapshotReader.avail_mb m |}.

(** The three amounts of [/proc/meminfo] are not negative. *)
Definition meminfo_nonneg (m : SnapshotReader.MemInfo) : Prop :=
  (0 <= SnapshotReader.total_mb m)%Q /\ (0 <= SnapshotReader.free_mb m)%Q /\
  (0 <= SnapshotReader.avail_mb m)%Q.

(** The events that print a line of the process table. *)
Definition is_row (e : Event) : bool :=
  match e with
  | mvprintw _ _ (Row _ _ _ _) => true
  | _ => false
  end.

(** The line of the table for process [p], printed on screen row [y]. *)
Definition row_at (y : Z) (p : Proc) : Event :=
  mvprintw y 0 (Row (pid p) (display_name p) (cpu_pct p) (mem_pct p)).




(** What the snapshot reader reads of a process. *)
Definition as_read (p : Proc) : Z * string * Z * Z :=
  (pid p, name p, time p, rss_pages p).

(** * Theorems *)

(** ** The [double] model *)

Lemma ltb_lt (x y : Q) : Double.ltb x y = true <-> (x < y)%Q.
Proof. unfold Double.ltb, Qlt. apply Z.ltb_lt. Qed.

Lemma ltb_ge (x y : Q) : Double.ltb x y = false <-> (y <= x)%Q.
Proof. unfold Double.ltb, Qle. apply Z.ltb_ge. Qed.

Lemma leb_le (x y : Q) : Double.leb x y = true <-> (x <= y)%Q.
Proof. apply Qle_bool_iff. Qed.

Lemma leb_gt (x y : Q) : Double.leb x y = false <-> (y < x)%Q.
Proof.
  unfold Double.leb. split.
  - intros H. destruct (Qlt_le_dec y x) as [ | Hle ]; [ assumption | ].
    apply Qle_bool_iff in Hle. congruence.
  - intros H. destruct (Qle_bool x y) eqn:E; [ | reflexivity ].
    apply Qle_bool_iff in E. lra.
Qed.

Lemma eqb_eq (x y : Q) : Double.eqb x y = true <-> (x == y)%Q.
Proof. apply Qeq_bool_iff. Qed.

Lemma eqb_neq (x y : Q) : Double.eqb x y = false <-> ~ (x == y)%Q.
Proof.
  unfold Double.eqb. split.
  - intros H E. apply Qeq_bool_iff in E. congruence.
  - intros H. destruct (Qeq_bool x y) eqn:E; [ | reflexivity ].
    apply Qeq_bool_iff in E. contradiction.
Qed.

Lemma inject_Z_pos (z : Z) : 0 < z -> (0 < inject_Z z)%Q.
Proof. intros H. unfold Qlt. simpl. lia. Qed.

Lemma inject_Z_nonneg (z : Z) : 0 <= z -> (0 <= inject_Z z)%Q.
Proof. intros H. unfold Qle. simpl. lia. Qed.

Lemma div_nonzero (x y : Q) : ~ (y == 0)%Q -> Double.div x y = Ok (x / y)%Q.
Proof. intros H. unfold Double.div. apply eqb_neq in H. rewrite H. reflexivity. Qed.

Lemma trunc_nonneg (x : Q) : (0 <= x)%Q -> Double.trunc x = Qfloor x.
Proof.
  intros H. unfold Double.trunc, Qfloor. destruct x as [n d].
  unfold Qle in H. cbn in *. apply Z.quot_div_nonneg; lia.
Qed.

Lemma trunc_nonpos (x : Q) : (x <= 0)%Q -> Double.trunc x <= 0.
Proof.
  intros H. unfold Double.trunc. destruct x as [n d].
  unfold Qle in H. cbn in *.
  assert (Hn : n <= 0) by lia.
  replace n with (- (- n)) by lia. rewrite Z.quot_opp_l by lia.
  pose proof (Z.quot_pos (- n) (Z.pos d)). lia.
Qed.

Lemma Qfloor_bounds (x : Q) (k : Z) :
  (inject_Z k <= x)%Q -> (x < inject_Z k + 1)%Q -> Qfloor x = k.
Proof.
  intros Hlo Hhi.
  pose proof (Qfloor_le x) as H1. pose proof (Qlt_floor x) as H2.
  rewrite inject_Z_plus in H2. change (inject_Z 1) with 1%Q in H2.
  assert (Ha : (inject_Z (Qfloor x) < inject_Z (k + 1))%Q)
    by (rewrite inject_Z_plus; change (inject_Z 1) with 1%Q; lra).
  assert (Hb : (inject_Z k < inject_Z (Qfloor x + 1))%Q)
    by (rewrite inject_Z_plus; change (inject_Z 1) with 1%Q; lra).
  rewrite <- Zlt_Qlt in Ha, Hb. lia.
Qed.

Lemma Qfloor_unit (x : Q) : (0 <= x)%Q -> (x < 1)%Q -> Qfloor x = 0.
Proof.
  intros Hlo Hhi. apply Qfloor_bounds; change (inject_Z 0) with 0%Q; lra.
Qed.

(** ** Outcomes *)

Lemma bind_Ok_inv {A B : Type} (m : outcome A) (k : A -> outcome B) (b : B) :
  mbind k m = Ok b -> exists a, m = Ok a /\ k a = Ok b.
Proof.
  destruct m as [a | e]; cbn [mbind outcome_bind]; intros H;
    [ exists a; split; [ reflexivity | exact H ] | discriminate H ].
Qed.

(** ** The snapshot reader *)

Lemma read_stat_time_pid (h : Host) (pid0 : Z) (p p' : Proc) :
  SnapshotReader.read_stat_time h pid0 p = Ok p' -> pid p' = pid p.
Proof.
  unfold SnapshotReader.read_stat_time. intros H.
  destruct (SnapshotReader.string_empty _); [ injection H as <-; reflexivity | ].
  destruct (22 <=? _); [ | injection H as <-; reflexivity ].
  apply bind_Ok_inv in H as (utime & _ & H).
  apply bind_Ok_inv in H as (stime & _ & H).
  injection H as <-. reflexivity.
Qed.

Lemma read_rss_pid (PAGE_SIZE : Z) (h : Host) (pid0 : Z) (p p' : Proc) :
  SnapshotReader.read_rss PAGE_SIZE h pid0 p = Ok p' -> pid p' = pid p.
Proof.
  unfold SnapshotReader.read_rss. intros H.
  destruct (SnapshotReader.string_empty _); [ | injection H as <-; reflexivity ].
  destruct (List.find _ _) as [ line | ]; [ | injection H as <-; reflexivity ].
  destruct (extract_token line) as [ k r | k | ]; try discriminate H.
  destruct (extract_long r) as [ kb r' | kb | ]; try discriminate H;
    apply bind_Ok_inv in H as (v & _ & H); injection H as <-; reflexivity.
Qed.

Lemma read_process_basic_pid (PAGE_SIZE : Z) (h : Host) (pid0 : Z) (p : Proc) :
  SnapshotReader.read_process_basic PAGE_SIZE h pid0 = Ok p -> pid p = pid0.
Proof.
  unfold SnapshotReader.read_process_basic. intros H.
  apply bind_Ok_inv in H as (p1 & H1 & H2).
  apply read_stat_time_pid in H1. apply read_rss_pid in H2.
  rewrite H2, H1. reflexivity.
Qed.

(** When the enumeration returns, it holds one record per numeric entry of
    [/proc], in the order of the entries. *)
Lemma read_entries_pids (PAGE_SIZE : Z) (h : Host) (entries : list string)
    (procs : list Proc) :
  SnapshotReader.read_entries PAGE_SIZE h entries = Ok procs ->
  map pid procs = map atoi (List.filter is_digits entries).
Proof.
  revert procs. induction entries as [ | e rest IH ]; intros procs H.
  - injection H as <-. reflexivity.
  - cbn [SnapshotReader.read_entries List.filter] in *.
    destruct (is_digits e); [ | apply IH; exact H ].
    apply bind_Ok_inv in H as (p & Hp & H).
    apply bind_Ok_inv in H as (ps & Hps & H).
    injection H as <-. cbn [map]. f_equal.
    + eapply read_process_basic_pid; exact Hp.
    + apply IH. exact Hps.
Qed.

(** A process none of whose files can be opened (it has exited, or access
    is denied) yields the record with its pid and nothing else. *)
Lemma read_process_basic_unreadable (PAGE_SIZE : Z) (h : Host) (pid0 : Z) :
  (forall leaf, file h (SnapshotReader.proc_path pid0 leaf) = None) ->
  SnapshotReader.read_process_basic PAGE_SIZE h pid0 = Ok (set_pid pid0 Proc_default).
Proof.
  intros Hnone.
  unfold SnapshotReader.read_process_basic, SnapshotReader.read_stat_time,
    SnapshotReader.read_rss, SnapshotReader.read_first_line.
  rewrite !Hnone. reflexivity.
Qed.

(** A [stat] line of fewer than 22 words leaves the tick count at 0. *)
Lemma read_stat_time_short (h : Host) (pid0 : Z) (p : Proc) :
  (List.length (tokens (SnapshotReader.read_first_line h
                          (SnapshotReader.proc_path pid0 "/stat"))) < 22)%nat ->
  SnapshotReader.read_stat_time h pid0 p = Ok p.
Proof.
  intros Hshort. unfold SnapshotReader.read_stat_time.
  destruct (SnapshotReader.string_empty _); [ reflexivity | ].
  destruct (Z.leb_spec 22 (Z.of_nat (List.length (tokens
              (SnapshotReader.read_first_line h
                 (SnapshotReader.proc_path pid0 "/stat")))))) as [Hge | Hlt];
    [ lia | reflexivity ].
Qed.

Lemma sum_ull_range_from (l : list Z) (acc : Z) :
  is_ull acc -> is_ull (fold_left (fun a v => wrap64 (a + v)) l acc).
Proof.
  revert acc. induction l as [ | v l IH ]; intros acc Hacc; [ exact Hacc | ].
  cbn [fold_left]. apply IH. unfold is_ull, wrap64, ULLONG_MOD.
  apply Z.mod_pos_bound. lia.
Qed.

Lemma read_total_time_range (h : Host) :
  is_ull (SnapshotReader.read_total_time_from_proc_stat h).
Proof.
  assert (H0 : is_ull 0) by (unfold is_ull, ULLONG_MOD; lia).
  unfold SnapshotReader.read_total_time_from_proc_stat.
  destruct (file h "/proc/stat") as [ content | ]; [ | exact H0 ].
  destruct (getline content) as [ [line rest] | ]; [ | exact H0 ].
  apply sum_ull_range_from. exact H0.
Qed.

(** C4, at the input where the code leaves it.  The [stat] record of pid 42
    has 22 words and a lone sign for word 14: [std::stoull] throws, the
    enumeration returns no snapshot, the iteration does not complete and
    the run ends. *)
Theorem C4_malformed_stat_aborts :
  SnapshotReader.read_process_basic Scenario.PAGE_SIZE Scenario.host_malformed_stat 42
  = Raise invalid_argument /\
  SnapshotReader.get_all_processes Scenario.PAGE_SIZE Scenario.host_malformed_stat
  = Raise invalid_argument /\
  Main.iteration Scenario.CLK_TCK Scenario.PAGE_SIZE Scenario.host_malformed_stat
    (Main.initial_state Scenario.host_A)
  = Raise invalid_argument /\
  Main.run Scenario.CLK_TCK Scenario.PAGE_SIZE
    [Scenario.host_malformed_stat; Scenario.host_B]
    (Main.initial_state Scenario.host_A)
  = [].
Proof. repeat split; vm_compute; reflexivity. Qed.

(** ** The delta engine *)

(** C1. With a stored prior t0 for the pid: the delta is t1 - t0 when
    t0 <= t1 and 0 when t1 < t0; with no stored entry the prior is the
    current observation and the delta is 0. *)
Theorem C1_delta_ticks (prev_proc_time : gmap Z Z) (p : Proc) :
  is_ull (time p) ->
  (forall t0, prev_proc_time !! pid p = Some t0 -> is_ull t0 ->
     (t0 <= time p -> DeltaEngine.proc_delta prev_proc_time p = time p - t0) /\
     (time p < t0 -> DeltaEngine.proc_delta prev_proc_time p = 0)) /\
  (prev_proc_time !! pid p = None ->
     DeltaEngine.prior prev_proc_time p = time p /\
     DeltaEngine.proc_delta prev_proc_time p = 0).
Proof.
  intros Ht1. unfold DeltaEngine.proc_delta, DeltaEngine.prior, DeltaEngine.delta_ticks.
  split.
  - intros t0 Hlk Ht0. rewrite Hlk. unfold is_ull, wrap64, ULLONG_MOD in *. split; intros Hcmp.
    + destruct (Z.ltb_spec t0 (time p)); [ | lia ].
      apply Z.mod_small. lia.
    + destruct (Z.ltb_spec t0 (time p)); [ lia | reflexivity ].
  - intros Hlk. rewrite Hlk. split; [ reflexivity | ].
    rewrite Z.ltb_irrefl. reflexivity.
Qed.

(** With 100 stored for pid 42: 150 gives 50, 60 gives 0; pid 7, not yet
    stored, gives 0. *)
Lemma C1_delta_ticks_witness :
  let m : gmap Z Z := {[ 42 := 100 ]} in
  DeltaEngine.proc_delta m (set_time 150 (set_pid 42 Proc_default)) = 150 - 100 /\
  DeltaEngine.proc_delta m (set_time 60 (set_pid 42 Proc_default)) = 0 /\
  DeltaEngine.proc_delta m (set_time 60 (set_pid 7 Proc_default)) = 0.
Proof.
  intros m.
  assert (H42 : m !! 42 = Some 100) by reflexivity.
  assert (H7 : m !! 7 = None) by reflexivity.
  assert (Hu : forall z, 0 <= z < 1000 -> is_ull z)
    by (unfold is_ull, ULLONG_MOD; lia).
  destruct (C1_delta_ticks m (set_time 150 (set_pid 42 Proc_default)))
    as [Hup _]; [ apply Hu; simpl; lia | ].
  destruct (C1_delta_ticks m (set_time 60 (set_pid 42 Proc_default)))
    as [Hdown _]; [ apply Hu; simpl; lia | ].
  destruct (C1_delta_ticks m (set_time 60 (set_pid 7 Proc_default)))
    as [_ Hnew]; [ apply Hu; simpl; lia | ].
  split; [ | split ].
  - apply (Hup 100 H42); [ apply Hu; lia | simpl; lia ].
  - apply (Hdown 100 H42); [ apply Hu; lia | simpl; lia ].
  - apply (Hnew H7).
Defined.

Lemma delta_ticks_nonneg (t1 prev : Z) : 0 <= DeltaEngine.delta_ticks t1 prev.
Proof.
  unfold DeltaEngine.delta_ticks, wrap64, ULLONG_MOD.
  destruct (prev <? t1); [ | lia ].
  apply Z.mod_pos_bound. lia.
Qed.

Lemma fallback_interval_pos (interval : Q) :
  (0 < DeltaEngine.fallback_interval interval)%Q.
Proof.
  unfold DeltaEngine.fallback_interval.
  destruct (Double.leb interval 0) eqn:E; [ lra | ].
  apply leb_gt in E. exact E.
Qed.

Lemma compute_cpu_pct_value (CLK_TCK : Z) (interval : Q) (delta : Z) :
  0 < CLK_TCK -> (0 < interval)%Q ->
  DeltaEngine.compute_cpu_pct CLK_TCK interval delta
  = Ok (inject_Z delta / inject_Z CLK_TCK / interval * 100)%Q.
Proof.
  intros Hclk Hiv. unfold DeltaEngine.compute_cpu_pct, Double.of_int.
  assert (Hq : (0 < inject_Z CLK_TCK)%Q)
    by (apply inject_Z_pos; exact Hclk).
  rewrite div_nonzero by (intro H; lra).
  cbn [mbind outcome_bind].
  apply ltb_lt in Hiv as Hb. rewrite Hb.
  rewrite div_nonzero by (intro H; lra).
  reflexivity.
Qed.

Lemma cpu_pct_formula_nonneg (CLK_TCK : Z) (interval : Q) (delta : Z) :
  0 < CLK_TCK -> (0 < interval)%Q -> 0 <= delta ->
  (0 <= inject_Z delta / inject_Z CLK_TCK / interval * 100)%Q.
Proof.
  intros Hclk Hiv Hd.
  assert (Hq : (0 < inject_Z CLK_TCK)%Q)
    by (apply inject_Z_pos; exact Hclk).
  assert (Hdq : (0 <= inject_Z delta)%Q)
    by (apply inject_Z_nonneg; exact Hd).
  apply Qmult_le_0_compat; [ | lra ].
  apply Qle_shift_div_l; [ exact Hiv | ].
  rewrite Qmult_0_l.
  apply Qle_shift_div_l; [ exact Hq | ].
  rewrite Qmult_0_l. exact Hdq.
Qed.

Lemma update_proc_inv (CLK_TCK PAGE_SIZE : Z) (interval mem_total_mb : Q)
    (m m' : gmap Z Z) (p p' : Proc) :
  DeltaEngine.update_proc CLK_TCK PAGE_SIZE interval mem_total_mb m p = Ok (p', m') ->
  exists cpu mem,
    DeltaEngine.compute_cpu_pct CLK_TCK interval (DeltaEngine.proc_delta m p) = Ok cpu /\
    DeltaEngine.compute_mem_pct PAGE_SIZE mem_total_mb (rss_pages p) = Ok mem /\
    p' = set_mem_pct mem (set_cpu_pct cpu p) /\
    m' = <[pid p := time p]> m.
Proof.
  unfold DeltaEngine.update_proc. intros H.
  apply bind_Ok_inv in H as (cpu & Hcpu & H).
  apply bind_Ok_inv in H as (mem & Hmem & H).
  injection H as <- <-. exists cpu, mem. repeat split; assumption.
Qed.

Lemma update_all_updated (CLK_TCK PAGE_SIZE : Z) (interval mem_total_mb : Q)
    (procs procs' : list Proc) (m m' : gmap Z Z) :
  DeltaEngine.update_all CLK_TCK PAGE_SIZE interval mem_total_mb m procs = Ok (procs', m') ->
  updated CLK_TCK PAGE_SIZE interval mem_total_mb m procs procs' m'.
Proof.
  revert procs' m m'. induction procs as [ | p rest IH ]; intros procs' m m' H.
  - injection H as <- <-. constructor.
  - cbn [DeltaEngine.update_all] in H.
    apply bind_Ok_inv in H as ([p1 m1] & Hp & H).
    apply bind_Ok_inv in H as ([rest1 m2] & Hrest & H).
    injection H as <- <-.
    apply update_proc_inv in Hp as (cpu & mem & Hcpu & Hmem & -> & ->).
    econstructor; eauto.
Qed.

Lemma updated_pids CLK_TCK PAGE_SIZE interval mem_total_mb m procs procs' m' :
  updated CLK_TCK PAGE_SIZE interval mem_total_mb m procs procs' m' ->
  map pid procs' = map pid procs.
Proof. induction 1; [ reflexivity | cbn [map]; f_equal; assumption ]. Qed.

(** The map after the loop has the entries it had, and one for each process. *)
Lemma updated_dom CLK_TCK PAGE_SIZE interval mem_total_mb m procs procs' m' :
  updated CLK_TCK PAGE_SIZE interval mem_total_mb m procs procs' m' ->
  forall q : Z, is_Some (m' !! q) <-> is_Some (m !! q) \/ In q (map pid procs).
Proof.
  induction 1 as [ m | m p cpu mem rest rest' m' Hcpu Hmem Hup IH ]; intros q.
  - cbn [map In]. tauto.
  - rewrite IH. cbn [map In]. rewrite lookup_insert.
    destruct (decide (pid p = q)) as [ -> | Hne ].
    + split; [ intros _; right; left; reflexivity | intros _; left; eauto ].
    + tauto.
Qed.

Lemma updated_cpu_nonneg CLK_TCK PAGE_SIZE interval mem_total_mb m procs procs' m' :
  0 < CLK_TCK -> (0 < interval)%Q ->
  updated CLK_TCK PAGE_SIZE interval mem_total_mb m procs procs' m' ->
  forall p', In p' procs' -> (0 <= cpu_pct p')%Q.
Proof.
  intros Hclk Hiv. induction 1 as [ m | m p cpu mem rest rest' m' Hcpu Hmem Hup IH ];
    intros p' Hin.
  - destruct Hin.
  - destruct Hin as [ <- | Hin ]; [ | apply IH; exact Hin ].
    cbn [cpu_pct set_mem_pct set_cpu_pct].
    rewrite compute_cpu_pct_value in Hcpu by assumption.
    injection Hcpu as <-.
    apply cpu_pct_formula_nonneg; [ assumption | assumption | ].
    apply delta_ticks_nonneg.
Qed.

Lemma updated_mem_pct CLK_TCK PAGE_SIZE interval mem_total_mb m procs procs' m' :
  updated CLK_TCK PAGE_SIZE interval mem_total_mb m procs procs' m' ->
  forall p', In p' procs' ->
    DeltaEngine.compute_mem_pct PAGE_SIZE mem_total_mb (rss_pages p') = Ok (mem_pct p').
Proof.
  induction 1 as [ m | m p cpu mem rest rest' m' Hcpu Hmem Hup IH ]; intros p' Hin.
  - destruct Hin.
  - destruct Hin as [ <- | Hin ]; [ exact Hmem | apply IH; exact Hin ].
Qed.

(** ** The orderings and [std::sort] *)

Lemma insert_by_perm {A : Type} (comp : A -> A -> bool) (x : A) (l : list A) :
  Permutation (x :: l) (Aggregator.insert_by comp x l).
Proof.
  induction l as [ | y l IH ]; cbn [Aggregator.insert_by].
  - reflexivity.
  - destruct (comp x y); [ reflexivity | ].
    rewrite perm_swap. apply perm_skip. exact IH.
Qed.

Lemma std_sort_perm {A : Type} (comp : A -> A -> bool) (l : list A) :
  Permutation l (Aggregator.std_sort comp l).
Proof.
  induction l as [ | x l IH ]; [ reflexivity | ].
  change (Aggregator.std_sort comp (x :: l))
    with (Aggregator.insert_by comp x (Aggregator.std_sort comp l)).
  rewrite <- insert_by_perm. apply perm_skip. exact IH.
Qed.

Section Orderings.

Variable key_of : Proc -> Q.

Lemma by_key_desc_true (a b : Proc) :
  by_key_desc key_of a b = true <->
  (key_of b < key_of a)%Q \/ ((key_of a == key_of b)%Q /\ pid a < pid b).
Proof.
  unfold by_key_desc. destruct (Double.eqb (key_of a) (key_of b)) eqn:E.
  - apply eqb_eq in E. rewrite Z.ltb_lt. split; [ auto | ].
    intros [ H | [_ H] ]; [ lra | exact H ].
  - apply eqb_neq in E. rewrite ltb_lt. split; [ auto | ].
    intros [ H | [H _] ]; [ exact H | contradiction ].
Qed.

Lemma by_key_desc_false (a b : Proc) :
  by_key_desc key_of b a = false ->
  (key_of b <= key_of a)%Q /\ ((key_of a == key_of b)%Q -> pid a <= pid b).
Proof.
  unfold by_key_desc. destruct (Double.eqb (key_of b) (key_of a)) eqn:E.
  - apply eqb_eq in E. rewrite Z.ltb_ge. intros H. split; [ lra | auto ].
  - apply eqb_neq in E. rewrite ltb_ge. intros H. split; [ exact H | ].
    intros Heq. exfalso. apply E. lra.
Qed.

Lemma by_key_desc_asym (a b : Proc) :
  by_key_desc key_of a b = true -> by_key_desc key_of b a = false.
Proof.
  intros H. apply not_true_is_false. rewrite by_key_desc_true.
  apply by_key_desc_true in H. intros H'.
  destruct H as [ H | [H1 H2] ], H' as [ H' | [H1' H2'] ]; try lra; lia.
Qed.

Lemma by_key_desc_trans (a b c : Proc) :
  by_key_desc key_of a b = true -> by_key_desc key_of b c = true -> by_key_desc key_of a c = true.
Proof.
  rewrite !by_key_desc_true.
  intros [ H | [H1 H2] ] [ H' | [H1' H2'] ];
    try (left; lra); right; split; [ lra | lia ].
Qed.

(** Incomparable elements stay incomparable through a third one. *)
Lemma by_key_desc_neg_trans (a b c : Proc) :
  by_key_desc key_of a b = false -> by_key_desc key_of b c = false -> by_key_desc key_of a c = false.
Proof.
  intros H1 H2. apply not_true_is_false. intros H3.
  apply by_key_desc_false in H1 as [H1 H1'].
  apply by_key_desc_false in H2 as [H2 H2'].
  apply by_key_desc_true in H3 as [ H3 | [H3 H3'] ]; [ lra | ].
  assert (Hcb : (key_of c == key_of b)%Q) by lra.
  assert (Hba : (key_of b == key_of a)%Q) by lra.
  specialize (H1' Hba). specialize (H2' Hcb). lia.
Qed.

End Orderings.

Lemma by_cpu_desc_key : Aggregator.by_cpu_desc = by_key_desc cpu_pct.
Proof. reflexivity. Qed.

Lemma by_mem_desc_key : Aggregator.by_mem_desc = by_key_desc mem_pct.
Proof. reflexivity. Qed.

Lemma comparator_modes :
  Aggregator.comparator 0 = Aggregator.by_cpu_desc /\
  Aggregator.comparator 1 = Aggregator.by_mem_desc /\
  Aggregator.comparator 2 = Aggregator.by_pid_asc.
Proof. repeat split. Qed.

Section SortContract.

Context {A : Type}.
Variable comp : A -> A -> bool.
Hypothesis comp_asym : forall a b, comp a b = true -> comp b a = false.
Hypothesis comp_trans :
  forall a b c, comp a b = true -> comp b c = true -> comp a c = true.

Lemma insert_by_strongly_sorted (x : A) (l : list A) :
  StronglySorted (may_precede comp) l ->
  StronglySorted (may_precede comp) (Aggregator.insert_by comp x l).
Proof.
  induction 1 as [ | y l Hsorted IH Hall ]; cbn [Aggregator.insert_by].
  - constructor; constructor.
  - destruct (comp x y) eqn:E.
    + constructor; [ constructor; assumption | ].
      constructor; [ apply comp_asym; exact E | ].
      rewrite List.Forall_forall in *. intros z Hz. specialize (Hall z Hz).
      unfold may_precede in *. apply not_true_is_false. intros Hzx.
      rewrite (comp_trans z x y Hzx E) in Hall. discriminate Hall.
    + constructor; [ exact IH | ].
      rewrite List.Forall_forall in *. intros z Hz.
      apply (Permutation_in _ (Permutation_sym (insert_by_perm comp x l))) in Hz.
      destruct Hz as [ <- | Hz ]; [ exact E | apply Hall; exact Hz ].
Qed.

Lemma std_sort_strongly_sorted (l : list A) :
  StronglySorted (may_precede comp) (Aggregator.std_sort comp l).
Proof.
  induction l as [ | x l IH ]; [ constructor | ].
  change (Aggregator.std_sort comp (x :: l))
    with (Aggregator.insert_by comp x (Aggregator.std_sort comp l)).
  apply insert_by_strongly_sorted. exact IH.
Qed.

Lemma strongly_sorted_sorted_by (l : list A) :
  StronglySorted (may_precede comp) l -> Aggregator.sorted_by comp l.
Proof.
  induction 1 as [ | x l Hsorted IH Hall ]; intros i j a b Hij Ha Hb.
  - destruct i; discriminate Ha.
  - destruct j as [ | j' ]; [ lia | ].
    destruct i as [ | i' ].
    + injection Ha as <-. cbn in Hb.
      rewrite List.Forall_forall in Hall. apply Hall.
      apply list_elem_of_In. eapply list_elem_of_lookup_2. exact Hb.
    + cbn in Ha, Hb. apply (IH i' j' a b); [ lia | exact Ha | exact Hb ].
Qed.

Lemma std_sort_meets_post (l : list A) :
  Aggregator.std_sort_post comp l (Aggregator.std_sort comp l).
Proof.
  split; [ apply std_sort_perm | ].
  apply strongly_sorted_sorted_by. apply std_sort_strongly_sorted.
Qed.

End SortContract.

Lemma comparator_cases (sort_mode : Z) :
  Aggregator.comparator sort_mode = by_key_desc cpu_pct \/
  Aggregator.comparator sort_mode = by_key_desc mem_pct \/
  Aggregator.comparator sort_mode = Aggregator.by_pid_asc.
Proof.
  unfold Aggregator.comparator.
  destruct (sort_mode =? 0); [ left; reflexivity | ].
  destruct (sort_mode =? 1); [ right; left; reflexivity | right; right; reflexivity ].
Qed.

(** Whatever the sort mode, the order the loop displays is one [std::sort]
    may produce. *)
Lemma comparator_sort_post (sort_mode : Z) (l : list Proc) :
  Aggregator.std_sort_post (Aggregator.comparator sort_mode) l
    (Aggregator.std_sort (Aggregator.comparator sort_mode) l).
Proof.
  destruct (comparator_cases sort_mode) as [ -> | [ -> | -> ] ].
  - apply std_sort_meets_post;
      [ apply by_key_desc_asym | apply by_key_desc_trans ].
  - apply std_sort_meets_post;
      [ apply by_key_desc_asym | apply by_key_desc_trans ].
  - apply std_sort_meets_post; unfold Aggregator.by_pid_asc.
    + intros a b H. apply Z.ltb_lt in H. apply Z.ltb_ge. lia.
    + intros a b c H1 H2. apply Z.ltb_lt in H1, H2. apply Z.ltb_lt. lia.
Qed.

(** Let [out] be any list the contract of [std::sort] admits for the input
    [procs] under the ordering of the sort mode, and let a stand before b in
    [out].  Mode 0
    (CPU): cpu_pct a >= cpu_pct b, and pid a <= pid b when the two are equal.
    Mode 1 (MEM): the same on mem_pct.  Mode 2 (PID): pid a <= pid b, and
    pid a < pid b when the pids of the snapshot are pairwise distinct. *)
Lemma sort_post_orders (procs out : list Proc) (i j : nat) (a b : Proc) :
  (i < j)%nat -> out !! i = Some a -> out !! j = Some b ->
  (Aggregator.std_sort_post (Aggregator.comparator 0) procs out ->
     (cpu_pct b <= cpu_pct a)%Q /\ ((cpu_pct a == cpu_pct b)%Q -> pid a <= pid b)) /\
  (Aggregator.std_sort_post (Aggregator.comparator 1) procs out ->
     (mem_pct b <= mem_pct a)%Q /\ ((mem_pct a == mem_pct b)%Q -> pid a <= pid b)) /\
  (Aggregator.std_sort_post (Aggregator.comparator 2) procs out ->
     pid a <= pid b /\ (NoDup (map pid procs) -> pid a < pid b)).
Proof.
  intros Hij Ha Hb.
  destruct comparator_modes as (-> & -> & ->).
  split; [ | split ]; intros [Hperm Hsorted];
    specialize (Hsorted i j a b Hij Ha Hb).
  - rewrite by_cpu_desc_key in Hsorted. apply by_key_desc_false in Hsorted.
    exact Hsorted.
  - rewrite by_mem_desc_key in Hsorted. apply by_key_desc_false in Hsorted.
    exact Hsorted.
  - unfold Aggregator.by_pid_asc in Hsorted. apply Z.ltb_ge in Hsorted.
    split; [ exact Hsorted | ].
    intros Hnodup.
    assert (Hout : NoDup (map pid out)).
    { assert (Hpids : Permutation (map pid procs) (map pid out))
        by (apply Permutation_map; exact Hperm).
      rewrite <- Hpids. exact Hnodup. }
    assert (Hne : pid a <> pid b).
    { intros Heq.
      assert (Hi : map pid out !! i = Some (pid a))
        by (change (map pid out) with (pid <$> out); rewrite list_lookup_fmap, Ha; reflexivity).
      assert (Hj : map pid out !! j = Some (pid a))
        by (change (map pid out) with (pid <$> out); rewrite list_lookup_fmap, Hb, Heq; reflexivity).
      pose proof (NoDup_lookup _ _ _ _ Hout Hi Hj). lia. }
    lia.
Qed.

(** ** The bar *)

(** The cells of the loop [for (int i = 0; i < width; ++i)] that get the
    checker-board glyph, for any value of [filled]. *)
Lemma filled_cells_seqZ (y x filled : Z) (n : nat) (m : Z) :
  filled_cells
    (map (fun i => mvaddch y (x + i) (if i <? filled then ACS_CKBOARD else blank))
         (seqZ m (Z.of_nat n)))
  = Z.max 0 (Z.min (m + Z.of_nat n) filled - m).
Proof.
  revert m. induction n as [ | n IH ]; intros m.
  - rewrite seqZ_nil by lia. unfold filled_cells. cbn [map List.filter List.length].
    lia.
  - rewrite seqZ_cons by lia.
    replace (Z.pred (Z.of_nat (S n))) with (Z.of_nat n) by lia.
    cbn [map]. unfold filled_cells in *. cbn [List.filter is_filled].
    destruct (Z.ltb_spec m filled) as [Hlt | Hge]; cbn [List.length].
    + rewrite Nat2Z.inj_succ, IH. lia.
    + rewrite IH. lia.
Qed.

Lemma draw_bar_cells (y x width : Z) (fraction : Q) (cells : list Event) :
  0 <= width ->
  draw_bar y x width fraction = Ok cells ->
  Z.of_nat (List.length cells) = width /\
  filled_cells cells
  = Z.max 0 (Z.min width (Double.trunc (fraction * inject_Z width + (1 # 2)))).
Proof.
  intros Hw H. unfold draw_bar in H.
  apply bind_Ok_inv in H as (filled & Hf & H). injection H as <-.
  unfold Double.to_int in Hf.
  destruct (_ && _) in Hf; [ | discriminate Hf ]. injection Hf as <-.
  split.
  - rewrite length_map, length_seqZ. lia.
  - rewrite <- (Z2Nat.id width) at 1 by exact Hw.
    rewrite filled_cells_seqZ. rewrite Z2Nat.id by exact Hw.
    unfold Double.of_int. lia.
Qed.

Lemma round_clamp_value (fraction : Q) (width : Z) :
  0 <= width ->
  Z.max 0 (Z.min width (Double.trunc (fraction * inject_Z width + (1 # 2))))
  = Spec.round (Spec.clamp fraction 0 1 * inject_Z width).
Proof.
  intros Hw.
  assert (Hwq : (0 <= inject_Z width)%Q) by (apply inject_Z_nonneg; exact Hw).
  assert (Hfw : forall x : Q, (inject_Z width + (1 # 2) <= x)%Q -> width <= Qfloor x).
  { intros x Hx. rewrite <- (Qfloor_Z width). apply Qfloor_resp_le. lra. }
  assert (Hfu : forall x : Q, (x < inject_Z width + 1)%Q -> Qfloor x <= width).
  { intros x Hx. pose proof (Qfloor_le x) as Hfl.
    assert (Hlt : (inject_Z (Qfloor x) < inject_Z (width + 1))%Q)
      by (rewrite inject_Z_plus; change (inject_Z 1) with 1%Q; lra).
    rewrite <- Zlt_Qlt in Hlt. lia. }
  generalize dependent (inject_Z width). intros w Hwq Hfw Hfu.
  unfold Spec.clamp.
  destruct (Double.ltb fraction 0) eqn:Eneg.
  - (* fraction < 0: no cell *)
    apply ltb_lt in Eneg.
    assert (Hx : (fraction * w + (1 # 2) <= 1 # 2)%Q) by nra.
    assert (Ht : Double.trunc (fraction * w + (1 # 2)) <= 0).
    { destruct (Qlt_le_dec 0 (fraction * w + (1 # 2))) as [Hp | Hn].
      - rewrite trunc_nonneg by lra. rewrite Qfloor_unit by lra. lia.
      - apply trunc_nonpos. exact Hn. }
    unfold Spec.round.
    assert (E0 : Double.ltb (0 * w) 0 = false) by (apply ltb_ge; lra).
    rewrite E0, Qfloor_unit by lra. lia.
  - apply ltb_ge in Eneg.
    destruct (Double.ltb 1 fraction) eqn:Ebig.
    + (* fraction > 1: every cell *)
      apply ltb_lt in Ebig.
      assert (Hx : (w + (1 # 2) <= fraction * w + (1 # 2))%Q) by nra.
      rewrite trunc_nonneg by lra.
      pose proof (Hfw _ Hx) as Hfl.
      unfold Spec.round.
      assert (E0 : Double.ltb (1 * w) 0 = false) by (apply ltb_ge; lra).
      rewrite E0.
      pose proof (Hfw (1 * w + (1 # 2))%Q ltac:(lra)) as Hlo.
      pose proof (Hfu (1 * w + (1 # 2))%Q ltac:(lra)) as Hup.
      lia.
    + (* 0 <= fraction <= 1: rounding of fraction * width *)
      apply ltb_ge in Ebig.
      assert (Hlo : (0 <= fraction * w)%Q) by nra.
      assert (Hhi : (fraction * w <= w)%Q) by nra.
      rewrite trunc_nonneg by lra.
      unfold Spec.round.
      assert (E0 : Double.ltb (fraction * w) 0 = false) by (apply ltb_ge; lra).
      rewrite E0.
      assert (Hge : 0 <= Qfloor (fraction * w + (1 # 2))).
      { change 0 with (Qfloor 0). apply Qfloor_resp_le. lra. }
      pose proof (Hfu (fraction * w + (1 # 2))%Q ltac:(lra)) as Hle.
      lia.
Qed.

(** Were [fraction * width + 0.5] computed without rounding, the bar of a
    fraction whose scaled value fits an [int] would have exactly
    round(clamp(f, 0, 1) * w) filled cells. *)
Lemma draw_bar_exact_round (y x width : Z) (fraction : Q) :
  0 <= width ->
  INT_MIN <= Double.trunc (fraction * inject_Z width + (1 # 2)) <= INT_MAX ->
  exists cells,
    draw_bar y x width fraction = Ok cells /\
    Z.of_nat (List.length cells) = width /\
    filled_cells cells = Spec.round (Spec.clamp fraction 0 1 * inject_Z width) /\
    0 <= filled_cells cells <= width.
Proof.
  intros Hw Hrange.
  destruct (draw_bar y x width fraction) as [ cells | e ] eqn:E.
  - exists cells. split; [ reflexivity | ].
    destruct (draw_bar_cells _ _ _ _ _ Hw E) as [Hlen Hfilled].
    split; [ exact Hlen | ].
    split; [ rewrite Hfilled; apply round_clamp_value; exact Hw | ].
    rewrite Hfilled. lia.
  - exfalso. unfold draw_bar, Double.to_int, Double.of_int in E.
    destruct (Z.leb_spec INT_MIN (Double.trunc (fraction * inject_Z width + (1 # 2))));
      [ | lia ].
    destruct (Z.leb_spec (Double.trunc (fraction * inject_Z width + (1 # 2))) INT_MAX);
      [ | lia ].
    cbn in E. discriminate E.
Qed.




(** ** The key handler and the kill sub-flow *)

Lemma kill_subflow_term (h : Host) (rows : Z) (t : Terminal) :
  fst (kill_subflow h rows t) = monitor_mode.
Proof. reflexivity. Qed.

Lemma kill_subflow_events (h : Host) (rows : Z) (t : Terminal) :
  let okpid := atoi (read_buf h) in
  snd (kill_subflow h rows t)
  = [mvprintw (rows - 1) 0 EnterPid; getnstr (read_buf h)]
    ++ (if 0 <? okpid then
          [kill okpid SIGTERM;
           mvprintw (rows - 1) 0
             (if kill_result h okpid =? 0 then SentSigterm okpid
              else FailedToKill okpid);
           refresh; getch (ack_key h)]
        else []).
Proof. reflexivity. Qed.

Lemma take_digits_non_digit (s : string) :
  match s with
  | String c _ => isdigit c = false
  | EmptyString => True
  end ->
  fst (take_digits s) = EmptyString.
Proof.
  destruct s as [ | c s ]; [ reflexivity | ].
  intros H. cbn [take_digits]. rewrite H. reflexivity.
Qed.

Lemma atoi_non_numeric (s : string) : Spec.non_numeric s -> atoi s = 0.
Proof.
  unfold Spec.non_numeric, atoi, strtol, scan_number.
  destruct (take_sign (skip_ws s)) as [neg s1]. cbn [snd].
  intros H. apply take_digits_non_digit in H.
  destruct (take_digits s1) as [d r]. cbn [fst] in H. subst d. reflexivity.
Qed.

(** The signals of one pass through the kill sub-flow. *)
Lemma kill_subflow_kill (h : Host) (rows : Z) (t : Terminal) :
  let okpid := atoi (read_buf h) in
  let evs := snd (kill_subflow h rows t) in
  (okpid <= 0 -> forall p sig, ~ In (kill p sig) evs) /\
  (Spec.non_numeric (read_buf h) -> okpid = 0) /\
  (forall p sig, In (kill p sig) evs -> 0 < okpid /\ p = okpid /\ sig = SIGTERM) /\
  (0 < okpid -> In (kill okpid SIGTERM) evs).
Proof.
  intros okpid evs. subst evs. rewrite kill_subflow_events. fold okpid.
  destruct (Z.ltb_spec 0 okpid) as [Hpos | Hle].
  - split; [ intros H; lia | ].
    split; [ intros H; apply atoi_non_numeric in H; exact H | ].
    split.
    + intros p sig Hin. cbn [app In] in Hin.
      destruct Hin as [H | [H | [H | [H | [H | [H | []]]]]]]; try discriminate H.
      injection H as <- <-. auto.
    + intros _. cbn [app In]. auto.
  - split.
    + intros _ p sig Hin. cbn [app In] in Hin.
      destruct Hin as [H | [H | []]]; discriminate H.
    + split; [ intros H; apply atoi_non_numeric in H; exact H | ].
      split; [ | intros H; lia ].
      intros p sig Hin. cbn [app In] in Hin.
      destruct Hin as [H | [H | []]]; discriminate H.
Qed.

Lemma key_is_spec (ch : Z) (lower upper : ascii) :
  Main.key_is ch lower upper = true <-> ch = code lower \/ ch = code upper.
Proof.
  unfold Main.key_is. rewrite orb_true_iff, !Z.eqb_eq. reflexivity.
Qed.

(** With the key known to be one letter, the test for another letter fails. *)
Ltac other_key :=
  apply not_true_is_false; rewrite key_is_spec; vm_compute code in *; lia.

Lemma handle_key_prev_proc_time (h : Host) (rows : Z) (st : Main.LoopState) :
  Main.prev_proc_time (fst (fst (Main.handle_key h rows st))) = Main.prev_proc_time st.
Proof.
  unfold Main.handle_key.
  destruct (Main.key_is (key h) "q" "Q"); [ reflexivity | ].
  destruct (Main.key_is (key h) "s" "S"); [ reflexivity | ].
  destruct (Main.key_is (key h) "k" "K"); [ | reflexivity ].
  destruct (kill_subflow h rows (Main.term st)). reflexivity.
Qed.

(** The key handler sends a signal only from the kill sub-flow. *)
Lemma handle_key_kill (h : Host) (rows : Z) (st : Main.LoopState) (p sig : Z) :
  In (kill p sig) (snd (fst (Main.handle_key h rows st))) ->
  Main.key_is (key h) "k" "K" = true /\
  In (kill p sig) (snd (kill_subflow h rows (Main.term st))).
Proof.
  unfold Main.handle_key.
  destruct (Main.key_is (key h) "q" "Q");
    [ cbn; intuition discriminate | ].
  destruct (Main.key_is (key h) "s" "S");
    [ cbn; intuition discriminate | ].
  destruct (Main.key_is (key h) "k" "K");
    [ | cbn; intuition discriminate ].
  destruct (kill_subflow h rows (Main.term st)) as [t evs]. cbn [fst snd].
  intros [ H | H ]; [ discriminate H | ].
  apply in_app_or in H as [ H | [ H | [] ] ]; [ | discriminate H ].
  split; [ reflexivity | exact H ].
Qed.

(** C10. Whatever line is typed and whatever [kill] returns, the iteration
    that ran the kill sub-flow ends with input non-blocking, echo off and the
    cursor hidden, with the sort mode, the prior-state map and the stored
    total left as they were; the loop goes on. *)
Theorem C10_kill_subflow_frame (h : Host) (rows : Z) (st : Main.LoopState) :
  Main.key_is (key h) "k" "K" = true ->
  let '(st', _, c) := Main.handle_key h rows st in
  nodelay_on (Main.term st') = true /\
  echo_on (Main.term st') = false /\
  cursor (Main.term st') = 0 /\
  Main.sort_mode st' = Main.sort_mode st /\
  Main.prev_proc_time st' = Main.prev_proc_time st /\
  Main.prev_total_time st' = Main.prev_total_time st /\
  c = Main.next_iteration.
Proof.
  intros Hk. unfold Main.handle_key.
  apply key_is_spec in Hk.
  assert (Hq : Main.key_is (key h) "q" "Q" = false) by other_key.
  assert (Hs : Main.key_is (key h) "s" "S" = false) by other_key.
  apply key_is_spec in Hk.
  rewrite Hq, Hs, Hk.
  destruct (kill_subflow h rows (Main.term st)) as [t evs] eqn:E.
  assert (Ht : t = monitor_mode)
    by (rewrite <- (kill_subflow_term h rows (Main.term st)), E; reflexivity).
  subst t. cbn. repeat split; reflexivity.
Qed.

(** The operator presses [k] and types [42]. *)
Lemma C10_kill_subflow_frame_witness :
  let '(st', _, c) :=
    Main.handle_key Scenario.host_C 24 (Main.initial_state Scenario.host_A) in
  nodelay_on (Main.term st') = true /\
  echo_on (Main.term st') = false /\
  cursor (Main.term st') = 0 /\
  Main.sort_mode st' = Main.sort_mode (Main.initial_state Scenario.host_A) /\
  Main.prev_proc_time st' = Main.prev_proc_time (Main.initial_state Scenario.host_A) /\
  Main.prev_total_time st' = Main.prev_total_time (Main.initial_state Scenario.host_A) /\
  c = Main.next_iteration.
Proof.
  apply (C10_kill_subflow_frame Scenario.host_C 24 (Main.initial_state Scenario.host_A)).
  reflexivity.
Defined.

(** ** One iteration *)

Lemma sample_inv (CLK_TCK PAGE_SIZE : Z) (h : Host) (st : Main.LoopState)
    (s : Main.Sample) :
  Main.sample CLK_TCK PAGE_SIZE h st = Ok s ->
  exists raw,
    SnapshotReader.get_all_processes PAGE_SIZE h = Ok raw /\
    updated CLK_TCK PAGE_SIZE (DeltaEngine.fallback_interval (elapsed h))
      (SnapshotReader.total_mb (SnapshotReader.read_mem_info h))
      (Main.prev_proc_time st) raw (Main.procs s) (Main.prev_proc_time' s) /\
    Main.total_time_delta s
    = (if Main.prev_total_time st <? SnapshotReader.read_total_time_from_proc_stat h
       then wrap64 (SnapshotReader.read_total_time_from_proc_stat h
                    - Main.prev_total_time st)
       else 0) /\
    Main.meminfo s = SnapshotReader.read_mem_info h.
Proof.
  unfold Main.sample. intros H.
  apply bind_Ok_inv in H as (raw & Hraw & H).
  apply bind_Ok_inv in H as ([procs m] & Hup & H).
  injection H as <-. exists raw. cbn.
  split; [ exact Hraw | ].
  split; [ apply update_all_updated; exact Hup | ].
  split; reflexivity.
Qed.

Lemma iteration_inv (CLK_TCK PAGE_SIZE : Z) (h : Host) (st : Main.LoopState)
    (step : Main.Step) :
  Main.iteration CLK_TCK PAGE_SIZE h st = Ok step ->
  exists s frame st1,
    Main.sample CLK_TCK PAGE_SIZE h st = Ok s /\
    Main.snapshot step
    = Aggregator.std_sort (Aggregator.comparator (Main.sort_mode st)) (Main.procs s) /\
    Main.draw_frame h (Main.sort_mode st) s (Main.snapshot step) = Ok frame /\
    Main.prev_proc_time st1 = Main.prev_proc_time' s /\
    Main.sort_mode st1 = Main.sort_mode st /\
    Main.term st1 = Main.term st /\
    Main.events step = frame ++ snd (fst (Main.handle_key h (screen_rows h) st1)) /\
    Main.state_after step = fst (fst (Main.handle_key h (screen_rows h) st1)) /\
    Main.ctl step = snd (Main.handle_key h (screen_rows h) st1).
Proof.
  unfold Main.iteration. intros H.
  apply bind_Ok_inv in H as (s & Hs & H).
  apply bind_Ok_inv in H as (frame & Hf & H).
  match type of H with
  | context [Main.handle_key ?a ?b ?c] =>
      exists s, frame, c; destruct (Main.handle_key a b c) as [[st2 evs] c2]
  end.
  injection H as <-. cbn. repeat split; auto.
Qed.

(** After an iteration the map holds what it held, and every pid shown. *)
Lemma iteration_prev_proc_time (CLK_TCK PAGE_SIZE : Z) (h : Host)
    (st : Main.LoopState) (step : Main.Step) :
  Main.iteration CLK_TCK PAGE_SIZE h st = Ok step ->
  forall q : Z,
    is_Some (Main.prev_proc_time (Main.state_after step) !! q) <->
    is_Some (Main.prev_proc_time st !! q) \/ In q (map pid (Main.snapshot step)).
Proof.
  intros H q.
  apply iteration_inv in H
    as (s & frame & st1 & Hs & Hsnap & _ & Hprev & _ & _ & _ & -> & _).
  apply sample_inv in Hs as (raw & _ & Hup & _).
  rewrite handle_key_prev_proc_time, Hprev, (updated_dom _ _ _ _ _ _ _ _ Hup q).
  rewrite <- (updated_pids _ _ _ _ _ _ _ _ Hup).
  assert (Hperm : Permutation (map pid (Main.procs s)) (map pid (Main.snapshot step))).
  { rewrite Hsnap. apply Permutation_map. apply std_sort_perm. }
  split; (intros [ Hl | Hr ]; [ left; exact Hl | right ]).
  - eapply Permutation_in; [ exact Hperm | exact Hr ].
  - eapply Permutation_in; [ symmetry; exact Hperm | exact Hr ].
Qed.

Lemma iteration_snapshot_sorted (CLK_TCK PAGE_SIZE : Z) (h : Host)
    (st : Main.LoopState) (step : Main.Step) :
  Main.iteration CLK_TCK PAGE_SIZE h st = Ok step ->
  exists s,
    Main.sample CLK_TCK PAGE_SIZE h st = Ok s /\
    Aggregator.std_sort_post (Aggregator.comparator (Main.sort_mode st))
      (Main.procs s) (Main.snapshot step).
Proof.
  intros H. apply iteration_inv in H as (s & frame & st1 & Hs & -> & _).
  exists s. split; [ exact Hs | apply comparator_sort_post ].
Qed.

(** C5. Let a stand before b in the list the program's sort leaves for
    [procs], which holds the processes of [procs] and no others.  Mode 0
    (CPU): cpu_pct a >= cpu_pct b, and pid a <= pid b when the two are equal.
    Mode 1 (MEM): the same on mem_pct.  Mode 2 (PID): pid a <= pid b, and
    pid a < pid b when the pids of [procs] are pairwise distinct.  That list
    is the snapshot every completed iteration displays, for the processes
    the iteration sampled and the sort mode it started with. *)
Theorem C5_sort_orders (procs : list Proc) (mode : Z) (i j : nat) (a b : Proc) :
  (i < j)%nat ->
  Aggregator.std_sort (Aggregator.comparator mode) procs !! i = Some a ->
  Aggregator.std_sort (Aggregator.comparator mode) procs !! j = Some b ->
  Permutation procs (Aggregator.std_sort (Aggregator.comparator mode) procs) /\
  (mode = 0 ->
     (cpu_pct b <= cpu_pct a)%Q /\ ((cpu_pct a == cpu_pct b)%Q -> pid a <= pid b)) /\
  (mode = 1 ->
     (mem_pct b <= mem_pct a)%Q /\ ((mem_pct a == mem_pct b)%Q -> pid a <= pid b)) /\
  (mode = 2 ->
     pid a <= pid b /\ (NoDup (map pid procs) -> pid a < pid b)) /\
  (forall CLK_TCK PAGE_SIZE h st step,
     Main.sort_mode st = mode ->
     Main.iteration CLK_TCK PAGE_SIZE h st = Ok step ->
     exists s,
       Main.sample CLK_TCK PAGE_SIZE h st = Ok s /\
       Main.snapshot step
       = Aggregator.std_sort (Aggregator.comparator mode) (Main.procs s)).
Proof.
  intros Hij Ha Hb.
  pose proof (comparator_sort_post mode procs) as Hpost.
  destruct (sort_post_orders procs
              (Aggregator.std_sort (Aggregator.comparator mode) procs) i j a b
              Hij Ha Hb) as (Hcpu & Hmem & Hpid).
  split; [ exact (proj1 Hpost) | ].
  split; [ intros ->; exact (Hcpu Hpost) | ].
  split; [ intros ->; exact (Hmem Hpost) | ].
  split; [ intros ->; exact (Hpid Hpost) | ].
  intros CLK_TCK PAGE_SIZE h st step Hmode Hstep.
  apply iteration_inv in Hstep as (s & frame & st1 & Hs & Hsnap & _).
  exists s. split; [ exact Hs | ]. rewrite Hsnap, Hmode. reflexivity.
Qed.

(** Three processes handed to the sort out of order, in each mode. *)
Lemma C5_sort_orders_witness :
  let p42 := set_mem_pct 10 (set_cpu_pct 50 (set_pid 42 Proc_default)) in
  let p7 := set_mem_pct (1 # 5) (set_pid 7 Proc_default) in
  let p9 := set_pid 9 Proc_default in
  let procs := [p9; p42; p7] in
  (Aggregator.std_sort (Aggregator.comparator 0) procs = [p42; p7; p9] /\
   (cpu_pct p9 <= cpu_pct p7)%Q /\ ((cpu_pct p7 == cpu_pct p9)%Q -> pid p7 <= pid p9)) /\
  (Aggregator.std_sort (Aggregator.comparator 1) procs = [p42; p7; p9] /\
   (mem_pct p7 <= mem_pct p42)%Q /\ ((mem_pct p42 == mem_pct p7)%Q -> pid p42 <= pid p7)) /\
  (Aggregator.std_sort (Aggregator.comparator 2) procs = [p7; p9; p42] /\
   pid p7 <= pid p42 /\ pid p7 < pid p42).
Proof.
  intros p42 p7 p9 procs.
  assert (Hnodup : NoDup (map pid procs))
    by (apply NoDup_ListNoDup; repeat constructor; cbn; intuition discriminate).
  destruct (C5_sort_orders procs 0 1 2 p7 p9) as (_ & Hcpu & _);
    [ lia | reflexivity | reflexivity | ].
  destruct (C5_sort_orders procs 1 0 1 p42 p7) as (_ & _ & Hmem & _);
    [ lia | reflexivity | reflexivity | ].
  destruct (C5_sort_orders procs 2 0 2 p7 p42) as (_ & _ & _ & Hpid & _);
    [ lia | reflexivity | reflexivity | ].
  split; [ split; [ reflexivity | exact (Hcpu eq_refl) ] | ].
  split; [ split; [ reflexivity | exact (Hmem eq_refl) ] | ].
  split; [ reflexivity | ].
  destruct (Hpid eq_refl) as [Hle Hlt]. split; [ exact Hle | exact (Hlt Hnodup) ].
Defined.

Lemma iteration_cpu_nonneg (CLK_TCK PAGE_SIZE : Z) (h : Host)
    (st : Main.LoopState) (step : Main.Step) :
  0 < CLK_TCK ->
  Main.iteration CLK_TCK PAGE_SIZE h st = Ok step ->
  forall p, In p (Main.snapshot step) -> (0 <= cpu_pct p)%Q.
Proof.
  intros Hclk H p Hp.
  apply iteration_inv in H as (s & frame & st1 & Hs & Hsnap & _).
  apply sample_inv in Hs as (raw & _ & Hup & _).
  eapply updated_cpu_nonneg;
    [ exact Hclk | apply fallback_interval_pos | exact Hup | ].
  rewrite Hsnap in Hp.
  eapply Permutation_in; [ symmetry; apply std_sort_perm | exact Hp ].
Qed.

Lemma draw_frame_indicator (h : Host) (mode : Z) (s : Main.Sample)
    (sorted : list Proc) (frame evs : list Event) :
  Main.draw_frame h mode s sorted = Ok frame ->
  Spec.displayed_indicator (frame ++ evs)
  = Some (Aggregator.cpu_indicator (Main.total_time_delta s) sorted).
Proof.
  unfold Main.draw_frame. intros H.
  apply bind_Ok_inv in H as (cpu_bar & _ & H).
  apply bind_Ok_inv in H as (mem_fraction & _ & H).
  apply bind_Ok_inv in H as (mem_bar & _ & H).
  injection H as <-. reflexivity.
Qed.

Lemma draw_bar_no_kill (y x width : Z) (fraction : Q) (cells : list Event)
    (p sig : Z) :
  draw_bar y x width fraction = Ok cells -> ~ In (kill p sig) cells.
Proof.
  unfold draw_bar. intros H Hin.
  apply bind_Ok_inv in H as (filled & _ & H). injection H as <-.
  apply in_map_iff in Hin as (i & Hi & _). discriminate Hi.
Qed.

Lemma draw_rows_no_kill (row : Z) (max_rows : nat) (procs : list Proc)
    (p sig : Z) :
  ~ In (kill p sig) (draw_rows row max_rows procs).
Proof.
  revert row procs. induction max_rows as [ | n IH ]; intros row procs Hin.
  - destruct Hin.
  - destruct procs as [ | q rest ]; [ destruct Hin | ].
    cbn [draw_rows In] in Hin.
    destruct Hin as [ Hq | Hin ]; [ discriminate Hq | exact (IH _ _ Hin) ].
Qed.

(** Drawing a frame sends no signal. *)
Lemma draw_frame_no_kill (h : Host) (mode : Z) (s : Main.Sample)
    (sorted : list Proc) (frame : list Event) (p sig : Z) :
  Main.draw_frame h mode s sorted = Ok frame -> ~ In (kill p sig) frame.
Proof.
  unfold Main.draw_frame. intros H Hin.
  apply bind_Ok_inv in H as (cpu_bar & Hcpu & H).
  apply bind_Ok_inv in H as (mem_fraction & _ & H).
  apply bind_Ok_inv in H as (mem_bar & Hmem & H).
  injection H as <-.
  pose proof (draw_bar_no_kill _ _ _ _ _ p sig Hcpu) as Ncpu.
  pose proof (draw_bar_no_kill _ _ _ _ _ p sig Hmem) as Nmem.
  cbv zeta in Hin.
  repeat match type of Hin with
         | In _ (_ :: _) => destruct Hin as [ Hin | Hin ]; [ discriminate Hin | ]
         | In _ (_ ++ _) =>
             apply in_app_or in Hin as [ Hin | Hin ];
             [ first [ contradiction | exact (draw_rows_no_kill _ _ _ _ _ Hin) ] | ]
         end.
  destruct Hin.
Qed.

Lemma mem_pct_value (PAGE_SIZE rss_pages : Z) (mem_total_mb : Q) :
  exists v,
    DeltaEngine.compute_mem_pct PAGE_SIZE mem_total_mb rss_pages = Ok v /\
    ((0 < mem_total_mb)%Q ->
       (v == Spec.resident_bytes PAGE_SIZE rss_pages
             / Spec.mem_total_bytes mem_total_mb * 100)%Q) /\
    ((mem_total_mb <= 0)%Q -> v = 0%Q).
Proof.
  unfold DeltaEngine.compute_mem_pct.
  rewrite div_nonzero by (intro H; lra).
  cbn [mbind outcome_bind].
  destruct (Double.ltb 0 mem_total_mb) eqn:E.
  - apply ltb_lt in E.
    rewrite div_nonzero by (intro H; lra).
    cbn [mbind outcome_bind]. eexists. split; [ reflexivity | ].
    split; [ | intros H; lra ].
    intros _. unfold Spec.resident_bytes, Spec.mem_total_bytes, Double.of_int.
    rewrite inject_Z_mult. field. lra.
  - apply ltb_ge in E. exists 0%Q. split; [ reflexivity | ].
    split; [ intros H; lra | reflexivity ].
Qed.

Lemma iteration_mem_pct (CLK_TCK PAGE_SIZE : Z) (h : Host)
    (st : Main.LoopState) (step : Main.Step) :
  Main.iteration CLK_TCK PAGE_SIZE h st = Ok step ->
  forall p, In p (Main.snapshot step) ->
    DeltaEngine.compute_mem_pct PAGE_SIZE
      (SnapshotReader.total_mb (SnapshotReader.read_mem_info h)) (rss_pages p)
    = Ok (mem_pct p).
Proof.
  intros H p Hp.
  apply iteration_inv in H as (s & frame & st1 & Hs & Hsnap & _).
  apply sample_inv in Hs as (raw & _ & Hup & _).
  eapply updated_mem_pct; [ exact Hup | ].
  rewrite Hsnap in Hp.
  eapply Permutation_in; [ symmetry; apply std_sort_perm | exact Hp ].
Qed.

(** C6. For every resident size and every total, the memory percentage is
    computed without a zero divisor; it is
    resident_bytes / mem_total_bytes * 100 when the total is positive and
    exactly 0 when the total is 0 (or below).  Every process of a snapshot
    carries the percentage so computed from its resident pages and the
    total of [/proc/meminfo]. *)
Theorem C6_mem_pct (CLK_TCK PAGE_SIZE : Z) (h : Host) (st : Main.LoopState) :
  (forall (rss_pages : Z) (mem_total_mb : Q),
     exists v,
       DeltaEngine.compute_mem_pct PAGE_SIZE mem_total_mb rss_pages = Ok v /\
       ((0 < mem_total_mb)%Q ->
          (v == Spec.resident_bytes PAGE_SIZE rss_pages
                / Spec.mem_total_bytes mem_total_mb * 100)%Q) /\
       ((mem_total_mb == 0)%Q -> v = 0%Q)) /\
  (forall step, Main.iteration CLK_TCK PAGE_SIZE h st = Ok step ->
     forall p, In p (Main.snapshot step) ->
       let mem_total_mb := SnapshotReader.total_mb (SnapshotReader.read_mem_info h) in
       ((0 < mem_total_mb)%Q ->
          (mem_pct p == Spec.resident_bytes PAGE_SIZE (rss_pages p)
                        / Spec.mem_total_bytes mem_total_mb * 100)%Q) /\
       ((mem_total_mb == 0)%Q -> mem_pct p = 0%Q)).
Proof.
  split.
  - intros rss_pages mem_total_mb.
    destruct (mem_pct_value PAGE_SIZE rss_pages mem_total_mb) as (v & Hv & Hpos & Hzero).
    exists v. split; [ exact Hv | ]. split; [ exact Hpos | ].
    intros H. apply Hzero. lra.
  - intros step Hstep p Hp mem_total_mb.
    pose proof (iteration_mem_pct _ _ _ _ _ Hstep p Hp) as Hcomp.
    fold mem_total_mb in Hcomp.
    destruct (mem_pct_value PAGE_SIZE (rss_pages p) mem_total_mb)
      as (v & Hv & Hpos & Hzero).
    rewrite Hv in Hcomp. injection Hcomp as <-.
    split; [ exact Hpos | ]. intros H. apply Hzero. lra.
Qed.

(** C2 (as the code has it).  The displayed indicator is the sum of cpu_pct
    over the processes of the snapshot when the aggregate tick counter of
    [/proc/stat] has advanced since the previous iteration, and 0 when it has
    not. *)
Theorem C2_indicator_guarded (CLK_TCK PAGE_SIZE : Z) (h : Host)
    (st : Main.LoopState) (step : Main.Step) :
  is_ull (Main.prev_total_time st) ->
  Main.iteration CLK_TCK PAGE_SIZE h st = Ok step ->
  (Main.prev_total_time st < SnapshotReader.read_total_time_from_proc_stat h ->
     Spec.displayed_indicator (Main.events step)
     = Some (Aggregator.sum_proc_cpu (Main.snapshot step))) /\
  (SnapshotReader.read_total_time_from_proc_stat h <= Main.prev_total_time st ->
     Spec.displayed_indicator (Main.events step) = Some 0%Q).
Proof.
  intros Hprev H.
  apply iteration_inv in H
    as (s & frame & st1 & Hs & _ & Hframe & _ & _ & _ & -> & _).
  rewrite (draw_frame_indicator _ _ _ _ _ _ Hframe).
  apply sample_inv in Hs as (_ & _ & _ & Hdelta & _).
  rewrite Hdelta. unfold Aggregator.cpu_indicator.
  pose proof (read_total_time_range h) as Hnow.
  unfold is_ull, ULLONG_MOD in *.
  split; intros Hcmp.
  - destruct (Z.ltb_spec (Main.prev_total_time st)
                (SnapshotReader.read_total_time_from_proc_stat h)); [ | lia ].
    unfold wrap64, ULLONG_MOD. rewrite Z.mod_small by lia.
    destruct (Z.ltb_spec 0 (SnapshotReader.read_total_time_from_proc_stat h
                            - Main.prev_total_time st)); [ reflexivity | lia ].
  - destruct (Z.ltb_spec (Main.prev_total_time st)
                (SnapshotReader.read_total_time_from_proc_stat h)); [ lia | ].
    reflexivity.
Qed.

(** The counter of [/proc/stat] has advanced: the frame shows the sum, 50. *)
Lemma C2_indicator_guarded_witness :
  exists step,
    Main.iteration Scenario.CLK_TCK Scenario.PAGE_SIZE Scenario.host_B
      Scenario.state_after_A_no_proc_stat = Ok step /\
    Spec.displayed_indicator (Main.events step)
    = Some (Aggregator.sum_proc_cpu (Main.snapshot step)) /\
    (Aggregator.sum_proc_cpu (Main.snapshot step) == 50)%Q.
Proof.
  destruct (Main.iteration Scenario.CLK_TCK Scenario.PAGE_SIZE Scenario.host_B
              Scenario.state_after_A_no_proc_stat) as [ step | e ] eqn:E;
    [ | vm_compute in E; discriminate E ].
  exists step. split; [ reflexivity | ].
  destruct (C2_indicator_guarded Scenario.CLK_TCK Scenario.PAGE_SIZE
              Scenario.host_B Scenario.state_after_A_no_proc_stat step)
    as [Hadv _]; [ vm_compute; split; [ discriminate | reflexivity ] | exact E | ].
  split; [ apply Hadv; reflexivity | ].
  vm_compute in E. injection E as <-. reflexivity.
Defined.

(** C2 (as stated) fails.  [/proc/stat] cannot be read, so the aggregate
    counter stays 0; pid 42 has used 50 ticks in the last second.  The
    snapshot sums to 50; the frame shows 0. *)
Lemma C2_indicator_not_sum :
  ~ Spec.indicator_is_sum Scenario.CLK_TCK Scenario.PAGE_SIZE
      Scenario.host_B_no_proc_stat Scenario.state_after_A_no_proc_stat /\
  exists step,
    Main.iteration Scenario.CLK_TCK Scenario.PAGE_SIZE
      Scenario.host_B_no_proc_stat Scenario.state_after_A_no_proc_stat = Ok step /\
    Spec.displayed_indicator (Main.events step) = Some 0%Q /\
    (Aggregator.sum_proc_cpu (Main.snapshot step) == 50)%Q.
Proof.
  destruct (Main.iteration Scenario.CLK_TCK Scenario.PAGE_SIZE
              Scenario.host_B_no_proc_stat Scenario.state_after_A_no_proc_stat)
    as [ step | e ] eqn:E; [ | vm_compute in E; discriminate E ].
  assert (Hshown : Spec.displayed_indicator (Main.events step) = Some 0%Q)
    by (vm_compute in E; injection E as <-; reflexivity).
  assert (Hsum : (Aggregator.sum_proc_cpu (Main.snapshot step) == 50)%Q)
    by (vm_compute in E; injection E as <-; reflexivity).
  split.
  - unfold Spec.indicator_is_sum. intros H.
    destruct (H step E) as (c & Hc & Hcsum).
    rewrite Hshown in Hc. injection Hc as <-.
    rewrite Hsum in Hcsum. discriminate Hcsum.
  - exists step. split; [ reflexivity | split; assumption ].
Qed.

(** C7 (as stated) fails: a measured interval of one nanosecond is not
    replaced by the fallback; the loop computes with the nanosecond. *)
Lemma C7_small_interval_kept :
  ~ Spec.small_interval_replaced Spec.one_nanosecond /\
  DeltaEngine.fallback_interval Spec.one_nanosecond = Spec.one_nanosecond.
Proof.
  split; [ | reflexivity ].
  unfold Spec.small_interval_replaced. intros H. vm_compute in H. discriminate H.
Qed.

(** C7 (as the code has it).  The fallback 1.0 replaces the measured interval
    exactly when that interval is non-positive; every positive interval,
    however small, is used as measured.  The interval used is positive, the
    CPU percentage computed from it is never negative, and no process of a
    snapshot carries a negative percentage. *)
Theorem C7_interval_fallback (CLK_TCK PAGE_SIZE : Z) (h : Host)
    (st : Main.LoopState) :
  0 < CLK_TCK ->
  ((elapsed h <= 0)%Q -> DeltaEngine.fallback_interval (elapsed h) = 1%Q) /\
  ((0 < elapsed h)%Q -> DeltaEngine.fallback_interval (elapsed h) = elapsed h) /\
  (0 < DeltaEngine.fallback_interval (elapsed h))%Q /\
  (forall t1 prev, exists c,
     DeltaEngine.compute_cpu_pct CLK_TCK (DeltaEngine.fallback_interval (elapsed h))
       (DeltaEngine.delta_ticks t1 prev) = Ok c /\
     (0 <= c)%Q) /\
  (forall step, Main.iteration CLK_TCK PAGE_SIZE h st = Ok step ->
     forall p, In p (Main.snapshot step) -> (0 <= cpu_pct p)%Q).
Proof.
  intros Hclk. split; [ | split; [ | split; [ | split ] ] ].
  - intros H. unfold DeltaEngine.fallback_interval.
    apply leb_le in H. rewrite H. reflexivity.
  - intros H. unfold DeltaEngine.fallback_interval.
    apply leb_gt in H. rewrite H. reflexivity.
  - apply fallback_interval_pos.
  - intros t1 prev. eexists. split.
    + apply compute_cpu_pct_value; [ exact Hclk | apply fallback_interval_pos ].
    + apply cpu_pct_formula_nonneg;
        [ exact Hclk | apply fallback_interval_pos | apply delta_ticks_nonneg ].
  - intros step. apply iteration_cpu_nonneg. exact Hclk.
Qed.

(** 100 ticks per second and a measured interval of 1/1024 s. *)
Lemma C7_interval_fallback_witness :
  DeltaEngine.fallback_interval (elapsed Scenario.host_C) = (1 # 1024)%Q /\
  (exists c,
     DeltaEngine.compute_cpu_pct Scenario.CLK_TCK
       (DeltaEngine.fallback_interval (elapsed Scenario.host_C))
       (DeltaEngine.delta_ticks 170 150) = Ok c /\ (0 <= c)%Q) /\
  (forall step,
     Main.iteration Scenario.CLK_TCK Scenario.PAGE_SIZE Scenario.host_C
       (Main.initial_state Scenario.host_A) = Ok step ->
     forall p, In p (Main.snapshot step) -> (0 <= cpu_pct p)%Q).
Proof.
  destruct (C7_interval_fallback Scenario.CLK_TCK Scenario.PAGE_SIZE
              Scenario.host_C (Main.initial_state Scenario.host_A))
    as (_ & Hpos & _ & Hc & Hit); [ reflexivity | ].
  split; [ apply Hpos; reflexivity | ].
  split; [ apply Hc | exact Hit ].
Defined.

(** C8. In the kill sub-flow a line that parses to a value <= 0 sends no
    signal; a non-numeric line parses to 0; whenever a signal is sent it is
    SIGTERM to the parsed value, which is then > 0, and a value > 0 does get
    its signal.  In a whole iteration no signal is sent anywhere else: every
    signal of the iteration comes from the kill sub-flow, for a parsed value
    > 0. *)
Theorem C8_kill_only_positive (CLK_TCK PAGE_SIZE : Z) (h : Host) (rows : Z)
    (t : Terminal) (st : Main.LoopState) :
  let okpid := atoi (read_buf h) in
  let evs := snd (kill_subflow h rows t) in
  (okpid <= 0 -> forall p sig, ~ In (kill p sig) evs) /\
  (Spec.non_numeric (read_buf h) -> okpid = 0) /\
  (forall p sig, In (kill p sig) evs -> 0 < okpid /\ p = okpid /\ sig = SIGTERM) /\
  (0 < okpid -> In (kill okpid SIGTERM) evs) /\
  (forall step, Main.iteration CLK_TCK PAGE_SIZE h st = Ok step ->
     forall p sig, In (kill p sig) (Main.events step) ->
       Main.key_is (key h) "k" "K" = true /\
       0 < okpid /\ p = okpid /\ sig = SIGTERM).
Proof.
  intros okpid evs.
  destruct (kill_subflow_kill h rows t) as (H1 & H2 & H3 & H4).
  split; [ exact H1 | ]. split; [ exact H2 | ].
  split; [ exact H3 | ]. split; [ exact H4 | ].
  intros step Hstep p sig Hin.
  apply iteration_inv in Hstep
    as (s & frame & st1 & _ & _ & Hframe & _ & _ & _ & Hev & _).
  rewrite Hev in Hin. apply in_app_or in Hin as [ Hin | Hin ].
  - exfalso. exact (draw_frame_no_kill _ _ _ _ _ _ _ Hframe Hin).
  - apply handle_key_kill in Hin as [Hk Hin]. split; [ exact Hk | ].
    destruct (kill_subflow_kill h (screen_rows h) (Main.term st1)) as (_ & _ & H3' & _).
    exact (H3' p sig Hin).
Qed.

(** ** The session *)

Lemma run_cons_inv (CLK_TCK PAGE_SIZE : Z) (h : Host) (rest : list Host)
    (st : Main.LoopState) (k : nat) (sk : Main.Step) :
  Main.run CLK_TCK PAGE_SIZE (h :: rest) st !! k = Some sk ->
  exists step,
    Main.iteration CLK_TCK PAGE_SIZE h st = Ok step /\
    match k with
    | O => sk = step
    | S k' => Main.run CLK_TCK PAGE_SIZE rest (Main.state_after step) !! k' = Some sk
    end.
Proof.
  cbn [Main.run].
  destruct (Main.iteration CLK_TCK PAGE_SIZE h st) as [step | e];
    [ | intros H; destruct k; discriminate H ].
  intros H. exists step. split; [ reflexivity | ].
  destruct (Main.ctl step); destruct k as [ | k' ]; cbn in H.
  - injection H as <-. reflexivity.
  - exact H.
  - injection H as <-. reflexivity.
  - destruct k'; discriminate H.
Qed.

Lemma run_keeps_entries (CLK_TCK PAGE_SIZE : Z) (hosts : list Host) :
  forall (st : Main.LoopState) (k : nat) (sk : Main.Step),
    Main.run CLK_TCK PAGE_SIZE hosts st !! k = Some sk ->
    forall q : Z,
      is_Some (Main.prev_proc_time st !! q) ->
      is_Some (Main.prev_proc_time (Main.state_after sk) !! q).
Proof.
  induction hosts as [ | h rest IH ]; intros st k sk Hk q Hq.
  - destruct k; discriminate Hk.
  - apply run_cons_inv in Hk as (step & Hit & Hk).
    pose proof (iteration_prev_proc_time _ _ _ _ _ Hit q) as Hstep.
    destruct k as [ | k' ].
    + subst sk. apply Hstep. left. exact Hq.
    + eapply IH; [ exact Hk | ]. apply Hstep. left. exact Hq.
Qed.

(** C9. At the end of every completed iteration the prior-state map has an
    entry for every pid of every snapshot taken so far in the run, and every
    entry present earlier (at the start, or after an earlier iteration) is
    still present. *)
Theorem C9_prior_state_grows (CLK_TCK PAGE_SIZE : Z) (hosts : list Host)
    (st : Main.LoopState) (j k : nat) (sj sk : Main.Step) :
  (j <= k)%nat ->
  Main.run CLK_TCK PAGE_SIZE hosts st !! j = Some sj ->
  Main.run CLK_TCK PAGE_SIZE hosts st !! k = Some sk ->
  (forall p, In p (Main.snapshot sj) ->
     is_Some (Main.prev_proc_time (Main.state_after sk) !! pid p)) /\
  (forall q : Z, is_Some (Main.prev_proc_time (Main.state_after sj) !! q) ->
     is_Some (Main.prev_proc_time (Main.state_after sk) !! q)) /\
  (forall q : Z, is_Some (Main.prev_proc_time st !! q) ->
     is_Some (Main.prev_proc_time (Main.state_after sk) !! q)).
Proof.
  revert st j k. induction hosts as [ | h rest IH ]; intros st j k Hjk Hj Hk.
  - destruct j; discriminate Hj.
  - pose proof (run_keeps_entries _ _ _ _ _ _ Hk) as Hkeep.
    apply run_cons_inv in Hj as (step & Hit & Hj).
    apply run_cons_inv in Hk as (step' & Hit' & Hk).
    rewrite Hit in Hit'. injection Hit' as <-.
    pose proof (iteration_prev_proc_time _ _ _ _ _ Hit) as Hstep.
    destruct j as [ | j' ].
    + subst sj.
      assert (Hafter : forall q : Z,
                 is_Some (Main.prev_proc_time (Main.state_after step) !! q) ->
                 is_Some (Main.prev_proc_time (Main.state_after sk) !! q)).
      { destruct k as [ | k' ]; [ subst sk; auto | ].
        intros q Hq. eapply run_keeps_entries; [ exact Hk | exact Hq ]. }
      split; [ | split; [ exact Hafter | exact Hkeep ] ].
      intros p Hp. apply Hafter. apply Hstep. right.
      apply in_map. exact Hp.
    + destruct k as [ | k' ]; [ lia | ].
      destruct (IH (Main.state_after step) j' k') as (H1 & H2 & _);
        [ lia | exact Hj | exact Hk | ].
      split; [ exact H1 | split; [ exact H2 | exact Hkeep ] ].
Qed.

(** Three iterations; pid 7 is in the first snapshot only and still has its
    entry after the third. *)
Lemma C9_prior_state_grows_witness :
  exists sA sC,
    Main.run Scenario.CLK_TCK Scenario.PAGE_SIZE
      [Scenario.host_A; Scenario.host_B; Scenario.host_C]
      (Main.initial_state Scenario.host_A) !! 0%nat = Some sA /\
    Main.run Scenario.CLK_TCK Scenario.PAGE_SIZE
      [Scenario.host_A; Scenario.host_B; Scenario.host_C]
      (Main.initial_state Scenario.host_A) !! 2%nat = Some sC /\
    map pid (Main.snapshot sA) = [7; 42] /\
    map pid (Main.snapshot sC) = [42; 9] /\
    forall p, In p (Main.snapshot sA) ->
      is_Some (Main.prev_proc_time (Main.state_after sC) !! pid p).
Proof.
  destruct (Main.run Scenario.CLK_TCK Scenario.PAGE_SIZE
              [Scenario.host_A; Scenario.host_B; Scenario.host_C]
              (Main.initial_state Scenario.host_A)) as [ | sA [ | sB [ | sC rest ] ] ] eqn:E;
    try (vm_compute in E; discriminate E).
  exists sA, sC.
  split; [ reflexivity | ]. split; [ reflexivity | ].
  split; [ vm_compute in E; injection E as <- _ _ _; reflexivity | ].
  split; [ vm_compute in E; injection E as _ _ <- _; reflexivity | ].
  apply (C9_prior_state_grows Scenario.CLK_TCK Scenario.PAGE_SIZE
           [Scenario.host_A; Scenario.host_B; Scenario.host_C]
           (Main.initial_state Scenario.host_A) 0 2 sA sC);
    [ lia | rewrite E; reflexivity | rewrite E; reflexivity ].
Defined.

(** ** The embedding on the worked examples of the specification *)

(** 100 ticks per second, 100 then 150 ticks one second apart: 50 percent. *)
Example cpu_pct_of_fifty_ticks :
  DeltaEngine.compute_cpu_pct 100 (DeltaEngine.fallback_interval 1)
    (DeltaEngine.delta_ticks 150 100) = Ok (50 / 100 / 1 * 100)%Q.
Proof. reflexivity. Qed.

(** 1000 MB in total, 25600 resident pages of 4096 bytes: 10 percent. *)
Example mem_pct_of_hundred_mb :
  exists v, DeltaEngine.compute_mem_pct 4096 1000 25600 = Ok v /\ (v == 10)%Q.
Proof. eexists. split; reflexivity. Qed.

(** Three presses of [s] bring the sort mode back to 0 through 1 and 2. *)
Example sort_mode_cycle (h : Host) (rows : Z) (st : Main.LoopState) :
  Main.key_is (key h) "s" "S" = true ->
  Main.sort_mode st = 0 ->
  let st1 := fst (fst (Main.handle_key h rows st)) in
  let st2 := fst (fst (Main.handle_key h rows st1)) in
  let st3 := fst (fst (Main.handle_key h rows st2)) in
  Main.sort_mode st1 = 1 /\ Main.sort_mode st2 = 2 /\ Main.sort_mode st3 = 0.
Proof.
  intros Hs H0. apply key_is_spec in Hs as Hs'.
  assert (Hq : Main.key_is (key h) "q" "Q" = false) by other_key.
  unfold Main.handle_key. rewrite Hq, Hs. cbn. rewrite H0. repeat split.
Qed.

(** The parsers on typical input. *)
Example atoi_examples :
  atoi "42" = 42 /\ atoi "  -7x" = -7 /\ atoi "abc" = 0 /\ atoi "" = 0 /\
  atoi "99999999999999999999" = -1.
Proof. repeat split. Qed.

Example stoull_examples :
  stoull "150" = Ok 150 /\ stoull "-" = Raise invalid_argument /\
  stoull "(cat)" = Raise invalid_argument /\
  stoull "18446744073709551616" = Raise out_of_range.
Proof. repeat split. Qed.

Example tokens_example :
  tokens "42 (a b)  R" = ["42"; "(a"; "b)"; "R"]%string.
Proof. reflexivity. Qed.

(** The local [filled] of [draw_bar] may be negative; the cells drawn are
    counted by the loop, and none is filled then. *)
Example draw_bar_negative_fraction :
  Double.to_int ((-1 # 2) * Double.of_int 20 + (1 # 2)) = Ok (-9) /\
  exists cells, draw_bar 0 0 20 (-1 # 2) = Ok cells /\ filled_cells cells = 0.
Proof. split; [ reflexivity | eexists; split; reflexivity ]. Qed.

(** * Further properties of the program *)

(** ** The sort mode *)

Lemma handle_key_sort_mode (h : Host) (rows : Z) (st : Main.LoopState) :
  Main.sort_mode (fst (fst (Main.handle_key h rows st)))
  = if negb (Main.key_is (key h) "q" "Q") && Main.key_is (key h) "s" "S"
    then Z.rem (Main.sort_mode st + 1) 3
    else Main.sort_mode st.
Proof.
  unfold Main.handle_key.
  destruct (Main.key_is (key h) "q" "Q"); [ reflexivity | ].
  destruct (Main.key_is (key h) "s" "S"); [ reflexivity | ].
  destruct (Main.key_is (key h) "k" "K"); [ | reflexivity ].
  destruct (kill_subflow h rows (Main.term st)). reflexivity.
Qed.

Lemma key_s_not_q (h : Host) :
  Main.key_is (key h) "s" "S" = true -> Main.key_is (key h) "q" "Q" = false.
Proof. intros Hs. apply key_is_spec in Hs. other_key. Qed.

Lemma draw_frame_label (h : Host) (mode : Z) (s : Main.Sample)
    (sorted : list Proc) (frame : list Event) :
  Main.draw_frame h mode s sorted = Ok frame ->
  In (mvprintw 1 0 (SortLabel mode)) frame.
Proof.
  unfold Main.draw_frame. intros H.
  apply bind_Ok_inv in H as (cpu_bar & _ & H).
  apply bind_Ok_inv in H as (mem_fraction & _ & H).
  apply bind_Ok_inv in H as (mem_bar & _ & H).
  injection H as <-. cbv zeta. cbn [app In]. auto.
Qed.

(** X1. In an iteration that starts in sort mode m (0, 1 or 2): the frame is
    labelled and ordered by m; the mode after the iteration is m + 1 modulo 3
    when the key is [s] or [S], and m for every other key; it is again one of
    0, 1, 2. *)
Theorem X1_sort_mode_step (CLK_TCK PAGE_SIZE : Z) (h : Host)
    (st : Main.LoopState) (step : Main.Step) :
  0 <= Main.sort_mode st <= 2 ->
  Main.iteration CLK_TCK PAGE_SIZE h st = Ok step ->
  In (mvprintw 1 0 (SortLabel (Main.sort_mode st))) (Main.events step) /\
  (exists s, Main.sample CLK_TCK PAGE_SIZE h st = Ok s /\
     Aggregator.std_sort_post (Aggregator.comparator (Main.sort_mode st))
       (Main.procs s) (Main.snapshot step)) /\
  (Main.key_is (key h) "s" "S" = true ->
     Main.sort_mode (Main.state_after step) = (Main.sort_mode st + 1) mod 3) /\
  (Main.key_is (key h) "s" "S" = false ->
     Main.sort_mode (Main.state_after step) = Main.sort_mode st) /\
  0 <= Main.sort_mode (Main.state_after step) <= 2.
Proof.
  intros Hrange Hstep.
  pose proof (iteration_snapshot_sorted _ _ _ _ _ Hstep) as Hsorted.
  apply iteration_inv in Hstep
    as (s & frame & st1 & Hs & Hsnap & Hframe & _ & Hmode & _ & Hev & Hafter & _).
  assert (Hnew : Main.sort_mode (Main.state_after step)
                 = if negb (Main.key_is (key h) "q" "Q") && Main.key_is (key h) "s" "S"
                   then Z.rem (Main.sort_mode st + 1) 3
                   else Main.sort_mode st)
    by (rewrite Hafter, handle_key_sort_mode, Hmode; reflexivity).
  assert (Hrem : Z.rem (Main.sort_mode st + 1) 3 = (Main.sort_mode st + 1) mod 3)
    by (apply Z.rem_mod_nonneg; lia).
  split; [ rewrite Hev; apply in_or_app; left; eapply draw_frame_label; exact Hframe | ].
  split; [ exact Hsorted | ].
  split; [ | split ].
  - intros Hk. rewrite Hnew, (key_s_not_q h Hk), Hk. exact Hrem.
  - intros Hk. rewrite Hnew, Hk, andb_false_r. reflexivity.
  - rewrite Hnew. destruct (_ && _); [ | exact Hrange ].
    rewrite Hrem. pose proof (Z.mod_pos_bound (Main.sort_mode st + 1) 3). lia.
Qed.

(** The operator presses [s] in the first iteration of a session. *)
Lemma X1_sort_mode_step_witness :
  exists step,
    Main.iteration Scenario.CLK_TCK Scenario.PAGE_SIZE Scenario.host_S
      (Main.initial_state Scenario.host_A) = Ok step /\
    In (mvprintw 1 0 (SortLabel 0)) (Main.events step) /\
    Main.sort_mode (Main.state_after step) = 1.
Proof.
  destruct (Main.iteration Scenario.CLK_TCK Scenario.PAGE_SIZE Scenario.host_S
              (Main.initial_state Scenario.host_A)) as [ step | e ] eqn:E;
    [ | vm_compute in E; discriminate E ].
  exists step. split; [ reflexivity | ].
  destruct (X1_sort_mode_step Scenario.CLK_TCK Scenario.PAGE_SIZE Scenario.host_S
              (Main.initial_state Scenario.host_A) step)
    as (Hlabel & _ & Hs & _); [ cbn; lia | exact E | ].
  split; [ exact Hlabel | apply Hs; reflexivity ].
Defined.

(** ** What every state of a session satisfies *)

Lemma run_invariant (CLK_TCK PAGE_SIZE : Z) (P : Main.LoopState -> Prop) :
  (forall h st step, P st -> Main.iteration CLK_TCK PAGE_SIZE h st = Ok step ->
     P (Main.state_after step)) ->
  forall hosts st k sk,
    P st -> Main.run CLK_TCK PAGE_SIZE hosts st !! k = Some sk ->
    P (Main.state_after sk).
Proof.
  intros Hstep hosts. induction hosts as [ | h rest IH ]; intros st k sk HP Hk.
  - destruct k; discriminate Hk.
  - apply run_cons_inv in Hk as (step & Hit & Hk).
    pose proof (Hstep _ _ _ HP Hit) as HP'.
    destruct k as [ | k' ]; [ subst sk; exact HP' | ].
    eapply IH; [ exact HP' | exact Hk ].
Qed.

Lemma wrap64_is_ull (z : Z) : is_ull (wrap64 z).
Proof. unfold is_ull, wrap64, ULLONG_MOD. apply Z.mod_pos_bound. lia. Qed.

Lemma zero_is_ull : is_ull 0.
Proof. unfold is_ull, ULLONG_MOD. lia. Qed.

Lemma read_stat_time_range (h : Host) (pid0 : Z) (p p' : Proc) :
  is_ull (time p) ->
  SnapshotReader.read_stat_time h pid0 p = Ok p' -> is_ull (time p').
Proof.
  unfold SnapshotReader.read_stat_time. intros Hp H.
  destruct (SnapshotReader.string_empty _); [ injection H as <-; exact Hp | ].
  destruct (22 <=? _); [ | injection H as <-; exact Hp ].
  apply bind_Ok_inv in H as (utime & _ & H).
  apply bind_Ok_inv in H as (stime & _ & H).
  injection H as <-. apply wrap64_is_ull.
Qed.

Lemma read_rss_time (PAGE_SIZE : Z) (h : Host) (pid0 : Z) (p p' : Proc) :
  SnapshotReader.read_rss PAGE_SIZE h pid0 p = Ok p' -> time p' = time p.
Proof.
  unfold SnapshotReader.read_rss. intros H.
  destruct (SnapshotReader.string_empty _); [ | injection H as <-; reflexivity ].
  destruct (List.find _ _) as [ line | ]; [ | injection H as <-; reflexivity ].
  destruct (extract_token line) as [ k r | k | ]; try discriminate H.
  destruct (extract_long r) as [ kb r' | kb | ]; try discriminate H;
    apply bind_Ok_inv in H as (v & _ & H); injection H as <-; reflexivity.
Qed.

Lemma read_process_basic_time_range (PAGE_SIZE : Z) (h : Host) (pid0 : Z) (p : Proc) :
  SnapshotReader.read_process_basic PAGE_SIZE h pid0 = Ok p -> is_ull (time p).
Proof.
  unfold SnapshotReader.read_process_basic. intros H.
  apply bind_Ok_inv in H as (p1 & H1 & H2).
  apply read_stat_time_range in H1; [ | exact zero_is_ull ].
  apply read_rss_time in H2. rewrite H2. exact H1.
Qed.

Lemma read_entries_time_range (PAGE_SIZE : Z) (h : Host) (entries : list string)
    (procs : list Proc) :
  SnapshotReader.read_entries PAGE_SIZE h entries = Ok procs ->
  forall p, In p procs -> is_ull (time p).
Proof.
  revert procs. induction entries as [ | e rest IH ]; intros procs H p Hp.
  - injection H as <-. destruct Hp.
  - cbn [SnapshotReader.read_entries] in H.
    destruct (is_digits e); [ | exact (IH _ H _ Hp) ].
    apply bind_Ok_inv in H as (p0 & Hp0 & H).
    apply bind_Ok_inv in H as (ps & Hps & H).
    injection H as <-. destruct Hp as [ <- | Hp ].
    + eapply read_process_basic_time_range; exact Hp0.
    + exact (IH _ Hps _ Hp).
Qed.

Lemma get_all_processes_time_range (PAGE_SIZE : Z) (h : Host) (procs : list Proc) :
  SnapshotReader.get_all_processes PAGE_SIZE h = Ok procs ->
  forall p, In p procs -> is_ull (time p).
Proof.
  unfold SnapshotReader.get_all_processes.
  destruct (proc_entries h) as [ entries | ].
  - apply read_entries_time_range.
  - intros H p Hp. injection H as <-. destruct Hp.
Qed.

Lemma updated_values_range CLK_TCK PAGE_SIZE interval mem_total_mb m procs procs' m' :
  updated CLK_TCK PAGE_SIZE interval mem_total_mb m procs procs' m' ->
  (forall p, In p procs -> is_ull (time p)) ->
  (forall q t, m !! q = Some t -> is_ull t) ->
  forall q t, m' !! q = Some t -> is_ull t.
Proof.
  induction 1 as [ m | m p cpu mem rest rest' m' Hcpu Hmem Hup IH ];
    intros Hprocs Hm; [ exact Hm | ].
  apply IH.
  - intros p0 Hp0. apply Hprocs. right. exact Hp0.
  - intros q t. rewrite lookup_insert.
    destruct (decide (pid p = q)) as [ _ | _ ]; [ | apply Hm ].
    intros H. injection H as <-. apply Hprocs. left. reflexivity.
Qed.

Lemma handle_key_term (h : Host) (rows : Z) (st : Main.LoopState) :
  Main.term st = monitor_mode ->
  Main.term (fst (fst (Main.handle_key h rows st))) = monitor_mode.
Proof.
  intros Ht. unfold Main.handle_key.
  destruct (Main.key_is (key h) "q" "Q"); [ exact Ht | ].
  destruct (Main.key_is (key h) "s" "S"); [ exact Ht | ].
  destruct (Main.key_is (key h) "k" "K"); [ | exact Ht ].
  pose proof (kill_subflow_term h rows (Main.term st)) as Hk.
  destruct (kill_subflow h rows (Main.term st)) as [t evs]. exact Hk.
Qed.

Lemma handle_key_prev_total_time (h : Host) (rows : Z) (st : Main.LoopState) :
  Main.prev_total_time (fst (fst (Main.handle_key h rows st))) = Main.prev_total_time st.
Proof.
  unfold Main.handle_key.
  destruct (Main.key_is (key h) "q" "Q"); [ reflexivity | ].
  destruct (Main.key_is (key h) "s" "S"); [ reflexivity | ].
  destruct (Main.key_is (key h) "k" "K"); [ | reflexivity ].
  destruct (kill_subflow h rows (Main.term st)). reflexivity.
Qed.

(** [prev_total_time = total_time;] *)
Lemma iteration_prev_total_time (CLK_TCK PAGE_SIZE : Z) (h : Host)
    (st : Main.LoopState) (step : Main.Step) :
  Main.iteration CLK_TCK PAGE_SIZE h st = Ok step ->
  Main.prev_total_time (Main.state_after step)
  = SnapshotReader.read_total_time_from_proc_stat h.
Proof.
  unfold Main.iteration. intros H.
  apply bind_Ok_inv in H as (s & _ & H).
  apply bind_Ok_inv in H as (frame & _ & H).
  match type of H with
  | context [Main.handle_key ?a ?b ?c] =>
      pose proof (handle_key_prev_total_time a b c) as Hkeep;
      destruct (Main.handle_key a b c) as [[st2 evs] c2]
  end.
  injection H as <-. cbn in *. exact Hkeep.
Qed.

Lemma iteration_state_ok (CLK_TCK PAGE_SIZE : Z) (h : Host)
    (st : Main.LoopState) (step : Main.Step) :
  state_ok st -> Main.iteration CLK_TCK PAGE_SIZE h st = Ok step ->
  state_ok (Main.state_after step).
Proof.
  intros (Hterm & Hmode & Htotal & Hmap) Hstep.
  pose proof (iteration_prev_total_time _ _ _ _ _ Hstep) as Htot.
  apply iteration_inv in Hstep
    as (s & frame & st1 & Hs & _ & _ & Hprev & Hmode1 & Hterm1 & _ & Hafter & _).
  apply sample_inv in Hs as (raw & Hraw & Hup & _).
  assert (Hnew : 0 <= Main.sort_mode (Main.state_after step) <= 2).
  { rewrite Hafter, handle_key_sort_mode, Hmode1.
    destruct (_ && _); [ | lia ].
    rewrite Z.rem_mod_nonneg by lia.
    pose proof (Z.mod_pos_bound (Main.sort_mode st + 1) 3). lia. }
  split; [ rewrite Hafter; apply handle_key_term; rewrite Hterm1; exact Hterm | ].
  split; [ exact Hnew | ].
  split; [ rewrite Htot; apply read_total_time_range | ].
  intros q t. rewrite Hafter, handle_key_prev_proc_time, Hprev.
  eapply updated_values_range; [ exact Hup | | exact Hmap ].
  eapply get_all_processes_time_range. exact Hraw.
Qed.

Lemma initial_state_ok (h0 : Host) : state_ok (Main.initial_state h0).
Proof.
  split; [ reflexivity | ]. split; [ cbn; lia | ].
  split; [ apply read_total_time_range | ].
  intros q t H. cbn in H. rewrite lookup_empty in H. discriminate H.
Qed.

(** X2. In a session started by [main], after every completed iteration:
    input is non-blocking with echo off and the cursor hidden, the sort mode
    is 0, 1 or 2, and the stored aggregate counter and every stored
    per-process tick count are values of [unsigned long long]. *)
Theorem X2_session_state (CLK_TCK PAGE_SIZE : Z) (h0 : Host) (hosts : list Host)
    (k : nat) (sk : Main.Step) :
  Main.run CLK_TCK PAGE_SIZE hosts (Main.initial_state h0) !! k = Some sk ->
  nodelay_on (Main.term (Main.state_after sk)) = true /\
  echo_on (Main.term (Main.state_after sk)) = false /\
  cursor (Main.term (Main.state_after sk)) = 0 /\
  0 <= Main.sort_mode (Main.state_after sk) <= 2 /\
  is_ull (Main.prev_total_time (Main.state_after sk)) /\
  (forall q t, Main.prev_proc_time (Main.state_after sk) !! q = Some t -> is_ull t).
Proof.
  intros Hk.
  destruct (run_invariant CLK_TCK PAGE_SIZE state_ok
              (iteration_state_ok CLK_TCK PAGE_SIZE)
              hosts _ k sk (initial_state_ok h0) Hk)
    as (Hterm & Hmode & Htotal & Hmap).
  rewrite Hterm.
  split; [ reflexivity | ]. split; [ reflexivity | ]. split; [ reflexivity | ].
  split; [ exact Hmode | ]. split; [ exact Htotal | exact Hmap ].
Qed.

(** Three iterations, the last with a kill typed. *)
Lemma X2_session_state_witness :
  exists sk,
    Main.run Scenario.CLK_TCK Scenario.PAGE_SIZE
      [Scenario.host_A; Scenario.host_S; Scenario.host_C]
      (Main.initial_state Scenario.host_A) !! 2%nat = Some sk /\
    Main.term (Main.state_after sk) = monitor_mode /\
    Main.sort_mode (Main.state_after sk) = 1.
Proof.
  destruct (Main.run Scenario.CLK_TCK Scenario.PAGE_SIZE
              [Scenario.host_A; Scenario.host_S; Scenario.host_C]
              (Main.initial_state Scenario.host_A) !! 2%nat) as [ sk | ] eqn:E;
    [ | vm_compute in E; discriminate E ].
  exists sk. split; [ reflexivity | ].
  destruct (X2_session_state Scenario.CLK_TCK Scenario.PAGE_SIZE Scenario.host_A
              [Scenario.host_A; Scenario.host_S; Scenario.host_C] 2 sk E)
    as (Hn & He & Hc & _).
  split.
  - destruct (Main.term (Main.state_after sk)) as [n e c]. cbn in *. subst.
    reflexivity.
  - vm_compute in E. injection E as <-. reflexivity.
Defined.

(** ** The frame and the key *)

Lemma draw_bar_drawing (y x width : Z) (fraction : Q) (cells : list Event) :
  draw_bar y x width fraction = Ok cells -> forallb is_drawing cells = true.
Proof.
  unfold draw_bar. intros H.
  apply bind_Ok_inv in H as (filled & _ & H). injection H as <-.
  apply forallb_forall. intros e He.
  apply in_map_iff in He as (i & <- & _). reflexivity.
Qed.

Lemma draw_rows_drawing (row : Z) (max_rows : nat) (procs : list Proc) :
  forallb is_drawing (draw_rows row max_rows procs) = true.
Proof.
  revert row procs. induction max_rows as [ | n IH ]; intros row procs;
    [ reflexivity | ].
  destruct procs as [ | p rest ]; [ reflexivity | ].
  cbn [draw_rows forallb is_drawing]. apply IH.
Qed.

(** A frame is [clear], then drawing only, then [refresh]. *)
Lemma draw_frame_shape (h : Host) (mode : Z) (s : Main.Sample)
    (sorted : list Proc) (frame : list Event) :
  Main.draw_frame h mode s sorted = Ok frame ->
  exists body,
    frame = clear :: body ++ [refresh] /\ forallb is_drawing body = true.
Proof.
  unfold Main.draw_frame. intros H.
  apply bind_Ok_inv in H as (cpu_bar & Hcpu & H).
  apply bind_Ok_inv in H as (mem_fraction & _ & H).
  apply bind_Ok_inv in H as (mem_bar & Hmem & H).
  injection H as <-. cbv zeta.
  apply draw_bar_drawing in Hcpu, Hmem.
  match goal with
  | |- exists body,
         clear :: ?a :: ?b :: ?c :: ?d :: cpu_bar ++ ?e :: mem_bar
           ++ ?f :: ?g :: ?dr ++ [?x; ?y; refresh] = _ /\ _ =>
      exists (a :: b :: c :: d :: cpu_bar ++ e :: mem_bar ++ f :: g :: dr ++ [x; y]);
      pose proof (draw_rows_drawing (3 + 3 + 1)
                    (Z.to_nat (if screen_rows h - (3 + 3 + 1) - 2 <? 1 then 1
                               else screen_rows h - (3 + 3 + 1) - 2)) sorted) as Hrows
  end.
  split.
  - cbn [app]. do 5 f_equal.
    rewrite <- app_assoc. cbn [app]. do 2 f_equal.
    rewrite <- app_assoc. cbn [app]. do 3 f_equal.
    rewrite <- app_assoc. reflexivity.
  - cbn [forallb is_drawing andb].
    rewrite forallb_app, Hcpu. cbn [forallb is_drawing andb].
    rewrite forallb_app, Hmem. cbn [forallb is_drawing andb].
    rewrite forallb_app, Hrows. reflexivity.
Qed.

Lemma drawing_no_sleep (evs : list Event) :
  forallb is_drawing evs = true -> total_sleep evs = 0.
Proof.
  induction evs as [ | e evs IH ]; [ reflexivity | ].
  cbn [forallb]. intros H. apply andb_prop in H as [He Hevs].
  destruct e; try discriminate He; cbn [total_sleep]; apply IH; exact Hevs.
Qed.

Lemma total_sleep_app (l1 l2 : list Event) :
  total_sleep (l1 ++ l2) = total_sleep l1 + total_sleep l2.
Proof.
  induction l1 as [ | e l1 IH ]; [ reflexivity | ].
  destruct e; cbn [app total_sleep]; rewrite IH; lia.
Qed.

Lemma kill_subflow_no_sleep (h : Host) (rows : Z) (t : Terminal) :
  total_sleep (snd (kill_subflow h rows t)) = 0.
Proof.
  rewrite kill_subflow_events. cbv zeta.
  destruct (0 <? atoi (read_buf h)); reflexivity.
Qed.

Lemma handle_key_events (h : Host) (rows : Z) (st : Main.LoopState) :
  exists tail,
    snd (fst (Main.handle_key h rows st)) = getch (key h) :: tail /\
    total_sleep tail
    = (if Main.key_is (key h) "q" "Q" then 0
       else if Main.key_is (key h) "s" "S" || Main.key_is (key h) "k" "K"
            then 800 else 1000).
Proof.
  unfold Main.handle_key.
  destruct (Main.key_is (key h) "q" "Q"); [ eexists; split; reflexivity | ].
  destruct (Main.key_is (key h) "s" "S"); [ eexists; split; reflexivity | ].
  destruct (Main.key_is (key h) "k" "K"); [ | eexists; split; reflexivity ].
  pose proof (kill_subflow_no_sleep h rows (Main.term st)) as Hk.
  destruct (kill_subflow h rows (Main.term st)) as [t evs]. cbn [fst snd] in *.
  eexists. split; [ reflexivity | ].
  rewrite total_sleep_app, Hk. reflexivity.
Qed.

(** X3. Every completed iteration draws a whole frame before it reads the
    key: its events are [clear], drawing calls only, [refresh], then the
    [getch] of the loop, and only then whatever the key causes.  The
    iteration then sleeps 1000 ms in all when the key is no command, 800 ms
    after [s]/[S] or [k]/[K], and not at all on [q]/[Q]. *)
Theorem X3_frame_then_key (CLK_TCK PAGE_SIZE : Z) (h : Host)
    (st : Main.LoopState) (step : Main.Step) :
  Main.iteration CLK_TCK PAGE_SIZE h st = Ok step ->
  exists body tail,
    Main.events step = clear :: body ++ [refresh] ++ getch (key h) :: tail /\
    forallb is_drawing body = true /\
    total_sleep (Main.events step)
    = (if Main.key_is (key h) "q" "Q" then 0
       else if Main.key_is (key h) "s" "S" || Main.key_is (key h) "k" "K"
            then 800 else 1000).
Proof.
  intros Hstep.
  apply iteration_inv in Hstep
    as (s & frame & st1 & _ & _ & Hframe & _ & _ & _ & Hev & _).
  apply draw_frame_shape in Hframe as (body & -> & Hbody).
  destruct (handle_key_events h (screen_rows h) st1) as (tail & Hkey & Hsleep).
  exists body, tail. rewrite Hev, Hkey.
  split; [ cbn [app]; rewrite <- app_assoc; reflexivity | ].
  split; [ exact Hbody | ].
  change (clear :: body ++ [refresh]) with ([clear] ++ body ++ [refresh]).
  rewrite !total_sleep_app, (drawing_no_sleep body Hbody). cbn [total_sleep].
  rewrite Hsleep. lia.
Qed.

(** No key is waiting: a frame, the key read, one second of sleep. *)
Lemma X3_frame_then_key_witness :
  exists step body tail,
    Main.iteration Scenario.CLK_TCK Scenario.PAGE_SIZE Scenario.host_B
      (Main.initial_state Scenario.host_A) = Ok step /\
    Main.events step = clear :: body ++ [refresh] ++ getch (-1) :: tail /\
    total_sleep (Main.events step) = 1000.
Proof.
  destruct (Main.iteration Scenario.CLK_TCK Scenario.PAGE_SIZE Scenario.host_B
              (Main.initial_state Scenario.host_A)) as [ step | e ] eqn:E;
    [ | vm_compute in E; discriminate E ].
  destruct (X3_frame_then_key Scenario.CLK_TCK Scenario.PAGE_SIZE Scenario.host_B
              (Main.initial_state Scenario.host_A) step E)
    as (body & tail & Hev & _ & Hsleep).
  exists step, body, tail. split; [ reflexivity | ].
  split; [ exact Hev | exact Hsleep ].
Defined.

Lemma handle_key_quit (h : Host) (rows : Z) (st : Main.LoopState) :
  Main.key_is (key h) "q" "Q" = true ->
  Main.handle_key h rows st = (st, [getch (key h)], Main.break).
Proof. intros Hq. unfold Main.handle_key. rewrite Hq. reflexivity. Qed.

(** X4. When the key read is [q] or [Q], the iteration is the last of the
    run, whatever observations would follow; it has drawn its frame, sends no
    signal, and leaves the sort mode and the terminal modes as they were. *)
Theorem X4_quit_ends_run (CLK_TCK PAGE_SIZE : Z) (h : Host) (rest : list Host)
    (st : Main.LoopState) (step : Main.Step) :
  Main.key_is (key h) "q" "Q" = true ->
  Main.iteration CLK_TCK PAGE_SIZE h st = Ok step ->
  Main.run CLK_TCK PAGE_SIZE (h :: rest) st = [step] /\
  Main.ctl step = Main.break /\
  (forall p sig, ~ In (kill p sig) (Main.events step)) /\
  Main.sort_mode (Main.state_after step) = Main.sort_mode st /\
  Main.term (Main.state_after step) = Main.term st.
Proof.
  intros Hq Hstep.
  pose proof Hstep as Hinv.
  apply iteration_inv in Hinv
    as (s & frame & st1 & _ & _ & Hframe & _ & Hmode & Hterm & Hev & Hafter & Hctl).
  rewrite (handle_key_quit h _ st1 Hq) in Hev, Hafter, Hctl. cbn [fst snd] in *.
  split; [ cbn [Main.run]; rewrite Hstep, Hctl; reflexivity | ].
  split; [ exact Hctl | ].
  split.
  - intros p sig Hin. rewrite Hev in Hin.
    apply in_app_or in Hin as [ Hin | [ Hin | [] ] ]; [ | discriminate Hin ].
    exact (draw_frame_no_kill _ _ _ _ _ _ _ Hframe Hin).
  - rewrite Hafter. split; assumption.
Qed.

(** [q] is read in the second iteration; a third observation is ignored. *)
Lemma X4_quit_ends_run_witness :
  exists sA sQ,
    Main.iteration Scenario.CLK_TCK Scenario.PAGE_SIZE Scenario.host_A
      (Main.initial_state Scenario.host_A) = Ok sA /\
    Main.run Scenario.CLK_TCK Scenario.PAGE_SIZE
      [Scenario.host_Q; Scenario.host_C] (Main.state_after sA) = [sQ] /\
    Main.ctl sQ = Main.break.
Proof.
  destruct (Main.iteration Scenario.CLK_TCK Scenario.PAGE_SIZE Scenario.host_A
              (Main.initial_state Scenario.host_A)) as [ sA | e ] eqn:EA;
    [ | vm_compute in EA; discriminate EA ].
  destruct (Main.iteration Scenario.CLK_TCK Scenario.PAGE_SIZE Scenario.host_Q
              (Main.state_after sA)) as [ sQ | e ] eqn:EQ;
    [ | vm_compute in EA; injection EA as <-; vm_compute in EQ; discriminate EQ ].
  destruct (X4_quit_ends_run Scenario.CLK_TCK Scenario.PAGE_SIZE Scenario.host_Q
              [Scenario.host_C] (Main.state_after sA) sQ)
    as (Hrun & Hctl & _); [ reflexivity | exact EQ | ].
  exists sA, sQ. split; [ reflexivity | ]. split; [ exact Hrun | exact Hctl ].
Defined.

(** ** The prior-state map between two iterations *)

Lemma updated_lookup CLK_TCK PAGE_SIZE interval mem_total_mb m procs procs' m' :
  updated CLK_TCK PAGE_SIZE interval mem_total_mb m procs procs' m' ->
  NoDup (map pid procs) ->
  (forall p, In p procs -> m' !! pid p = Some (time p)) /\
  (forall q, ~ In q (map pid procs) -> m' !! q = m !! q).
Proof.
  induction 1 as [ m | m p cpu mem rest rest' m' Hcpu Hmem Hup IH ]; intros Hnd.
  - split; [ intros p [] | reflexivity ].
  - cbn [map] in Hnd. apply NoDup_cons in Hnd as [Hfresh Hnd].
    destruct (IH Hnd) as [IHin IHout].
    split.
    + intros p0 [ <- | Hp0 ]; [ | exact (IHin p0 Hp0) ].
      rewrite IHout by (rewrite <- list_elem_of_In; exact Hfresh).
      apply lookup_insert_eq.
    + intros q Hq. cbn [map In] in Hq.
      rewrite IHout by tauto. apply lookup_insert_ne. tauto.
Qed.

(** With distinct pids, each process is measured against the map the loop
    started with. *)
Lemma updated_cpu CLK_TCK PAGE_SIZE interval mem_total_mb m procs procs' m' :
  updated CLK_TCK PAGE_SIZE interval mem_total_mb m procs procs' m' ->
  NoDup (map pid procs) ->
  forall p', In p' procs' ->
    DeltaEngine.compute_cpu_pct CLK_TCK interval (DeltaEngine.proc_delta m p')
    = Ok (cpu_pct p').
Proof.
  induction 1 as [ m | m p cpu mem rest rest' m' Hcpu Hmem Hup IH ]; intros Hnd p' Hin.
  - destruct Hin.
  - cbn [map] in Hnd. apply NoDup_cons in Hnd as [Hfresh Hnd].
    destruct Hin as [ <- | Hin ]; [ exact Hcpu | ].
    rewrite <- (IH Hnd p' Hin).
    unfold DeltaEngine.proc_delta, DeltaEngine.prior.
    assert (Hne : pid p <> pid p').
    { intros Heq. apply Hfresh. rewrite Heq.
      rewrite <- (updated_pids _ _ _ _ _ _ _ _ Hup).
      apply list_elem_of_In. apply in_map. exact Hin. }
    rewrite lookup_insert_ne by exact Hne. reflexivity.
Qed.

Lemma updated_time CLK_TCK PAGE_SIZE interval mem_total_mb m procs procs' m' :
  updated CLK_TCK PAGE_SIZE interval mem_total_mb m procs procs' m' ->
  map time procs' = map time procs.
Proof. induction 1; [ reflexivity | cbn [map]; f_equal; assumption ]. Qed.

Lemma updated_lookup_new CLK_TCK PAGE_SIZE interval mem_total_mb m procs procs' m' :
  updated CLK_TCK PAGE_SIZE interval mem_total_mb m procs procs' m' ->
  NoDup (map pid procs) ->
  forall p', In p' procs' -> m' !! pid p' = Some (time p').
Proof.
  induction 1 as [ m | m p cpu mem rest rest' m' Hcpu Hmem Hup IH ]; intros Hnd p' Hin.
  - destruct Hin.
  - cbn [map] in Hnd. apply NoDup_cons in Hnd as [Hfresh Hnd].
    destruct Hin as [ <- | Hin ]; [ | exact (IH Hnd p' Hin) ].
    cbn [pid time set_mem_pct set_cpu_pct].
    destruct (updated_lookup _ _ _ _ _ _ _ _ Hup Hnd) as [_ Hout].
    rewrite Hout by (rewrite <- list_elem_of_In; exact Hfresh).
    apply lookup_insert_eq.
Qed.

Lemma iteration_lookup (CLK_TCK PAGE_SIZE : Z) (h : Host)
    (st : Main.LoopState) (step : Main.Step) :
  Main.iteration CLK_TCK PAGE_SIZE h st = Ok step ->
  NoDup (map pid (Main.snapshot step)) ->
  (forall p, In p (Main.snapshot step) ->
     Main.prev_proc_time (Main.state_after step) !! pid p = Some (time p)) /\
  (forall q, ~ In q (map pid (Main.snapshot step)) ->
     Main.prev_proc_time (Main.state_after step) !! q = Main.prev_proc_time st !! q) /\
  (forall p, In p (Main.snapshot step) ->
     DeltaEngine.compute_cpu_pct CLK_TCK (DeltaEngine.fallback_interval (elapsed h))
       (DeltaEngine.proc_delta (Main.prev_proc_time st) p)
     = Ok (cpu_pct p)).
Proof.
  intros Hstep Hnd.
  apply iteration_inv in Hstep
    as (s & frame & st1 & Hs & Hsnap & _ & Hprev & _ & _ & _ & Hafter & _).
  apply sample_inv in Hs as (raw & _ & Hup & _).
  assert (Hperm : Permutation (Main.procs s) (Main.snapshot step))
    by (rewrite Hsnap; apply std_sort_perm).
  assert (Hnd' : NoDup (map pid (Main.procs s)))
    by (rewrite (Permutation_map pid Hperm); exact Hnd).
  assert (Hraw : NoDup (map pid raw))
    by (rewrite <- (updated_pids _ _ _ _ _ _ _ _ Hup); exact Hnd').
  rewrite Hafter, handle_key_prev_proc_time, Hprev.
  split; [ | split ].
  - intros p Hp.
    apply (Permutation_in _ (Permutation_sym Hperm)) in Hp.
    exact (updated_lookup_new _ _ _ _ _ _ _ _ Hup Hraw p Hp).
  - intros q Hq.
    destruct (updated_lookup _ _ _ _ _ _ _ _ Hup Hraw) as [_ Hout].
    apply Hout.
    rewrite <- (updated_pids _ _ _ _ _ _ _ _ Hup).
    intros Hq'. apply Hq.
    eapply Permutation_in; [ apply Permutation_map; exact Hperm | exact Hq' ].
  - intros p Hp.
    apply (Permutation_in _ (Permutation_sym Hperm)) in Hp.
    exact (updated_cpu _ _ _ _ _ _ _ _ Hup Hraw p Hp).
Qed.

Lemma pids_of_pairs (l : list Proc) :
  map pid l = map fst (map (fun p => (pid p, time p)) l).
Proof. induction l as [ | p l IH ]; [ reflexivity | cbn [map fst]; f_equal; exact IH ]. Qed.

Lemma iteration_time_range (CLK_TCK PAGE_SIZE : Z) (h : Host)
    (st : Main.LoopState) (step : Main.Step) :
  Main.iteration CLK_TCK PAGE_SIZE h st = Ok step ->
  forall p, In p (Main.snapshot step) -> is_ull (time p).
Proof.
  intros Hstep p Hp.
  apply iteration_inv in Hstep as (s & frame & st1 & Hs & Hsnap & _).
  apply sample_inv in Hs as (raw & Hraw & Hup & _).
  rewrite Hsnap in Hp.
  apply (Permutation_in _ (Permutation_sym (std_sort_perm _ _))) in Hp.
  apply (in_map time) in Hp. rewrite (updated_time _ _ _ _ _ _ _ _ Hup) in Hp.
  apply in_map_iff in Hp as (p0 & <- & Hp0).
  exact (get_all_processes_time_range _ _ _ Hraw p0 Hp0).
Qed.

(** X5. After an iteration whose snapshot has pairwise distinct pids, the
    prior-state map holds, for every process of the snapshot, exactly the
    tick count just observed; the entry of every other pid is what it was
    before the iteration. *)
Theorem X5_prior_state_latest (CLK_TCK PAGE_SIZE : Z) (h : Host)
    (st : Main.LoopState) (step : Main.Step) :
  Main.iteration CLK_TCK PAGE_SIZE h st = Ok step ->
  NoDup (map pid (Main.snapshot step)) ->
  (forall p, In p (Main.snapshot step) ->
     Main.prev_proc_time (Main.state_after step) !! pid p = Some (time p)) /\
  (forall q, ~ In q (map pid (Main.snapshot step)) ->
     Main.prev_proc_time (Main.state_after step) !! q = Main.prev_proc_time st !! q).
Proof.
  intros Hstep Hnd.
  destruct (iteration_lookup _ _ _ _ _ Hstep Hnd) as (Hin & Hout & _).
  split; assumption.
Qed.

(** Pids 42 and 7 are observed while the map still holds an entry for 9. *)
Lemma X5_prior_state_latest_witness :
  exists step,
    Main.iteration Scenario.CLK_TCK Scenario.PAGE_SIZE Scenario.host_B
      Scenario.state_with_9 = Ok step /\
    map (fun p => (pid p, time p)) (Main.snapshot step) = [(42, 150); (7, 0)] /\
    (forall p, In p (Main.snapshot step) ->
       Main.prev_proc_time (Main.state_after step) !! pid p = Some (time p)) /\
    Main.prev_proc_time (Main.state_after step) !! 9 = Some 5.
Proof.
  destruct (Main.iteration Scenario.CLK_TCK Scenario.PAGE_SIZE Scenario.host_B
              Scenario.state_with_9) as [ step | e ] eqn:E;
    [ | vm_compute in E; discriminate E ].
  assert (Hsnap : map (fun p => (pid p, time p)) (Main.snapshot step)
                  = [(42, 150); (7, 0)])
    by (vm_compute in E; injection E as <-; reflexivity).
  assert (Hpids : map pid (Main.snapshot step) = [42; 7]).
  { rewrite pids_of_pairs, Hsnap. reflexivity. }
  destruct (X5_prior_state_latest Scenario.CLK_TCK Scenario.PAGE_SIZE
              Scenario.host_B Scenario.state_with_9 step E) as [Hin Hout].
  - rewrite Hpids. apply NoDup_ListNoDup. repeat constructor; cbn; intuition discriminate.
  - exists step. split; [ reflexivity | ]. split; [ exact Hsnap | ].
    split; [ exact Hin | ].
    rewrite Hout; [ reflexivity | ].
    rewrite Hpids. cbn. intuition discriminate.
Defined.

(** X6. Two consecutive iterations whose snapshots have pairwise distinct
    pids, with a positive number of ticks per second.  A process seen in
    both, with t1 ticks then t2, is shown in the second with
    cpu_pct = (t2 - t1) / CLK_TCK / interval * 100 when t1 <= t2 and 0 when
    t2 < t1, the interval being the one measured for the second iteration
    (1.0 when that is not positive).  A process of the second snapshot whose
    pid has no entry in the map is shown with 0. *)
Theorem X6_cpu_pct_between_iterations (CLK_TCK PAGE_SIZE : Z) (h1 h2 : Host)
    (st : Main.LoopState) (s1 s2 : Main.Step) :
  0 < CLK_TCK ->
  Main.iteration CLK_TCK PAGE_SIZE h1 st = Ok s1 ->
  Main.iteration CLK_TCK PAGE_SIZE h2 (Main.state_after s1) = Ok s2 ->
  NoDup (map pid (Main.snapshot s1)) ->
  NoDup (map pid (Main.snapshot s2)) ->
  (forall p1 p2, In p1 (Main.snapshot s1) -> In p2 (Main.snapshot s2) ->
     pid p1 = pid p2 ->
     (time p1 <= time p2 ->
        cpu_pct p2 = (inject_Z (time p2 - time p1) / inject_Z CLK_TCK
                      / DeltaEngine.fallback_interval (elapsed h2) * 100)%Q) /\
     (time p2 < time p1 ->
        cpu_pct p2 = (inject_Z 0 / inject_Z CLK_TCK
                      / DeltaEngine.fallback_interval (elapsed h2) * 100)%Q /\
        (cpu_pct p2 == 0)%Q)) /\
  (forall p2, In p2 (Main.snapshot s2) ->
     Main.prev_proc_time (Main.state_after s1) !! pid p2 = None ->
     (cpu_pct p2 == 0)%Q).
Proof.
  intros Hclk H1 H2 Hnd1 Hnd2.
  destruct (iteration_lookup _ _ _ _ _ H1 Hnd1) as (Hstored & _ & _).
  destruct (iteration_lookup _ _ _ _ _ H2 Hnd2) as (_ & _ & Hcpu).
  pose proof (iteration_time_range _ _ _ _ _ H1) as Hr1.
  pose proof (iteration_time_range _ _ _ _ _ H2) as Hr2.
  assert (Hzero : forall x : Q, (inject_Z 0 / inject_Z CLK_TCK / x * 100 == 0)%Q).
  { intros x. unfold Qdiv. change (inject_Z 0) with 0%Q. ring. }
  split.
  - intros p1 p2 Hp1 Hp2 Hpid.
    specialize (Hcpu p2 Hp2). specialize (Hstored p1 Hp1).
    specialize (Hr1 p1 Hp1). specialize (Hr2 p2 Hp2).
    rewrite compute_cpu_pct_value in Hcpu
      by (try exact Hclk; apply fallback_interval_pos).
    injection Hcpu as Hcpu.
    unfold DeltaEngine.proc_delta, DeltaEngine.prior in Hcpu.
    rewrite <- Hpid, Hstored in Hcpu.
    unfold DeltaEngine.delta_ticks, is_ull, wrap64, ULLONG_MOD in *.
    split; intros Hcmp.
    + destruct (Z.ltb_spec (time p1) (time p2)) as [Hlt | Hge].
      * rewrite Z.mod_small in Hcpu by lia. symmetry. exact Hcpu.
      * replace (time p2 - time p1) with 0 by lia. symmetry. exact Hcpu.
    + destruct (Z.ltb_spec (time p1) (time p2)) as [Hlt | Hge]; [ lia | ].
      split; [ symmetry; exact Hcpu | rewrite <- Hcpu; apply Hzero ].
  - intros p2 Hp2 Hnone. specialize (Hcpu p2 Hp2).
    rewrite compute_cpu_pct_value in Hcpu
      by (try exact Hclk; apply fallback_interval_pos).
    injection Hcpu as Hcpu.
    unfold DeltaEngine.proc_delta, DeltaEngine.prior in Hcpu.
    rewrite Hnone in Hcpu. unfold DeltaEngine.delta_ticks in Hcpu.
    rewrite Z.ltb_irrefl in Hcpu. rewrite <- Hcpu. apply Hzero.
Qed.

(** Pid 42 has 100 ticks, then 150 one second later: 50 percent. *)
Lemma X6_cpu_pct_between_iterations_witness :
  exists s1 s2 p1 p2,
    Main.iteration Scenario.CLK_TCK Scenario.PAGE_SIZE Scenario.host_A
      (Main.initial_state Scenario.host_A) = Ok s1 /\
    Main.iteration Scenario.CLK_TCK Scenario.PAGE_SIZE Scenario.host_B
      (Main.state_after s1) = Ok s2 /\
    In p1 (Main.snapshot s1) /\ In p2 (Main.snapshot s2) /\
    pid p1 = 42 /\ pid p2 = 42 /\ time p1 = 100 /\ time p2 = 150 /\
    cpu_pct p2 = (inject_Z (150 - 100) / inject_Z 100 / 1 * 100)%Q.
Proof.
  destruct (Main.iteration Scenario.CLK_TCK Scenario.PAGE_SIZE Scenario.host_A
              (Main.initial_state Scenario.host_A)) as [ s1 | e ] eqn:E1;
    [ | vm_compute in E1; discriminate E1 ].
  destruct (Main.iteration Scenario.CLK_TCK Scenario.PAGE_SIZE Scenario.host_B
              (Main.state_after s1)) as [ s2 | e ] eqn:E2;
    [ | vm_compute in E1; injection E1 as <-; vm_compute in E2; discriminate E2 ].
  assert (Hs1 : map (fun p => (pid p, time p)) (Main.snapshot s1) = [(7, 0); (42, 100)])
    by (vm_compute in E1; injection E1 as <-; reflexivity).
  assert (Hs2 : map (fun p => (pid p, time p)) (Main.snapshot s2) = [(42, 150); (7, 0)])
    by (vm_compute in E1; injection E1 as <-; vm_compute in E2; injection E2 as <-;
        reflexivity).
  assert (Hp1 : map pid (Main.snapshot s1) = [7; 42]).
  { rewrite pids_of_pairs, Hs1. reflexivity. }
  assert (Hp2 : map pid (Main.snapshot s2) = [42; 7]).
  { rewrite pids_of_pairs, Hs2. reflexivity. }
  destruct (Main.snapshot s1) as [ | a1 [ | p1 [ | ] ] ] eqn:L1; try discriminate Hs1.
  destruct (Main.snapshot s2) as [ | p2 [ | b2 [ | ] ] ] eqn:L2; try discriminate Hs2.
  injection Hs1 as _ _ Hpid1 Htime1. injection Hs2 as Hpid2 Htime2 _ _.
  destruct (X6_cpu_pct_between_iterations Scenario.CLK_TCK Scenario.PAGE_SIZE
              Scenario.host_A Scenario.host_B (Main.initial_state Scenario.host_A)
              s1 s2) as [Hboth _].
  - reflexivity.
  - exact E1.
  - exact E2.
  - rewrite L1, Hp1. apply NoDup_ListNoDup. repeat constructor; cbn; intuition discriminate.
  - rewrite L2, Hp2. apply NoDup_ListNoDup. repeat constructor; cbn; intuition discriminate.
  - exists s1, s2, p1, p2.
    split; [ reflexivity | ]. split; [ exact E2 | ].
    rewrite L1, L2.
    split; [ right; left; reflexivity | ]. split; [ left; reflexivity | ].
    split; [ exact Hpid1 | ]. split; [ exact Hpid2 | ].
    split; [ exact Htime1 | ]. split; [ exact Htime2 | ].
    destruct (Hboth p1 p2) as [Hup _].
    + rewrite L1. right. left. reflexivity.
    + rewrite L2. left. reflexivity.
    + congruence.
    + rewrite Htime1, Htime2 in Hup. apply Hup. lia.
Defined.

(** ** Parsing well-formed text *)

Lemma append_cons (x : ascii) (a b : string) :
  (String x a ++ b)%string = String x (a ++ b).
Proof. reflexivity. Qed.

Lemma append_nil_l (b : string) : ("" ++ b)%string = b.
Proof. reflexivity. Qed.

Lemma append_assoc (a b c : string) : ((a ++ b) ++ c = a ++ (b ++ c))%string.
Proof.
  induction a as [ | x a IH ]; [ reflexivity | ].
  rewrite !append_cons. f_equal. exact IH.
Qed.

Lemma append_nil_r (a : string) : (a ++ "")%string = a.
Proof.
  induction a as [ | x a IH ]; [ reflexivity | ].
  rewrite append_cons. f_equal. exact IH.
Qed.

Lemma isdigit_not_space (c : ascii) : isdigit c = true -> isspace c = false.
Proof. unfold isdigit, isspace. lia. Qed.

Lemma isdigit_not_sign (c : ascii) :
  isdigit c = true -> Ascii.eqb c "-" = false /\ Ascii.eqb c "+" = false.
Proof.
  intros H. split; apply not_true_is_false; intros E;
    apply Ascii.eqb_eq in E; subst c; discriminate H.
Qed.

Lemma digit_val_range (c : ascii) : isdigit c = true -> 0 <= digit_val c <= 9.
Proof. unfold isdigit, digit_val. lia. Qed.

Lemma decimal_value_nonneg (ds : string) (acc : Z) :
  all_digits ds = true -> 0 <= acc -> 0 <= decimal_value acc ds.
Proof.
  revert acc. induction ds as [ | c ds IH ]; intros acc Hd Hacc; [ exact Hacc | ].
  cbn [all_digits] in Hd. apply andb_prop in Hd as [Hc Hd].
  cbn [decimal_value]. apply IH; [ exact Hd | ].
  pose proof (digit_val_range c Hc). lia.
Qed.

Lemma is_digits_all (ds : string) : is_digits ds = true -> all_digits ds = true.
Proof. destruct ds; [ discriminate | intros H; exact H ]. Qed.

Lemma take_digits_app (ds rest : string) :
  all_digits ds = true -> Format.ends_number rest ->
  take_digits (ds ++ rest) = (ds, rest).
Proof.
  intros Hd Hrest. induction ds as [ | c ds IH ].
  - rewrite append_nil_l. destruct rest as [ | c r ]; [ reflexivity | ].
    cbn [Format.ends_number] in Hrest. cbn [take_digits]. rewrite Hrest. reflexivity.
  - cbn [all_digits] in Hd. apply andb_prop in Hd as [Hc Hd].
    rewrite append_cons. cbn [take_digits]. rewrite Hc, (IH Hd). reflexivity.
Qed.

Lemma skip_ws_blank (b s : string) :
  Format.all_space b = true -> skip_ws (b ++ s) = skip_ws s.
Proof.
  induction b as [ | c b IH ]; [ reflexivity | ].
  cbn [Format.all_space]. intros H. apply andb_prop in H as [Hc Hb].
  rewrite append_cons. cbn [skip_ws]. rewrite Hc. exact (IH Hb).
Qed.

(** A decimal number, after any blanks and before anything that is not a
    digit, scans to its value and leaves what follows. *)
Lemma scan_number_digits (b ds rest : string) :
  Format.all_space b = true -> is_digits ds = true -> Format.ends_number rest ->
  scan_number (b ++ ds ++ rest) = Some (false, Format.value ds, rest).
Proof.
  intros Hb Hds Hrest. unfold scan_number. rewrite (skip_ws_blank _ _ Hb).
  destruct ds as [ | c ds ]; [ discriminate Hds | ].
  cbn [is_digits] in Hds. pose proof Hds as Hall.
  cbn [all_digits] in Hds. apply andb_prop in Hds as [Hc Hd].
  destruct (isdigit_not_sign c Hc) as [Hminus Hplus].
  rewrite append_cons. cbn [skip_ws]. rewrite (isdigit_not_space c Hc).
  cbn [take_sign]. rewrite Hminus, Hplus.
  rewrite <- append_cons.
  rewrite (take_digits_app _ _ Hall Hrest). reflexivity.
Qed.

Lemma at_eof_number (b ds rest : string) :
  Format.all_space b = true -> is_digits ds = true ->
  at_eof (b ++ ds ++ rest) = false.
Proof.
  intros Hb Hds. unfold at_eof. rewrite (skip_ws_blank _ _ Hb).
  destruct ds as [ | c ds ]; [ discriminate Hds | ].
  cbn [is_digits all_digits] in Hds. apply andb_prop in Hds as [Hc _].
  rewrite append_cons. cbn [skip_ws]. rewrite (isdigit_not_space c Hc). reflexivity.
Qed.

Lemma extract_ull_digits (b ds rest : string) :
  Format.all_space b = true -> is_digits ds = true -> Format.ends_number rest ->
  Format.value ds <= ULLONG_MAX ->
  extract_ull (b ++ ds ++ rest) = Extracted (Format.value ds) rest.
Proof.
  intros Hb Hds Hrest Hmax. unfold extract_ull, strtoull.
  rewrite (at_eof_number _ _ _ Hb Hds), (scan_number_digits _ _ _ Hb Hds Hrest).
  destruct (Z.gtb_spec (Format.value ds) ULLONG_MAX); [ lia | reflexivity ].
Qed.

Lemma extract_long_digits (b ds rest : string) :
  Format.all_space b = true -> is_digits ds = true -> Format.ends_number rest ->
  Format.value ds <= LONG_MAX ->
  extract_long (b ++ ds ++ rest) = Extracted (Format.value ds) rest.
Proof.
  intros Hb Hds Hrest Hmax. unfold extract_long, strtol.
  rewrite (at_eof_number _ _ _ Hb Hds), (scan_number_digits _ _ _ Hb Hds Hrest).
  destruct (Z.gtb_spec (Format.value ds) LONG_MAX); [ lia | reflexivity ].
Qed.

Lemma stoull_digits (ds : string) :
  is_digits ds = true -> Format.value ds <= ULLONG_MAX ->
  stoull ds = Ok (Format.value ds).
Proof.
  intros Hds Hmax. unfold stoull, strtoull.
  pose proof (scan_number_digits "" ds "" eq_refl Hds I) as Hscan.
  rewrite append_nil_l, append_nil_r in Hscan. rewrite Hscan.
  destruct (Z.gtb_spec (Format.value ds) ULLONG_MAX); [ lia | reflexivity ].
Qed.

Lemma atoi_digits (ds : string) :
  is_digits ds = true -> Format.value ds <= INT_MAX ->
  atoi ds = Format.value ds /\ 0 <= atoi ds.
Proof.
  intros Hds Hmax. unfold atoi, strtol.
  pose proof (scan_number_digits "" ds "" eq_refl Hds I) as Hscan.
  rewrite append_nil_l, append_nil_r in Hscan. rewrite Hscan.
  pose proof (decimal_value_nonneg ds 0 (is_digits_all _ Hds) ltac:(lia)) as Hpos.
  fold (Format.value ds) in Hpos.
  unfold INT_MAX, LONG_MAX in *.
  destruct (Z.gtb_spec (Format.value ds) (2 ^ 63 - 1)); [ lia | ].
  unfold wrap_int. rewrite Z.mod_small by lia. lia.
Qed.

Lemma ends_word_number (s : string) : Format.ends_word s -> Format.ends_number s.
Proof.
  destruct s as [ | c s ]; [ exact (fun H => H) | ].
  cbn [Format.ends_word Format.ends_number]. unfold isspace, isdigit. lia.
Qed.

Lemma blank_ends_word (b s : string) :
  Format.all_space b = true -> b <> EmptyString -> Format.ends_word (b ++ s).
Proof.
  destruct b as [ | c b ]; [ congruence | ].
  cbn [Format.all_space]. intros H _. apply andb_prop in H as [Hc _].
  rewrite append_cons. exact Hc.
Qed.

Lemma is_word_no_space (w : string) : Format.is_word w = true -> Format.no_space w = true.
Proof. destruct w; [ discriminate | exact (fun H => H) ]. Qed.

Lemma take_word_app (w rest : string) :
  Format.no_space w = true -> Format.ends_word rest ->
  take_word (w ++ rest) = (w, rest).
Proof.
  intros Hw Hrest. induction w as [ | c w IH ].
  - rewrite append_nil_l. destruct rest as [ | c r ]; [ reflexivity | ].
    cbn [Format.ends_word] in Hrest. cbn [take_word]. rewrite Hrest. reflexivity.
  - cbn [Format.no_space] in Hw. apply andb_prop in Hw as [Hc Hw].
    apply negb_true_iff in Hc.
    rewrite append_cons. cbn [take_word]. rewrite Hc, (IH Hw). reflexivity.
Qed.

Lemma skip_ws_word (w rest : string) :
  Format.is_word w = true -> skip_ws (w ++ rest) = (w ++ rest)%string.
Proof.
  destruct w as [ | c w ]; [ discriminate | ].
  cbn [Format.is_word Format.no_space]. intros H. apply andb_prop in H as [Hc _].
  apply negb_true_iff in Hc. rewrite append_cons. cbn [skip_ws]. rewrite Hc. reflexivity.
Qed.

(** A word, after any blanks and before a blank or the end, is what
    [is >> str] extracts. *)
Lemma extract_token_word (b w rest : string) :
  Format.all_space b = true -> Format.is_word w = true -> Format.ends_word rest ->
  extract_token (b ++ w ++ rest) = Extracted w rest.
Proof.
  intros Hb Hw Hrest. unfold extract_token, at_eof.
  rewrite (skip_ws_blank _ _ Hb), (skip_ws_word _ _ Hw).
  rewrite (take_word_app _ _ (is_word_no_space _ Hw) Hrest).
  destruct w as [ | c w ]; [ discriminate Hw | ]. rewrite append_cons. reflexivity.
Qed.

Lemma extract_token_blank (b : string) :
  Format.all_space b = true -> extract_token b = NotAttempted.
Proof.
  intros Hb. unfold extract_token, at_eof.
  rewrite <- (append_nil_r b), (skip_ws_blank _ _ Hb). reflexivity.
Qed.

Lemma tokens_from_word (w rest : string) (cur : option string) :
  Format.is_word w = true ->
  tokens_from cur (w ++ rest)
  = tokens_from (Some (match cur with
                       | Some c => (c ++ w)%string
                       | None => w
                       end)) rest.
Proof.
  intros Hw. apply is_word_no_space in Hw as Hns.
  destruct w as [ | x w ]; [ discriminate Hw | ]. clear Hw.
  revert x cur Hns. induction w as [ | y w IH ]; intros x cur Hns.
  - cbn [Format.no_space] in Hns. apply andb_prop in Hns as [Hx _].
    apply negb_true_iff in Hx.
    rewrite append_cons, append_nil_l. cbn [tokens_from]. rewrite Hx. reflexivity.
  - cbn [Format.no_space] in Hns. apply andb_prop in Hns as [Hx Hns].
    apply negb_true_iff in Hx.
    rewrite append_cons. cbn [tokens_from]. rewrite Hx.
    rewrite (IH y _ Hns). f_equal. f_equal.
    destruct cur as [ c | ]; [ | reflexivity ].
    rewrite append_assoc. reflexivity.
Qed.

Lemma tokens_unwords (ws : list string) :
  List.Forall (fun w => Format.is_word w = true) ws ->
  tokens (Format.unwords ws) = ws.
Proof.
  unfold tokens. induction 1 as [ | w ws Hw Hws IH ]; [ reflexivity | ].
  destruct ws as [ | w2 ws ].
  - cbn [Format.unwords]. rewrite <- (append_nil_r w) at 1.
    rewrite (tokens_from_word _ _ _ Hw). reflexivity.
  - change (Format.unwords (w :: w2 :: ws))
      with (w ++ String " " (Format.unwords (w2 :: ws)))%string.
    rewrite (tokens_from_word _ _ _ Hw). cbn [tokens_from].
    change (isspace " ") with true. cbn iota. f_equal. exact IH.
Qed.

Lemma unwords_cons (w : string) (ws : list string) :
  exists tail, Format.unwords (w :: ws) = (w ++ tail)%string /\ Format.ends_word tail.
Proof.
  destruct ws as [ | w2 ws ].
  - exists EmptyString. split; [ cbn; rewrite append_nil_r; reflexivity | exact I ].
  - exists (String " " (Format.unwords (w2 :: ws))). split; reflexivity.
Qed.

Lemma unwords_nonempty (w : string) (ws : list string) :
  Format.is_word w = true ->
  SnapshotReader.string_empty (Format.unwords (w :: ws)) = false.
Proof.
  intros Hw. destruct (unwords_cons w ws) as (tail & -> & _).
  destruct w; [ discriminate Hw | reflexivity ].
Qed.

(** X7.  A [stat] line of at least 22 blank-separated words whose words 14
    and 15 are decimal numbers in the range of [unsigned long long] gives
    the process the sum of the two, modulo 2^64, as its tick count.  The
    words are counted as [iss >> token] separates them: a command name with
    a blank in it counts as two. *)
Theorem X7_stat_time (h : Host) (pid0 : Z) (p : Proc) (ws : list string)
    (ut st : string) :
  SnapshotReader.read_first_line h (SnapshotReader.proc_path pid0 "/stat")
    = Format.unwords ws ->
  List.Forall (fun w => Format.is_word w = true) ws ->
  (22 <= List.length ws)%nat ->
  ws !! 13%nat = Some ut -> ws !! 14%nat = Some st ->
  is_digits ut = true -> Format.value ut <= ULLONG_MAX ->
  is_digits st = true -> Format.value st <= ULLONG_MAX ->
  SnapshotReader.read_stat_time h pid0 p
  = Ok (set_time (wrap64 (Format.value ut + Format.value st)) p).
Proof.
  intros Hline Hws Hlen Hut Hst Hdu Hmu Hds Hms.
  unfold SnapshotReader.read_stat_time. rewrite Hline.
  destruct ws as [ | w ws' ]; [ cbn in Hlen; lia | ].
  rewrite (unwords_nonempty w ws' (Forall_inv Hws)).
  rewrite (tokens_unwords _ Hws).
  destruct (Z.leb_spec 22 (Z.of_nat (List.length (w :: ws')))) as [ _ | Hlt ]; [ | lia ].
  rewrite !nth_lookup, Hut, Hst. cbn [default from_option id].
  rewrite (stoull_digits _ Hdu Hmu), (stoull_digits _ Hds Hms). reflexivity.
Qed.

Lemma X7_stat_time_witness :
  SnapshotReader.read_stat_time Scenario.host_A 42 Proc_default
  = Ok (set_time (wrap64 (Format.value "60" + Format.value "40")) Proc_default).
Proof.
  apply (X7_stat_time Scenario.host_A 42 Proc_default
           ["42"; "(cat)"; "R"; "1"; "1"; "1"; "0"; "-1"; "4194304"; "100"; "0";
            "0"; "0"; "60"; "40"; "0"; "0"; "20"; "0"; "1"; "0"; "12345"]%string
           "60" "40").
  - reflexivity.
  - repeat constructor.
  - cbn. lia.
  - reflexivity.
  - reflexivity.
  - reflexivity.
  - vm_compute. discriminate.
  - reflexivity.
  - vm_compute. discriminate.
Defined.

(** X8.  A [statm] line that starts with two decimal numbers in the range
    of [long] gives the process the second one, the resident pages; what
    follows on the line is not read. *)
Theorem X8_statm_resident (PAGE_SIZE : Z) (h : Host) (pid0 : Z) (p : Proc)
    (size resident : string) (more : list string) :
  SnapshotReader.read_first_line h (SnapshotReader.proc_path pid0 "/statm")
    = Format.unwords (size :: resident :: more) ->
  is_digits size = true -> Format.value size <= LONG_MAX ->
  is_digits resident = true -> Format.value resident <= LONG_MAX ->
  SnapshotReader.read_rss PAGE_SIZE h pid0 p
  = Ok (set_rss_pages (Format.value resident) p).
Proof.
  intros Hline Hdz Hmz Hdr Hmr.
  unfold SnapshotReader.read_rss. rewrite Hline.
  destruct (unwords_cons resident more) as (tail & Htail & Hend).
  change (Format.unwords (size :: resident :: more))
    with (size ++ String " " (Format.unwords (resident :: more)))%string.
  rewrite Htail.
  assert (Hne : SnapshotReader.string_empty
                  (size ++ String " " (resident ++ tail)) = false).
  { destruct size; [ discriminate Hdz | reflexivity ]. }
  rewrite Hne.
  pose proof (extract_long_digits "" size (String " " (resident ++ tail))
                eq_refl Hdz eq_refl Hmz) as E1.
  rewrite append_nil_l in E1. rewrite E1.
  pose proof (extract_long_digits " " resident tail eq_refl Hdr
                (ends_word_number _ Hend) Hmr) as E2.
  change (" " ++ resident ++ tail)%string with (String " " (resident ++ tail)) in E2.
  rewrite E2. reflexivity.
Qed.

Lemma X8_statm_resident_witness :
  SnapshotReader.read_rss Scenario.PAGE_SIZE Scenario.host_A 42 Proc_default
  = Ok (set_rss_pages (Format.value "25600") Proc_default).
Proof.
  apply (X8_statm_resident Scenario.PAGE_SIZE Scenario.host_A 42 Proc_default
           "1000" "25600" ["30"; "1"; "0"; "50"; "0"]%string).
  - reflexivity.
  - reflexivity.
  - vm_compute. discriminate.
  - reflexivity.
  - vm_compute. discriminate.
Defined.

Lemma long_mul_div_value (kb page : Z) :
  0 <= kb -> kb * 1024 <= LONG_MAX -> 0 < page ->
  SnapshotReader.long_mul_div kb page = Ok (kb * 1024 / page).
Proof.
  intros Hkb Hmax Hpage. unfold SnapshotReader.long_mul_div.
  unfold LONG_MIN, LONG_MAX in *.
  destruct (Z.leb_spec (- 2 ^ 63) (kb * 1024)); [ | lia ].
  destruct (Z.leb_spec (kb * 1024) (2 ^ 63 - 1)); [ | lia ].
  destruct (Z.eqb_spec page 0); [ lia | ].
  destruct (Z.eqb_spec page (-1)); [ lia | ].
  rewrite andb_false_r. cbn [andb negb].
  rewrite Z.quot_div_nonneg by lia. reflexivity.
Qed.

(** X9.  When [statm] gives no line, the first line of [status] that starts
    with [VmRSS:] is used: with [kb] the number after the blanks that follow
    the key, the process gets [kb * 1024 / PAGE_SIZE] pages, rounded down. *)
Theorem X9_vmrss_fallback (PAGE_SIZE : Z) (h : Host) (pid0 : Z) (p : Proc)
    (content pad kb rest : string) :
  SnapshotReader.read_first_line h (SnapshotReader.proc_path pid0 "/statm")
    = EmptyString ->
  file h (SnapshotReader.proc_path pid0 "/status") = Some content ->
  List.find (String.prefix "VmRSS:") (lines content)
    = Some ("VmRSS:" ++ pad ++ kb ++ rest)%string ->
  Format.all_space pad = true -> pad <> EmptyString ->
  is_digits kb = true -> Format.ends_number rest ->
  Format.value kb * 1024 <= LONG_MAX ->
  0 < PAGE_SIZE ->
  SnapshotReader.read_rss PAGE_SIZE h pid0 p
  = Ok (set_rss_pages (Format.value kb * 1024 / PAGE_SIZE) p).
Proof.
  intros Hstatm Hfile Hfind Hpad Hne Hkb Hrest Hmax Hpage.
  unfold SnapshotReader.read_rss. rewrite Hstatm, Hfile. cbn [SnapshotReader.string_empty].
  rewrite Hfind.
  pose proof (extract_token_word "" "VmRSS:" (pad ++ kb ++ rest) eq_refl eq_refl
                (blank_ends_word _ _ Hpad Hne)) as E1.
  rewrite append_nil_l in E1. rewrite E1.
  pose proof (decimal_value_nonneg kb 0 (is_digits_all _ Hkb) ltac:(lia)) as Hpos.
  fold (Format.value kb) in Hpos.
  rewrite (extract_long_digits _ _ _ Hpad Hkb Hrest) by (unfold LONG_MAX in *; lia).
  rewrite (long_mul_div_value _ _ Hpos Hmax Hpage). reflexivity.
Qed.

Lemma X9_vmrss_fallback_witness :
  SnapshotReader.read_rss Scenario.PAGE_SIZE Scenario.host_A 7 Proc_default
  = Ok (set_rss_pages (Format.value "2048" * 1024 / Scenario.PAGE_SIZE) Proc_default).
Proof.
  apply (X9_vmrss_fallback Scenario.PAGE_SIZE Scenario.host_A 7 Proc_default
           ("Name:   init" ++ Scenario.nl ++ "VmRSS:     2048 kB" ++ Scenario.nl)
           "     " "2048" " kB").
  - reflexivity.
  - reflexivity.
  - reflexivity.
  - reflexivity.
  - discriminate.
  - reflexivity.
  - reflexivity.
  - vm_compute. discriminate.
  - reflexivity.
Defined.

(** The first line of [/proc/stat]. *)

Lemma extract_ull_fields_failed (n : nat) :
  SnapshotReader.extract_ull_fields n None = List.repeat 0 n.
Proof. induction n as [ | n IH ]; [ reflexivity | cbn; f_equal; exact IH ]. Qed.

Lemma fields_ends_number (bds : list (string * string)) :
  List.Forall Format.is_field bds -> Format.ends_number (Format.fields bds).
Proof.
  intros H. destruct H as [ | [b d] bds (Hb & Hne & _) _ ]; [ exact I | ].
  cbn [Format.fields fst] in *. apply ends_word_number.
  apply blank_ends_word; assumption.
Qed.

Lemma extract_ull_fields_values (bds : list (string * string)) (n : nat) :
  List.Forall Format.is_field bds ->
  SnapshotReader.extract_ull_fields n (Some (Format.fields bds))
  = (List.firstn n (List.map (fun bd => Format.value (snd bd)) bds)
     ++ List.repeat 0 (n - List.length bds))%list.
Proof.
  intros H. revert n. induction H as [ | [b d] bds (Hb & Hne & Hd & Hmax) Hrest IH ];
    intros n.
  - destruct n as [ | n ]; [ reflexivity | ].
    cbn [SnapshotReader.extract_ull_fields Format.fields].
    change (extract_ull "") with (@NotAttempted Z).
    rewrite extract_ull_fields_failed. reflexivity.
  - destruct n as [ | n ]; [ reflexivity | ].
    cbn [SnapshotReader.extract_ull_fields Format.fields fst snd] in *.
    rewrite (extract_ull_digits _ _ _ Hb Hd (fields_ends_number _ Hrest) Hmax).
    rewrite IH. reflexivity.
Qed.

Lemma wrap64_add_l (a v : Z) : wrap64 (wrap64 a + v) = wrap64 (a + v).
Proof. unfold wrap64. apply Zplus_mod_idemp_l. Qed.

Lemma sum_ull_from (l : list Z) (acc : Z) :
  fold_left (fun a v => wrap64 (a + v)) l (wrap64 acc) = wrap64 (acc + Format.total l).
Proof.
  revert acc. induction l as [ | v l IH ]; intros acc.
  - cbn. rewrite Z.add_0_r. reflexivity.
  - cbn [fold_left]. rewrite wrap64_add_l, IH.
    unfold Format.total. cbn [fold_right]. f_equal. lia.
Qed.

Lemma sum_ull_total (l : list Z) : SnapshotReader.sum_ull l = wrap64 (Format.total l).
Proof.
  unfold SnapshotReader.sum_ull. change 0 with (wrap64 0) at 1.
  rewrite sum_ull_from. reflexivity.
Qed.

Lemma total_app_zeros (l : list Z) (n : nat) :
  Format.total (l ++ List.repeat 0 n) = Format.total l.
Proof.
  unfold Format.total. rewrite fold_right_app.
  replace (fold_right Z.add 0 (List.repeat 0 n)) with 0; [ reflexivity | ].
  induction n as [ | n IH ]; [ reflexivity | cbn; rewrite <- IH; reflexivity ].
Qed.

(** X10.  The aggregate counter is the sum, modulo 2^64, of the first eight
    numbers that follow the first word of the first line of [/proc/stat]:
    further numbers are not read, and missing ones count as 0. *)
Theorem X10_total_time (h : Host) (content cpu more : string)
    (bds : list (string * string)) :
  file h "/proc/stat" = Some content ->
  getline content = Some ((cpu ++ Format.fields bds)%string, more) ->
  Format.is_word cpu = true ->
  List.Forall Format.is_field bds ->
  SnapshotReader.read_total_time_from_proc_stat h
  = wrap64 (Format.total
              (List.firstn 8 (List.map (fun bd => Format.value (snd bd)) bds))).
Proof.
  intros Hfile Hline Hcpu Hbds.
  unfold SnapshotReader.read_total_time_from_proc_stat. rewrite Hfile, Hline.
  assert (Hend : Format.ends_word (Format.fields bds)).
  { destruct Hbds as [ | [b d] bds' (Hb & Hne & _) _ ]; [ exact I | ].
    cbn [Format.fields fst] in *. apply blank_ends_word; assumption. }
  pose proof (extract_token_word "" cpu (Format.fields bds) eq_refl Hcpu Hend) as E.
  rewrite append_nil_l in E. rewrite E.
  rewrite (extract_ull_fields_values _ _ Hbds), sum_ull_total, total_app_zeros.
  reflexivity.
Qed.

Lemma X10_total_time_witness :
  SnapshotReader.read_total_time_from_proc_stat Scenario.host_A
  = wrap64 (Format.total
              (List.firstn 8 (List.map (fun bd => Format.value (snd bd))
                 [("  ", "10"); (" ", "20"); (" ", "30"); (" ", "40"); (" ", "50");
                  (" ", "60"); (" ", "70"); (" ", "80"); (" ", "0"); (" ", "0")]%string))).
Proof.
  apply (X10_total_time Scenario.host_A
           ("cpu  10 20 30 40 50 60 70 80 0 0" ++ Scenario.nl) "cpu" "").
  - reflexivity.
  - reflexivity.
  - reflexivity.
  - repeat constructor; discriminate.
Defined.

Lemma length_append (a b : string) :
  String.length (a ++ b) = (String.length a + String.length b)%nat.
Proof.
  induction a as [ | x a IH ]; [ reflexivity | ].
  rewrite append_cons. cbn [String.length]. rewrite IH. reflexivity.
Qed.

Lemma meminfo_text_length (es : list Format.meminfo_entry) :
  (List.length es <= String.length (Format.meminfo_text es))%nat.
Proof.
  induction es as [ | e es IH ]; [ cbn; lia | ].
  cbn [Format.meminfo_text List.length]. rewrite !length_append.
  cbn [String.length]. lia.
Qed.

Lemma read_mem_info_loop_entry (fuel : nat) (b rest : string)
    (e : Format.meminfo_entry) (m : SnapshotReader.MemInfo) :
  Format.all_space b = true -> Format.is_entry e -> Format.ends_word rest ->
  SnapshotReader.read_mem_info_loop (S fuel)
    (b ++ Format.entry_key e ++ Format.entry_pad e ++ Format.entry_amount e
       ++ " " ++ Format.entry_unit e ++ rest) m
  = SnapshotReader.read_mem_info_loop fuel rest (store_entry e m).
Proof.
  intros Hb (Hkey & Hpad & Hne & Hd & Hmax & Hunit) Hrest.
  cbn [SnapshotReader.read_mem_info_loop].
  rewrite (extract_token_word b _ _ Hb Hkey (blank_ends_word _ _ Hpad Hne)).
  rewrite (extract_ull_digits _ _ _ Hpad Hd)
    by (reflexivity || (unfold ULLONG_MAX; lia)).
  rewrite (extract_token_word " " _ _ eq_refl Hunit Hrest).
  f_equal. unfold store_entry, Double.of_int.
  destruct (String.eqb_spec (Format.entry_key e) "MemTotal:") as [ -> | _ ];
    [ destruct m; reflexivity | ].
  destruct (String.eqb_spec (Format.entry_key e) "MemFree:") as [ -> | _ ];
    [ destruct m; reflexivity | ].
  destruct (String.eqb (Format.entry_key e) "MemAvailable:"); destruct m; reflexivity.
Qed.

Lemma read_mem_info_loop_entries (es : list Format.meminfo_entry) (fuel : nat)
    (b : string) (m : SnapshotReader.MemInfo) :
  Format.all_space b = true -> List.Forall Format.is_entry es ->
  (List.length es <= fuel)%nat ->
  SnapshotReader.read_mem_info_loop fuel (b ++ Format.meminfo_text es) m
  = fold_left (fun m e => store_entry e m) es m.
Proof.
  intros Hb Hes. revert fuel b m Hb.
  induction Hes as [ | e es He Hes IH ]; intros fuel b m Hb Hfuel.
  - cbn [Format.meminfo_text fold_left]. rewrite append_nil_r.
    destruct fuel as [ | fuel ]; [ reflexivity | ].
    cbn [SnapshotReader.read_mem_info_loop].
    rewrite (extract_token_blank _ Hb). reflexivity.
  - destruct fuel as [ | fuel ]; [ cbn in Hfuel; lia | ].
    cbn [Format.meminfo_text fold_left].
    rewrite (read_mem_info_loop_entry fuel b _ e m Hb He) by reflexivity.
    change (String newline (Format.meminfo_text es))
      with (String newline "" ++ Format.meminfo_text es)%string.
    apply IH; [ reflexivity | cbn in Hfuel; lia ].
Qed.

Lemma store_entries_total (es : list Format.meminfo_entry) (m : SnapshotReader.MemInfo)
    (acc : option Z) (key : string) (get : SnapshotReader.MemInfo -> Q) :
  (forall e m, get (store_entry e m)
               = if String.eqb (Format.entry_key e) key
                 then (inject_Z (Format.value (Format.entry_amount e)) / 1024)%Q
                 else get m) ->
  get m = Format.megabytes acc ->
  get (fold_left (fun m e => store_entry e m) es m)
  = Format.megabytes
      (fold_left (fun acc e =>
                    if String.eqb (Format.entry_key e) key
                    then Some (Format.value (Format.entry_amount e)) else acc)
                 es acc).
Proof.
  intros Hget. revert m acc. induction es as [ | e es IH ]; intros m acc Hm.
  - exact Hm.
  - cbn [fold_left]. apply IH. rewrite Hget.
    destruct (String.eqb (Format.entry_key e) key); [ reflexivity | exact Hm ].
Qed.

(** X11.  For a [/proc/meminfo] made of lines [key amount unit] with every
    amount below 2^53, each of the three amounts the program keeps is the
    amount of the last line with its key divided by 1024, and 0 when no line
    has the key; every other line is skipped. *)
Theorem X11_meminfo (h : Host) (es : list Format.meminfo_entry) :
  file h "/proc/meminfo" = Some (Format.meminfo_text es) ->
  List.Forall Format.is_entry es ->
  SnapshotReader.total_mb (SnapshotReader.read_mem_info h)
    = Format.megabytes (Format.last_amount "MemTotal:" es) /\
  SnapshotReader.free_mb (SnapshotReader.read_mem_info h)
    = Format.megabytes (Format.last_amount "MemFree:" es) /\
  SnapshotReader.avail_mb (SnapshotReader.read_mem_info h)
    = Format.megabytes (Format.last_amount "MemAvailable:" es).
Proof.
  intros Hfile Hes. unfold SnapshotReader.read_mem_info. rewrite Hfile.
  pose proof (read_mem_info_loop_entries es
                (String.length (Format.meminfo_text es)) ""
                {| SnapshotReader.total_mb := 0; SnapshotReader.free_mb := 0;
                   SnapshotReader.avail_mb := 0 |}
                eq_refl Hes (meminfo_text_length es)) as Hloop.
  rewrite append_nil_l in Hloop. cbv zeta. rewrite Hloop.
  unfold Format.last_amount.
  repeat split; apply store_entries_total; try reflexivity; intros e m; reflexivity.
Qed.

Lemma X11_meminfo_witness :
  SnapshotReader.total_mb (SnapshotReader.read_mem_info Scenario.host_A)
    = Format.megabytes (Some 1024000) /\
  SnapshotReader.free_mb (SnapshotReader.read_mem_info Scenario.host_A)
    = Format.megabytes (Some 204800) /\
  SnapshotReader.avail_mb (SnapshotReader.read_mem_info Scenario.host_A)
    = Format.megabytes (Some 512000).
Proof.
  apply (X11_meminfo Scenario.host_A
           [ Format.mkEntry "MemTotal:" "       " "1024000" "kB";
             Format.mkEntry "MemFree:" "          " "204800" "kB";
             Format.mkEntry "MemAvailable:" "    " "512000" "kB" ]).
  - reflexivity.
  - repeat constructor; discriminate.
Defined.

(** ** Decimal numerals *)

Lemma uint_digits (d : Decimal.uint) : all_digits (NilEmpty.string_of_uint d) = true.
Proof. induction d; cbn [NilEmpty.string_of_uint all_digits]; try rewrite IHd; reflexivity. Qed.

Lemma uint_value_acc (d : Decimal.uint) (acc : positive) :
  decimal_value (Z.pos acc) (NilEmpty.string_of_uint d) = Z.pos (Pos.of_uint_acc d acc).
Proof.
  revert acc. induction d; intros acc;
    cbn [NilEmpty.string_of_uint decimal_value Pos.of_uint_acc];
    [ reflexivity | rewrite <- IHd; f_equal; vm_compute digit_val; lia .. ].
Qed.

Lemma uint_value (d : Decimal.uint) :
  Format.value (NilEmpty.string_of_uint d) = Z.of_N (Pos.of_uint d).
Proof.
  unfold Format.value.
  induction d; cbn [NilEmpty.string_of_uint decimal_value Pos.of_uint];
    [ reflexivity | exact IHd | apply (uint_value_acc d 1) | apply (uint_value_acc d 2)
    | apply (uint_value_acc d 3) | apply (uint_value_acc d 4) | apply (uint_value_acc d 5)
    | apply (uint_value_acc d 6) | apply (uint_value_acc d 7) | apply (uint_value_acc d 8)
    | apply (uint_value_acc d 9) ].
Qed.

Lemma digits_uint (ds : string) :
  all_digits ds = true -> exists d, ds = NilEmpty.string_of_uint d.
Proof.
  induction ds as [ | c ds IH ]; intros H.
  - exists Decimal.Nil. reflexivity.
  - cbn [all_digits] in H. apply andb_prop in H as [Hc Hds].
    destruct (IH Hds) as [d ->].
    destruct c as [[] [] [] [] [] [] [] []]; try discriminate Hc;
      first [ exists (Decimal.D0 d); reflexivity | exists (Decimal.D1 d); reflexivity
            | exists (Decimal.D2 d); reflexivity | exists (Decimal.D3 d); reflexivity
            | exists (Decimal.D4 d); reflexivity | exists (Decimal.D5 d); reflexivity
            | exists (Decimal.D6 d); reflexivity | exists (Decimal.D7 d); reflexivity
            | exists (Decimal.D8 d); reflexivity | exists (Decimal.D9 d); reflexivity ].
Qed.

Lemma to_string_of_N (n : N) :
  to_string (Z.of_N n) = NilZero.string_of_uint (N.to_uint n).
Proof. destruct n; reflexivity. Qed.

Lemma string_of_uint_nonnil (d : Decimal.uint) :
  d <> Decimal.Nil -> NilZero.string_of_uint d = NilEmpty.string_of_uint d.
Proof. destruct d; [ congruence | reflexivity .. ]. Qed.

(** Printing the value of a canonical numeral gives the numeral back. *)
Lemma to_string_value (ds : string) :
  is_digits ds = true -> Format.canonical ds = true -> to_string (Format.value ds) = ds.
Proof.
  intros Hds Hcan. destruct (digits_uint ds (is_digits_all _ Hds)) as [d ->].
  rewrite uint_value, to_string_of_N.
  change (Pos.of_uint d) with (N.of_uint d). rewrite DecimalN.Unsigned.to_of.
  assert (Hnorm : Decimal.unorm d = d /\ d <> Decimal.Nil).
  { destruct d; try (split; [ reflexivity | discriminate ]).
    - discriminate Hds.
    - cbn [NilEmpty.string_of_uint Format.canonical] in Hcan.
      change (negb (Ascii.eqb "0" "0")) with false in Hcan. cbn [orb] in Hcan.
      destruct d; try discriminate Hcan. split; [ reflexivity | discriminate ]. }
  destruct Hnorm as [-> Hnil]. apply string_of_uint_nonnil. exact Hnil.
Qed.

Lemma nzhead_leading (d : Decimal.uint) :
  match Decimal.nzhead d with
  | Decimal.D0 _ => False
  | _ => True
  end.
Proof. induction d; cbn [Decimal.nzhead]; first [ exact IHd | exact I ]. Qed.

Lemma to_uint_leading (p : positive) :
  match Pos.to_uint p with
  | Decimal.Nil | Decimal.D0 _ => False
  | _ => True
  end.
Proof.
  pose proof (DecimalPos.Unsigned.to_of (Pos.to_uint p)) as E.
  rewrite DecimalPos.Unsigned.of_to in E. cbn [N.to_uint] in E.
  pose proof (DecimalPos.Unsigned.to_uint_nonzero p) as Hnz.
  pose proof (nzhead_leading (Pos.to_uint p)) as Hlead.
  unfold Decimal.unorm in E.
  destruct (Decimal.nzhead (Pos.to_uint p)); rewrite E; first [ exact I | congruence | exact Hlead ].
Qed.

Lemma decimal_value_lower (ds : string) (acc : Z) :
  all_digits ds = true -> 0 <= acc ->
  acc * 10 ^ Z.of_nat (String.length ds) <= decimal_value acc ds.
Proof.
  revert acc. induction ds as [ | c ds IH ]; intros acc Hd Hacc.
  - cbn. lia.
  - cbn [all_digits] in Hd. apply andb_prop in Hd as [Hc Hd].
    cbn [decimal_value String.length].
    pose proof (digit_val_range c Hc) as Hv.
    specialize (IH (acc * 10 + digit_val c) Hd ltac:(lia)).
    rewrite Nat2Z.inj_succ, Z.pow_succ_r by lia.
    assert (Hpow : 0 < 10 ^ Z.of_nat (String.length ds)) by (apply Z.pow_pos_nonneg; lia).
    nia.
Qed.

Lemma to_uint_length (p : positive) :
  Z.pos p < 10 ^ 10 ->
  (String.length (NilEmpty.string_of_uint (Pos.to_uint p)) <= 10)%nat.
Proof.
  intros Hmax.
  pose proof (uint_value (Pos.to_uint p)) as Hval.
  rewrite DecimalPos.Unsigned.of_to in Hval. cbn [Z.of_N] in Hval.
  pose proof (uint_digits (Pos.to_uint p)) as Hdig.
  pose proof (to_uint_leading p) as Hlead.
  unfold Format.value in Hval.
  destruct (Pos.to_uint p) as [ | d | d | d | d | d | d | d | d | d | d ];
    try contradiction;
    cbn [NilEmpty.string_of_uint decimal_value all_digits String.length] in *;
    apply andb_prop in Hdig as [_ Hdig];
    vm_compute digit_val in Hval;
    match type of Hval with
    | decimal_value ?k _ = _ =>
        pose proof (decimal_value_lower _ k Hdig ltac:(lia)) as Hlow
    end;
    rewrite Hval in Hlow;
    destruct (Nat.le_gt_cases (String.length (NilEmpty.string_of_uint d)) 9) as [ Hle | Hgt ];
    try lia;
    exfalso;
    assert (Hpow : 10 ^ 10 <= 10 ^ Z.of_nat (String.length (NilEmpty.string_of_uint d)))
      by (apply Z.pow_le_mono_r; lia);
    nia.
Qed.

Lemma to_string_length (z : Z) :
  is_int z -> (String.length (to_string z) <= 11)%nat.
Proof.
  unfold is_int, INT_MIN, INT_MAX. intros Hz.
  destruct z as [ | p | p ]; [ cbn; lia | | ]; unfold to_string; cbn [Z.to_int NilZero.string_of_int].
  - rewrite string_of_uint_nonnil by apply DecimalPos.Unsigned.to_uint_nonnil.
    pose proof (to_uint_length p ltac:(lia)). lia.
  - rewrite string_of_uint_nonnil by apply DecimalPos.Unsigned.to_uint_nonnil.
    cbn [String.length]. pose proof (to_uint_length p ltac:(lia)). lia.
Qed.

Lemma substring_whole (s : string) (n : nat) :
  (String.length s <= n)%nat -> String.substring 0 n s = s.
Proof.
  revert n. induction s as [ | c s IH ]; intros n Hn.
  - destruct n; reflexivity.
  - destruct n as [ | n ]; [ cbn in Hn; lia | ].
    cbn [String.substring]. f_equal. apply IH. cbn in Hn. lia.
Qed.

Lemma substring_length (s : string) (n : nat) :
  (n <= String.length s)%nat -> String.length (String.substring 0 n s) = n.
Proof.
  revert n. induction s as [ | c s IH ]; intros n Hn.
  - destruct n; [ reflexivity | cbn in Hn; lia ].
  - destruct n as [ | n ]; [ reflexivity | ].
    cbn [String.substring String.length]. f_equal. apply IH. cbn in Hn. lia.
Qed.

Lemma truncated_length (s : string) :
  (String.length (if (20 <? Z.of_nat (String.length s))%Z
                  then (String.substring 0 17 s ++ "...")%string else s) <= 20)%nat.
Proof.
  destruct (Z.ltb_spec 20 (Z.of_nat (String.length s))) as [ Hlong | Hshort ]; [ | lia ].
  rewrite length_append, substring_length by lia. cbn. lia.
Qed.

(** X14.  The name column is never wider than 20 characters.  A name of at
    most 20 characters is shown as it is, a longer one as its first 17
    characters followed by three dots, and a process without a name as its
    pid between brackets. *)
Theorem X14_display_name (p : Proc) :
  (String.length (display_name p) <= 20)%nat /\
  (name p <> EmptyString -> (String.length (name p) <= 20)%nat ->
   display_name p = name p) /\
  ((20 < String.length (name p))%nat ->
   display_name p = (String.substring 0 17 (name p) ++ "...")%string /\
   String.length (display_name p) = 20%nat) /\
  (name p = EmptyString -> is_int (pid p) ->
   display_name p = ("[" ++ to_string (pid p) ++ "]")%string).
Proof.
  unfold display_name. split; [ apply truncated_length | ]. split; [ | split ].
  - intros Hne Hlen. destruct (name p) as [ | c n ] eqn:E; [ congruence | ].
    destruct (Z.ltb_spec 20 (Z.of_nat (String.length (String c n)))); [ lia | reflexivity ].
  - intros Hlen. destruct (name p) as [ | c n ] eqn:E; [ cbn in Hlen; lia | ].
    destruct (Z.ltb_spec 20 (Z.of_nat (String.length (String c n)))); [ | lia ].
    split; [ reflexivity | ].
    rewrite length_append, substring_length by lia. reflexivity.
  - intros -> Hint. pose proof (to_string_length _ Hint) as Hlen.
    destruct (Z.ltb_spec 20 (Z.of_nat (String.length ("[" ++ to_string (pid p) ++ "]"))))
      as [ Hlong | _ ]; [ | reflexivity ].
    rewrite !length_append in Hlong. cbn [String.length] in Hlong. lia.
Qed.

(** ** The enumeration of [/proc] *)

Lemma printed_pids (entries : list string) :
  List.Forall (fun e => is_digits e = true ->
                        Format.canonical e = true /\ Format.value e <= INT_MAX) entries ->
  map (fun e => to_string (atoi e)) (List.filter is_digits entries)
  = List.filter is_digits entries /\
  List.Forall (fun e => 0 <= atoi e <= INT_MAX) (List.filter is_digits entries).
Proof.
  induction 1 as [ | e entries He Hrest [IH1 IH2] ]; [ split; [ reflexivity | constructor ] | ].
  cbn [List.filter]. destruct (is_digits e) eqn:Hd; [ | split; assumption ].
  destruct (He eq_refl) as [Hcan Hmax].
  destruct (atoi_digits e Hd Hmax) as [Hval Hpos].
  split.
  - cbn [map]. rewrite IH1, Hval, (to_string_value e Hd Hcan). reflexivity.
  - constructor; [ lia | exact IH2 ].
Qed.

(** X12.  When every numeric name in [/proc] is a canonical decimal that
    fits an [int], the pids of the snapshot, printed, are the numeric names
    in the order of the directory: every record is read from the files of
    its own entry, and no pid is negative. *)
Theorem X12_snapshot_names (PAGE_SIZE : Z) (h : Host) (entries : list string)
    (procs : list Proc) :
  proc_entries h = Some entries ->
  List.Forall (fun e => is_digits e = true ->
                        Format.canonical e = true /\ Format.value e <= INT_MAX) entries ->
  SnapshotReader.get_all_processes PAGE_SIZE h = Ok procs ->
  map (fun p => to_string (pid p)) procs = List.filter is_digits entries /\
  List.Forall (fun p => 0 <= pid p <= INT_MAX) procs.
Proof.
  intros Hentries Hnames Hprocs.
  unfold SnapshotReader.get_all_processes in Hprocs. rewrite Hentries in Hprocs.
  apply read_entries_pids in Hprocs.
  destruct (printed_pids entries Hnames) as [Hprint Hrange].
  split.
  - rewrite <- Hprint, <- (map_map atoi to_string), <- Hprocs, map_map. reflexivity.
  - apply List.Forall_forall. intros p Hp.
    apply (in_map pid) in Hp. rewrite Hprocs in Hp.
    apply in_map_iff in Hp as (e & <- & He).
    rewrite List.Forall_forall in Hrange. exact (Hrange e He).
Qed.

Lemma X12_snapshot_names_witness :
  map (fun p => to_string (pid p))
    [ {| pid := 42; name := "cat"; prev_time := 0; time := 100; rss_pages := 25600;
         cpu_pct := 0; mem_pct := 0 |};
      {| pid := 7; name := ""; prev_time := 0; time := 0; rss_pages := 512;
         cpu_pct := 0; mem_pct := 0 |} ]
  = List.filter is_digits Scenario.entries /\
  List.Forall (fun p => 0 <= pid p <= INT_MAX)
    [ {| pid := 42; name := "cat"; prev_time := 0; time := 100; rss_pages := 25600;
         cpu_pct := 0; mem_pct := 0 |};
      {| pid := 7; name := ""; prev_time := 0; time := 0; rss_pages := 512;
         cpu_pct := 0; mem_pct := 0 |} ].
Proof.
  apply (X12_snapshot_names Scenario.PAGE_SIZE Scenario.host_A Scenario.entries).
  - reflexivity.
  - repeat constructor; (discriminate || (vm_compute; discriminate)).
  - reflexivity.
Defined.

(** ** The kill sub-flow on a typed pid *)

(** X13.  When the line typed in the kill sub-flow is a decimal number [n]
    of at most 31 digits with [0 < n <= INT_MAX], the sub-flow sends SIGTERM
    to [n] and to nothing else, and reports that pid: as sent when [kill]
    returned 0, as failed otherwise. *)
Theorem X13_kill_typed_pid (h : Host) (rows : Z) (t : Terminal) :
  is_digits (typed_line h) = true ->
  (String.length (typed_line h) <= 31)%nat ->
  0 < Format.value (typed_line h) <= INT_MAX ->
  snd (kill_subflow h rows t)
  = [ mvprintw (rows - 1) 0 EnterPid;
      getnstr (typed_line h);
      kill (Format.value (typed_line h)) SIGTERM;
      mvprintw (rows - 1) 0
        (if kill_result h (Format.value (typed_line h)) =? 0
         then SentSigterm (Format.value (typed_line h))
         else FailedToKill (Format.value (typed_line h)));
      refresh;
      getch (ack_key h) ].
Proof.
  intros Hd Hlen [Hpos Hmax].
  rewrite kill_subflow_events. unfold read_buf.
  rewrite (substring_whole _ _ Hlen).
  destruct (atoi_digits _ Hd Hmax) as [-> _].
  destruct (Z.ltb_spec 0 (Format.value (typed_line h))); [ reflexivity | lia ].
Qed.

Lemma X13_kill_typed_pid_witness :
  snd (kill_subflow Scenario.host_C 24 monitor_mode)
  = [ mvprintw 23 0 EnterPid; getnstr "42"; kill 42 SIGTERM;
      mvprintw 23 0 (SentSigterm 42); refresh; getch 32 ].
Proof.
  apply (X13_kill_typed_pid Scenario.host_C 24 monitor_mode).
  - reflexivity.
  - cbn. lia.
  - vm_compute. split; [ reflexivity | discriminate ].
Defined.

(** ** The table *)

Lemma draw_rows_rows (row : Z) (max_rows : nat) (procs : list Proc) :
  draw_rows row max_rows procs
  = imap (fun i p => row_at (row + Z.of_nat i) p) (take max_rows procs).
Proof.
  revert row procs. induction max_rows as [ | n IH ]; intros row procs.
  - destruct procs; reflexivity.
  - destruct procs as [ | p rest ]; [ reflexivity | ].
    cbn [draw_rows take imap]. unfold row_at at 1. rewrite Z.add_0_r. f_equal.
    rewrite IH. apply imap_ext. intros i q _. cbn. f_equal. lia.
Qed.

Lemma filter_rows (row : Z) (max_rows : nat) (procs : list Proc) :
  List.filter is_row (draw_rows row max_rows procs) = draw_rows row max_rows procs.
Proof.
  revert row procs. induction max_rows as [ | n IH ]; intros row procs.
  - destruct procs; reflexivity.
  - destruct procs as [ | p rest ]; [ reflexivity | ].
    cbn [draw_rows List.filter is_row]. f_equal. apply IH.
Qed.

Lemma draw_bar_no_row (y x width : Z) (fraction : Q) (cells : list Event) :
  draw_bar y x width fraction = Ok cells -> List.filter is_row cells = [].
Proof.
  unfold draw_bar. intros H. apply bind_Ok_inv in H as (filled & _ & H).
  injection H as <-. induction (seqZ 0 width) as [ | i l IH ]; [ reflexivity | exact IH ].
Qed.

Lemma handle_key_no_row (h : Host) (rows : Z) (st : Main.LoopState) :
  List.filter is_row (snd (fst (Main.handle_key h rows st))) = [].
Proof.
  unfold Main.handle_key.
  destruct (Main.key_is (key h) "q" "Q"); [ reflexivity | ].
  destruct (Main.key_is (key h) "s" "S"); [ reflexivity | ].
  destruct (Main.key_is (key h) "k" "K"); [ | reflexivity ].
  pose proof (kill_subflow_events h rows (Main.term st)) as Hev.
  destruct (kill_subflow h rows (Main.term st)) as [t evs]. cbn [fst snd] in *.
  subst evs. cbn [List.filter is_row app].
  rewrite List.filter_app.
  destruct (0 <? atoi (read_buf h)); [ | reflexivity ].
  destruct (kill_result h (atoi (read_buf h)) =? 0); reflexivity.
Qed.

Lemma draw_frame_rows (h : Host) (mode : Z) (s : Main.Sample)
    (sorted : list Proc) (frame : list Event) :
  Main.draw_frame h mode s sorted = Ok frame ->
  List.filter is_row frame
  = draw_rows 7 (Z.to_nat (Z.max 1 (screen_rows h - 9))) sorted.
Proof.
  unfold Main.draw_frame. intros H.
  apply bind_Ok_inv in H as (cpu_bar & Hcpu & H).
  apply bind_Ok_inv in H as (mem_fraction & _ & H).
  apply bind_Ok_inv in H as (mem_bar & Hmem & H).
  injection H as <-.
  apply draw_bar_no_row in Hcpu, Hmem.
  cbn [app List.filter is_row]. rewrite List.filter_app, Hcpu.
  cbn [app List.filter is_row]. rewrite List.filter_app, Hmem.
  cbn [app List.filter is_row]. rewrite List.filter_app, filter_rows.
  cbn [app List.filter is_row]. rewrite app_nil_r.
  f_equal. f_equal.
  destruct (Z.ltb_spec (screen_rows h - (3 + 3 + 1) - 2) 1); lia.
Qed.

(** X15.  The table of a frame is the first [max(1, rows - 9)] processes of
    the sorted snapshot, one per line from screen row 7 down, in order.  On a
    screen of at least 10 rows every line of the table is above the two
    lines of the footer. *)
Theorem X15_table_rows (CLK_TCK PAGE_SIZE : Z) (h : Host)
    (st : Main.LoopState) (step : Main.Step) :
  Main.iteration CLK_TCK PAGE_SIZE h st = Ok step ->
  List.filter is_row (Main.events step)
  = imap (fun i p => row_at (7 + Z.of_nat i) p)
      (take (Z.to_nat (Z.max 1 (screen_rows h - 9))) (Main.snapshot step)) /\
  (10 <= screen_rows h ->
   forall e, In e (Main.events step) -> is_row e = true ->
   exists y p, e = row_at y p /\ 7 <= y <= screen_rows h - 3).
Proof.
  intros Hstep.
  apply iteration_inv in Hstep
    as (s & frame & st1 & _ & _ & Hframe & _ & _ & _ & Hev & _).
  assert (Hrows : List.filter is_row (Main.events step)
                  = imap (fun i p => row_at (7 + Z.of_nat i) p)
                      (take (Z.to_nat (Z.max 1 (screen_rows h - 9)))
                         (Main.snapshot step))).
  { rewrite Hev, List.filter_app, handle_key_no_row, app_nil_r.
    rewrite (draw_frame_rows _ _ _ _ _ Hframe). apply draw_rows_rows. }
  split; [ exact Hrows | ].
  intros Hbig e Hin Hrow.
  assert (Hin' : In e (List.filter is_row (Main.events step)))
    by (apply List.filter_In; split; assumption).
  rewrite Hrows in Hin'. apply list_elem_of_In in Hin'.
  apply elem_of_lookup_imap in Hin' as (i & p & -> & Hi).
  exists (7 + Z.of_nat i), p. split; [ reflexivity | ].
  apply lookup_lt_Some in Hi. rewrite length_take in Hi. lia.
Qed.

Lemma X15_table_rows_witness :
  exists step,
    Main.iteration Scenario.CLK_TCK Scenario.PAGE_SIZE Scenario.host_B
      (Main.initial_state Scenario.host_A) = Ok step /\
    List.filter is_row (Main.events step)
    = imap (fun i p => row_at (7 + Z.of_nat i) p)
        (take (Z.to_nat (Z.max 1 (screen_rows Scenario.host_B - 9)))
           (Main.snapshot step)).
Proof.
  destruct (Main.iteration Scenario.CLK_TCK Scenario.PAGE_SIZE Scenario.host_B
              (Main.initial_state Scenario.host_A)) as [ step | f ] eqn:E;
    [ | vm_compute in E; discriminate E ].
  exists step. split; [ reflexivity | ].
  exact (proj1 (X15_table_rows _ _ _ _ _ E)).
Defined.

(** ** When an iteration completes *)

Lemma take_digits_digits (s : string) : all_digits (fst (take_digits s)) = true.
Proof.
  induction s as [ | c s IH ]; [ reflexivity | ].
  cbn [take_digits]. destruct (isdigit c) eqn:Hc; [ | reflexivity ].
  destruct (take_digits s) as [d r]. cbn [fst all_digits] in *.
  rewrite Hc, IH. reflexivity.
Qed.

Lemma scan_number_nonneg (s r : string) (neg : bool) (m : Z) :
  scan_number s = Some (neg, m, r) -> 0 <= m.
Proof.
  unfold scan_number. destruct (take_sign (skip_ws s)) as [sg s1].
  pose proof (take_digits_digits s1) as Hd.
  destruct (take_digits s1) as [d r']. cbn [fst] in Hd.
  destruct d as [ | c d ]; [ discriminate | ].
  intros H. injection H as _ <- _.
  exact (decimal_value_nonneg (String c d) 0 Hd ltac:(lia)).
Qed.

Lemma extract_ull_nonneg (s r : string) (v : Z) :
  extract_ull s = Extracted v r -> 0 <= v.
Proof.
  unfold extract_ull, strtoull. destruct (at_eof s); [ discriminate | ].
  destruct (scan_number s) as [ [[neg m] r'] | ] eqn:E; [ | discriminate ].
  apply scan_number_nonneg in E.
  destruct (m >? ULLONG_MAX); [ discriminate | ].
  intros H. injection H as <- _.
  destruct neg; [ | exact E ].
  unfold wrap64, ULLONG_MOD. apply Z.mod_pos_bound. lia.
Qed.

Lemma read_mem_info_loop_nonneg (fuel : nat) (s : string) (m : SnapshotReader.MemInfo) :
  meminfo_nonneg m -> meminfo_nonneg (SnapshotReader.read_mem_info_loop fuel s m).
Proof.
  revert s m. induction fuel as [ | fuel IH ]; intros s m Hm; [ exact Hm | ].
  cbn [SnapshotReader.read_mem_info_loop].
  destruct (extract_token s) as [ k r1 | k | ]; try exact Hm.
  destruct (extract_ull r1) as [ value r2 | value | ] eqn:Ev; try exact Hm.
  destruct (extract_token r2) as [ u r3 | u | ]; try exact Hm.
  apply IH. apply extract_ull_nonneg in Ev.
  assert (Hmb : (0 <= Double.of_int value / 1024)%Q).
  { unfold Double.of_int. pose proof (inject_Z_nonneg value Ev) as Hv.
    apply Qle_shift_div_l; [ reflexivity | ]. lra. }
  destruct Hm as (Ht & Hf & Ha).
  destruct (String.eqb k "MemTotal:"); [ repeat split; assumption | ].
  destruct (String.eqb k "MemFree:"); [ repeat split; assumption | ].
  destruct (String.eqb k "MemAvailable:"); repeat split; assumption.
Qed.

Lemma read_mem_info_nonneg (h : Host) : meminfo_nonneg (SnapshotReader.read_mem_info h).
Proof.
  unfold SnapshotReader.read_mem_info.
  assert (H0 : meminfo_nonneg {| SnapshotReader.total_mb := 0; SnapshotReader.free_mb := 0;
                                 SnapshotReader.avail_mb := 0 |})
    by (repeat split; cbn; lra).
  destruct (file h "/proc/meminfo"); [ apply read_mem_info_loop_nonneg | ]; exact H0.
Qed.

Lemma update_all_returns (CLK_TCK PAGE_SIZE : Z) (interval mem_total_mb : Q)
    (procs : list Proc) (m : gmap Z Z) :
  0 < CLK_TCK -> (0 < interval)%Q ->
  exists r, DeltaEngine.update_all CLK_TCK PAGE_SIZE interval mem_total_mb m procs = Ok r.
Proof.
  intros Hclk Hint. revert m. induction procs as [ | p rest IH ]; intros m.
  - eexists. reflexivity.
  - cbn [DeltaEngine.update_all]. unfold DeltaEngine.update_proc.
    rewrite (compute_cpu_pct_value _ _ _ Hclk Hint).
    destruct (mem_pct_value PAGE_SIZE (rss_pages p) mem_total_mb) as (v & -> & _).
    cbn. destruct (IH (<[pid p := time p]> m)) as [[rest' m'] ->].
    eexists. reflexivity.
Qed.

Lemma draw_bar_returns (y x width : Z) (fraction : Q) :
  0 <= width <= INT_MAX -> (0 <= fraction)%Q -> (fraction <= 1)%Q ->
  exists cells, draw_bar y x width fraction = Ok cells.
Proof.
  intros Hw Hlo Hhi. unfold draw_bar, Double.to_int.
  pose proof (inject_Z_nonneg width ltac:(lia)) as Hwq.
  assert (Hx : (0 <= fraction * Double.of_int width + (1 # 2))%Q)
    by (unfold Double.of_int; nra).
  assert (Hx' : (fraction * Double.of_int width + (1 # 2) < inject_Z (width + 1))%Q)
    by (unfold Double.of_int; rewrite inject_Z_plus; change (inject_Z 1) with 1%Q; nra).
  rewrite (trunc_nonneg _ Hx).
  pose proof (Qfloor_le (fraction * Double.of_int width + (1 # 2))) as Hfl.
  assert (Hlt : (inject_Z (Qfloor (fraction * Double.of_int width + (1 # 2)))
                 < inject_Z (width + 1))%Q) by lra.
  rewrite <- Zlt_Qlt in Hlt.
  assert (Hge : 0 <= Qfloor (fraction * Double.of_int width + (1 # 2))).
  { change 0 with (Qfloor 0). apply Qfloor_resp_le. exact Hx. }
  unfold INT_MIN, INT_MAX in *.
  destruct (Z.leb_spec (- 2 ^ 31) (Qfloor (fraction * Double.of_int width + (1 # 2))));
    [ | lia ].
  destruct (Z.leb_spec (Qfloor (fraction * Double.of_int width + (1 # 2))) (2 ^ 31 - 1));
    [ | lia ].
  eexists. reflexivity.
Qed.

Lemma sum_proc_cpu_nonneg (procs : list Proc) :
  (forall p, In p procs -> (0 <= cpu_pct p)%Q) ->
  (0 <= Aggregator.sum_proc_cpu procs)%Q.
Proof.
  unfold Aggregator.sum_proc_cpu. intros H.
  assert (Hacc : forall acc, (0 <= acc)%Q ->
                   (0 <= fold_left (fun a p => (a + cpu_pct p)%Q) procs acc)%Q).
  { induction procs as [ | p rest IH ]; intros acc Hacc; [ exact Hacc | ].
    cbn [fold_left]. apply IH.
    - intros q Hq. apply H. right. exact Hq.
    - pose proof (H p (or_introl eq_refl)). lra. }
  apply Hacc. lra.
Qed.

Lemma min_unit (x : Q) : (0 <= x)%Q -> (0 <= Double.min 1 x)%Q /\ (Double.min 1 x <= 1)%Q.
Proof.
  intros Hx. unfold Double.min.
  destruct (Double.ltb x 1) eqn:E.
  - apply ltb_lt in E. split; lra.
  - split; lra.
Qed.

Lemma bar_width_range (cols : Z) :
  is_int cols -> 0 <= Z.max 20 (Z.quot cols 3) <= INT_MAX.
Proof.
  unfold is_int, INT_MIN, INT_MAX. intros Hc.
  pose proof (Z.quot_rem' cols 3) as Hqr.
  destruct (Z.le_gt_cases 0 cols) as [ Hpos | Hneg ].
  - pose proof (Z.rem_bound_pos cols 3 Hpos ltac:(lia)). lia.
  - pose proof (Z.quot_pos (- cols) 3 ltac:(lia) ltac:(lia)) as Hq.
    rewrite Z.quot_opp_l in Hq by lia. lia.
Qed.

Lemma draw_frame_returns (h : Host) (mode : Z) (s : Main.Sample) (sorted : list Proc) :
  is_int (screen_cols h) ->
  (forall p, In p sorted -> (0 <= cpu_pct p)%Q) ->
  (0 <= SnapshotReader.avail_mb (Main.meminfo s))%Q ->
  (SnapshotReader.avail_mb (Main.meminfo s)
   <= SnapshotReader.total_mb (Main.meminfo s))%Q ->
  exists frame, Main.draw_frame h mode s sorted = Ok frame.
Proof.
  intros Hcols Hcpu Havail Htotal. unfold Main.draw_frame.
  pose proof (bar_width_range _ Hcols) as Hw.
  assert (Hind : (0 <= Aggregator.cpu_indicator (Main.total_time_delta s) sorted / 100)%Q).
  { unfold Aggregator.cpu_indicator.
    destruct (0 <? Main.total_time_delta s).
    - pose proof (sum_proc_cpu_nonneg sorted Hcpu) as Hsum.
      apply Qle_shift_div_l; [ reflexivity | ]. lra.
    - apply Qle_shift_div_l; [ reflexivity | ]. lra. }
  destruct (min_unit _ Hind) as [Hlo Hhi].
  destruct (draw_bar_returns 3 24 _ _ Hw Hlo Hhi) as [cpu_bar ->].
  cbn [mbind outcome_bind].
  destruct (Double.ltb 0 (SnapshotReader.total_mb (Main.meminfo s))) eqn:Ept.
  - apply ltb_lt in Ept.
    rewrite div_nonzero by lra. cbn [mbind outcome_bind].
    assert (Hf0 : (0 <= (SnapshotReader.total_mb (Main.meminfo s)
                         - SnapshotReader.avail_mb (Main.meminfo s))
                        / SnapshotReader.total_mb (Main.meminfo s))%Q)
      by (apply Qle_shift_div_l; [ exact Ept | lra ]).
    assert (Hf1 : ((SnapshotReader.total_mb (Main.meminfo s)
                    - SnapshotReader.avail_mb (Main.meminfo s))
                   / SnapshotReader.total_mb (Main.meminfo s) <= 1)%Q)
      by (apply Qle_shift_div_r; [ exact Ept | lra ]).
    destruct (draw_bar_returns (3 + 1) 24 _ _ Hw Hf0 Hf1) as [mem_bar ->].
    eexists. reflexivity.
  - cbn [mbind outcome_bind].
    destruct (draw_bar_returns (3 + 1) 24 _ 0 Hw ltac:(lra) ltac:(lra)) as [mem_bar ->].
    eexists. reflexivity.
Qed.

(** X16.  With a positive [CLK_TCK], a screen width in the range of [int]
    and no more memory available than there is in total, an iteration
    completes whenever the enumeration of the processes returns: no division
    has a zero divisor and no cast to [int] is out of range.  An exception of
    the enumeration is the only thing that ends it early. *)
Theorem X16_iteration_completes (CLK_TCK PAGE_SIZE : Z) (h : Host)
    (st : Main.LoopState) :
  0 < CLK_TCK -> is_int (screen_cols h) ->
  (SnapshotReader.avail_mb (SnapshotReader.read_mem_info h)
   <= SnapshotReader.total_mb (SnapshotReader.read_mem_info h))%Q ->
  match SnapshotReader.get_all_processes PAGE_SIZE h with
  | Ok _ => exists step, Main.iteration CLK_TCK PAGE_SIZE h st = Ok step
  | Raise f => Main.iteration CLK_TCK PAGE_SIZE h st = Raise f
  end.
Proof.
  intros Hclk Hcols Hmem.
  destruct (SnapshotReader.get_all_processes PAGE_SIZE h) as [ raw | f ] eqn:Eraw.
  - pose proof (fallback_interval_pos (elapsed h)) as Hint.
    destruct (update_all_returns CLK_TCK PAGE_SIZE
                (DeltaEngine.fallback_interval (elapsed h))
                (SnapshotReader.total_mb (SnapshotReader.read_mem_info h))
                raw (Main.prev_proc_time st) Hclk Hint) as [[procs' m'] Hupd].
    assert (Hsample : exists s, Main.sample CLK_TCK PAGE_SIZE h st = Ok s /\
                                Main.procs s = procs' /\
                                Main.meminfo s = SnapshotReader.read_mem_info h).
    { unfold Main.sample. rewrite Eraw. cbn [mbind outcome_bind]. rewrite Hupd.
      eexists. split; [ reflexivity | split; reflexivity ]. }
    destruct Hsample as (s & Hs & Hprocs & Hinfo).
    apply update_all_updated in Hupd.
    pose proof (updated_cpu_nonneg _ _ _ _ _ _ _ _ Hclk Hint Hupd) as Hnonneg.
    destruct (read_mem_info_nonneg h) as (_ & _ & Havail).
    destruct (draw_frame_returns h (Main.sort_mode st) s
                (Aggregator.std_sort (Aggregator.comparator (Main.sort_mode st))
                   (Main.procs s))) as [frame Hframe].
    + exact Hcols.
    + intros p Hp. apply Hnonneg. rewrite <- Hprocs.
      apply (Permutation_in p (Permutation_sym (std_sort_perm _ _)) Hp).
    + rewrite Hinfo. exact Havail.
    + rewrite Hinfo. exact Hmem.
    + unfold Main.iteration. rewrite Hs. cbn [mbind outcome_bind]. rewrite Hframe.
      cbn [mbind outcome_bind].
      destruct (Main.handle_key h (screen_rows h) _) as [[st2 evs] c].
      eexists. reflexivity.
  - unfold Main.iteration, Main.sample. rewrite Eraw. reflexivity.
Qed.

Lemma X16_iteration_completes_witness :
  exists step,
    Main.iteration Scenario.CLK_TCK Scenario.PAGE_SIZE Scenario.host_B
      (Main.initial_state Scenario.host_A) = Ok step.
Proof.
  apply (X16_iteration_completes Scenario.CLK_TCK Scenario.PAGE_SIZE Scenario.host_B
           (Main.initial_state Scenario.host_A)).
  - reflexivity.
  - vm_compute. split; discriminate.
  - vm_compute. discriminate.
Defined.

(** ** The first line of a file *)

Lemma split_line_newline (line rest : string) :
  Format.no_newline line = true ->
  split_line (line ++ String newline rest) = (line, rest).
Proof.
  intros H. induction line as [ | c line IH ].
  - rewrite append_nil_l. cbn [split_line]. rewrite Ascii.eqb_refl. reflexivity.
  - cbn [Format.no_newline] in H. apply andb_prop in H as [Hc Hl].
    apply negb_true_iff in Hc.
    rewrite append_cons. cbn [split_line]. rewrite Hc, (IH Hl). reflexivity.
Qed.

Lemma split_line_whole (line : string) :
  Format.no_newline line = true -> split_line line = (line, EmptyString).
Proof.
  intros H. induction line as [ | c line IH ]; [ reflexivity | ].
  cbn [Format.no_newline] in H. apply andb_prop in H as [Hc Hl].
  apply negb_true_iff in Hc.
  cbn [split_line]. rewrite Hc, (IH Hl). reflexivity.
Qed.

(** X17.  [read_first_line] gives the text before the first newline of the
    file, the whole text when the file has no newline, and the empty string
    when the file cannot be opened: a file that cannot be read and a file
    that starts with an empty line look the same to the callers. *)
Theorem X17_first_line (h : Host) (path : string) :
  (file h path = None -> SnapshotReader.read_first_line h path = EmptyString) /\
  (forall line rest,
     Format.no_newline line = true ->
     file h path = Some (line ++ String newline rest)%string ->
     SnapshotReader.read_first_line h path = line) /\
  (forall line,
     Format.no_newline line = true ->
     file h path = Some line ->
     SnapshotReader.read_first_line h path = line).
Proof.
  unfold SnapshotReader.read_first_line. split; [ | split ].
  - intros ->. reflexivity.
  - intros line rest Hline ->. unfold getline.
    rewrite (split_line_newline _ rest Hline).
    destruct line; reflexivity.
  - intros line Hline ->. unfold getline.
    rewrite (split_line_whole _ Hline). destruct line; reflexivity.
Qed.

(** ** The bars of a frame *)









(** ** The records of a snapshot *)

Lemma updated_as_read CLK_TCK PAGE_SIZE interval mem_total_mb m procs procs' m' :
  updated CLK_TCK PAGE_SIZE interval mem_total_mb m procs procs' m' ->
  map as_read procs' = map as_read procs.
Proof. induction 1; [ reflexivity | cbn [map]; f_equal; assumption ]. Qed.

(** X19.  The snapshot of a completed iteration holds the records the
    enumeration returned, each once, in the display order: pid, name, tick
    count and resident pages are as read, and only the two percentages are
    computed. *)
Theorem X19_snapshot_records (CLK_TCK PAGE_SIZE : Z) (h : Host)
    (st : Main.LoopState) (step : Main.Step) :
  Main.iteration CLK_TCK PAGE_SIZE h st = Ok step ->
  exists raw,
    SnapshotReader.get_all_processes PAGE_SIZE h = Ok raw /\
    Permutation (map as_read raw) (map as_read (Main.snapshot step)).
Proof.
  intros Hstep.
  apply iteration_inv in Hstep as (s & frame & st1 & Hs & Hsnap & _).
  apply sample_inv in Hs as (raw & Hraw & Hupd & _).
  exists raw. split; [ exact Hraw | ].
  rewrite Hsnap, <- (updated_as_read _ _ _ _ _ _ _ _ Hupd).
  apply Permutation_map. apply std_sort_perm.
Qed.

Lemma X19_snapshot_records_witness :
  exists step raw,
    Main.iteration Scenario.CLK_TCK Scenario.PAGE_SIZE Scenario.host_B
      (Main.initial_state Scenario.host_A) = Ok step /\
    SnapshotReader.get_all_processes Scenario.PAGE_SIZE Scenario.host_B = Ok raw /\
    Permutation (map as_read raw) (map as_read (Main.snapshot step)).
Proof.
  destruct (Main.iteration Scenario.CLK_TCK Scenario.PAGE_SIZE Scenario.host_B
              (Main.initial_state Scenario.host_A)) as [ step | e ] eqn:E;
    [ | vm_compute in E; discriminate E ].
  destruct (X19_snapshot_records Scenario.CLK_TCK Scenario.PAGE_SIZE Scenario.host_B
              (Main.initial_state Scenario.host_A) step E) as (raw & Hraw & Hperm).
  exists step, raw. split; [ reflexivity | ]. split; [ exact Hraw | exact Hperm ].
Defined.
